(** * pit-ninja: pit controller, probe manager and temperature fusion

    A shallow embedding of [pit-pid.js] (class [PitPID]), of the helpers of
    [utils.js], of [meater-daemon.js] (the probes and their discovery), of
    [pca9685-driver.js] and of [pit-airflow.js], followed by the properties
    of the controller that the specification states and by further
    properties of the code.

    JavaScript numbers are embedded as exact rationals extended with the two
    infinities and NaN: rounding of IEEE doubles and the sign of zero are not
    part of the model (a zero divisor is read as +0).  Every arithmetic
    operation returns its rational in lowest terms, so that equal numbers are
    equal terms and the definitions can be evaluated on concrete inputs.
    Where the rounding of the code can change a decision, a property is
    stated for the inputs that are clear of the decision, or for what holds
    on either side of it; [Binary64] evaluates the temperature fusion in
    double precision. *)

From Stdlib Require Import ZArith QArith Qreduction Qabs List String Ascii Bool.
From Stdlib.Strings Require Import Byte.
From Stdlib Require Import Qminmax Qround.
From Stdlib Require PrimFloat Uint63.
From Stdlib Require Import Lia Lqa Permutation.
From Stdlib Require Import Reals Qreals Lra Psatz.
Import ListNotations.

Local Open Scope Z_scope.

(** ** JavaScript numbers *)

Module Num.

Local Open Scope Q_scope.

Inductive num : Type :=
| Fin (q : Q)
| PInf
| NInf
| NaN.

Definition of_Z (z : Z) : num := Fin (inject_Z z).

Definition Qltb (x y : Q) : bool :=
  match x ?= y with Lt => true | _ => false end.

(** [cmp] is the IEEE comparison: NaN is unordered with everything. *)
Definition cmp (a b : num) : option comparison :=
  match a, b with
  | NaN, _ | _, NaN => None
  | Fin x, Fin y => Some (x ?= y)
  | PInf, PInf | NInf, NInf => Some Eq
  | NInf, _ | _, PInf => Some Lt
  | _, _ => Some Gt
  end.

Definition ltb (a b : num) : bool :=
  match cmp a b with Some Lt => true | _ => false end.
Definition leb (a b : num) : bool :=
  match cmp a b with Some Lt | Some Eq => true | _ => false end.
Definition gtb (a b : num) : bool := ltb b a.
Definition geb (a b : num) : bool := leb b a.
(** [a == b] and [a != b] on two numbers. *)
Definition eqb (a b : num) : bool :=
  match cmp a b with Some Eq => true | _ => false end.
Definition neqb (a b : num) : bool := negb (eqb a b).

Definition isNaN (a : num) : bool :=
  match a with NaN => true | _ => false end.

(** Truthiness of a number: everything but 0 and NaN. *)
Definition truthy (a : num) : bool :=
  match a with
  | NaN => false
  | Fin x => negb (Qeq_bool x 0)
  | _ => true
  end.

Definition neg (a : num) : num :=
  match a with
  | Fin x => Fin (Qred (- x))
  | PInf => NInf
  | NInf => PInf
  | NaN => NaN
  end.

Definition add (a b : num) : num :=
  match a, b with
  | NaN, _ | _, NaN => NaN
  | Fin x, Fin y => Fin (Qred (x + y))
  | PInf, NInf | NInf, PInf => NaN
  | PInf, _ | _, PInf => PInf
  | NInf, _ | _, NInf => NInf
  end.

Definition sub (a b : num) : num :=
  match a, b with
  | Fin x, Fin y => Fin (Qred (x - y))
  | _, _ => add a (neg b)
  end.

(** The product of the sign of [x] and of an infinity, [+oo] when [pos] and
    [-oo] otherwise; a zero [x] counts as positive. *)
Definition inf_of_sign (x : Q) (pos : bool) : num :=
  if Bool.eqb (Qltb x 0) pos then NInf else PInf.

Definition mul (a b : num) : num :=
  match a, b with
  | NaN, _ | _, NaN => NaN
  | Fin x, Fin y => Fin (Qred (x * y))
  | Fin x, PInf | PInf, Fin x =>
      if Qeq_bool x 0 then NaN else inf_of_sign x true
  | Fin x, NInf | NInf, Fin x =>
      if Qeq_bool x 0 then NaN else inf_of_sign x false
  | PInf, PInf | NInf, NInf => PInf
  | PInf, NInf | NInf, PInf => NInf
  end.

Definition div (a b : num) : num :=
  match a, b with
  | NaN, _ | _, NaN => NaN
  | Fin x, Fin y =>
      if Qeq_bool y 0
      then (if Qeq_bool x 0 then NaN else inf_of_sign x true)
      else Fin (Qred (x / y))
  | Fin _, _ => Fin 0
  | PInf, Fin y => inf_of_sign y true
  | NInf, Fin y => inf_of_sign y false
  | _, _ => NaN
  end.

(** [Math.min] and [Math.max]. *)
Definition min (a b : num) : num :=
  match cmp a b with
  | None => NaN
  | Some Gt => b
  | Some _ => a
  end.

Definition max (a b : num) : num :=
  match cmp a b with
  | None => NaN
  | Some Lt => b
  | Some _ => a
  end.

(** [Math.abs]. *)
Definition abs (a : num) : num :=
  match a with
  | Fin x => Fin (Qred (Qabs x))
  | NaN => NaN
  | _ => PInf
  end.

(** A nullable number read as an operand: [null] converts to 0. *)
Definition ToNumber (v : option num) : num :=
  match v with
  | Some n => n
  | None => Fin 0
  end.

End Num.

Import Num.

Declare Scope num_scope.
Delimit Scope num_scope with num.
Bind Scope num_scope with num.
Infix "+" := add : num_scope.
Infix "-" := sub : num_scope.
Infix "*" := mul : num_scope.
Infix "/" := div : num_scope.
Infix "<?" := ltb : num_scope.
Infix "<=?" := leb : num_scope.
Infix ">?" := gtb : num_scope.
Infix ">=?" := geb : num_scope.

(** ** utils.js *)

Definition removeItem (arr : list string) (item : string) : list string :=
  filter (fun value => negb (String.eqb value item)) arr.

Definition constrain (value minValue maxValue : num) : num :=
  Num.min (Num.max value minValue) maxValue.

Definition mapRange (value min max newMin newMax : num) : num :=
  let clampedValue := constrain value min max in
  let normalizedValue := ((clampedValue - min) / (max - min))%num in
  (normalizedValue * (newMax - newMin) + newMin)%num.

Definition mapPct (o a b : num) : num :=
  let o := constrain o (Fin 0) (Fin 100) in
  (((b - a) * o) / Fin 100 + a)%num.

(** [currAverage] is [null] ([None]) or a number. *)
Definition calcExpMovingAverage (smooth : num) (currAverage : option num)
  (newValue : num) : num :=
  match currAverage with
  | None => newValue
  | Some avg =>
      if isNaN avg then newValue
      else
        let delta := (newValue - avg)%num in
        let weightedDelta := (smooth * delta)%num in
        (avg + weightedDelta)%num
  end.

(** *** The lower-trimmed mean

    [Math.sqrt] is the one operation of the program that leaves the
    rationals.  The deviation is only ever compared, in
    [value >= mean - deviationThreshold * deviation], so the embedding keeps
    the radicand and decides that comparison exactly; [aboveTrim_sqrt] below
    relates the decision to the square root of the reals. *)

Definition aboveTrimQ (value mean threshold radicand : Q) : bool :=
  let d := (mean - value)%Q in
  if Qle_bool 0 threshold
  then Qle_bool d 0 || Qle_bool (d * d) (threshold * threshold * radicand)
  else Qle_bool d 0 && Qle_bool (threshold * threshold * radicand) (d * d).

(** [value >= mean - deviationThreshold * Math.sqrt(radicand)].  The root of a
    negative number is NaN and that of [+oo] is [+oo]; when an operand is not
    finite the outcome depends on the sign of the root alone, which is that of
    the radicand. *)
Definition aboveTrim (value mean deviationThreshold radicand : num) : bool :=
  match radicand with
  | Fin v =>
      if Qltb v 0 then false
      else
        match value, mean, deviationThreshold with
        | Fin x, Fin m, Fin t => aboveTrimQ x m t v
        | _, _, _ => (value >=? mean - deviationThreshold * radicand)%num
        end
  | PInf => (value >=? mean - deviationThreshold * PInf)%num
  | _ => false
  end.

Section Fusion.

(** [Array.prototype.sort] without a comparison function orders the elements
    by their string conversions.  All that the embedding keeps of it is that
    the sorted array is a rearrangement of the array. *)
Variable sort : list num -> list num.

Definition calcLowerTrimmedMean (arr : list num) (deviationThreshold : num)
  : num :=
  let sorted := sort arr in
  let length l := of_Z (Z.of_nat (List.length l)) in
  let mean :=
    (fold_left (fun sum value => sum + value) sorted (Fin 0)
       / length sorted)%num in
  (* the argument of Math.sqrt in [deviation] *)
  let radicand :=
    (fold_left (fun sum value => sum + (value - mean) * (value - mean))
       sorted (Fin 0) / length sorted)%num in
  let trimmedValues :=
    filter (fun value => aboveTrim value mean deviationThreshold radicand)
      sorted in
  let trimmedMean :=
    (fold_left (fun sum value => sum + value) trimmedValues (Fin 0)
       / length trimmedValues)%num in
  trimmedMean.

End Fusion.

(** ** pit-pid.js *)

Inductive PIDMODE : Type := STARTUP | RECOVERY | NORMAL | MANUAL | OFF.

(** The numeric value of a mode. *)
Definition PIDMODE_val (m : PIDMODE) : Z :=
  match m with
  | STARTUP => 0
  | RECOVERY => 1
  | NORMAL => 2
  | MANUAL => 3
  | OFF => 4
  end.

Definition AUTO_LAST : Z := 2.

Definition PIDMODE_eqb (a b : PIDMODE) : bool :=
  PIDMODE_val a =? PIDMODE_val b.

Definition PIDMODE_STR (m : PIDMODE) : string :=
  match m with
  | STARTUP => "STARTUP"
  | RECOVERY => "RECOVERY"
  | NORMAL => "NORMAL"
  | MANUAL => "MANUAL"
  | OFF => "OFF"
  end.

Definition PID_PONMEER_LAMBDA : num := Fin (2 # 5).
Definition LIDOPEN_MIN_AUTORESUME : num := Fin 30.
Definition TEMP_MEASURE_PERIOD : Z := 1000.
Definition TEMP_LONG_PWM_CNT : Z := 10.
Definition TEMP_OUTADJUST_CNT : Z := 3.
Definition SERVO_MIN_THRESH : num := Fin 5.
Definition SERVO_MAX_HOLDOFF : Z := 10.
Definition DO_WORK_PERIOD : Z :=
  TEMP_MEASURE_PERIOD / (TEMP_OUTADJUST_CNT + 1).
Definition TEMPPROBE_AVG_SMOOTH : num := (Fin 2 / (Fin 1 + Fin 60))%num.
Definition PID_OUTPUT_AVG_SMOOTH : num := (Fin 2 / (Fin 1 + Fin 240))%num.
Definition TEMP_DEV_THRESHOLD : num := Fin (1 # 2).

Inductive Units : Type := FAHRENHEIT | CELSIUS.

Definition Units_eqb (a b : Units) : bool :=
  match a, b with
  | FAHRENHEIT, FAHRENHEIT | CELSIUS, CELSIUS => true
  | _, _ => false
  end.

(** The three gains, and the three terms of the last computation. *)
Module Pid.
Record t : Type := mk { P : num; I : num; D : num }.
End Pid.

(** One entry of [_connectedProbes]. *)
Record ConnectedProbe : Type := mkConnectedProbe {
  timestamp : Z;
  ambient : num
}.

(** The fields of a [PitPID] object.  [_connectedProbes] keeps the keys in
    the order of their insertion, the order in which [Object.values]
    enumerates them. *)
Record PitPID : Type := mkPitPID {
  _Pid : Pid.t;
  _pidCurrent : Pid.t;
  _pidMode : PIDMODE;
  _pidOutput : num;
  _pidOutputAvg : num;
  _lastWorkMillis : Z;
  _periodCounter : Z;
  _longPwmTmr : Z;
  _longPwmRemaining : num;
  _units : option Units;
  _setPoint : option num;
  _currentTemp : option num;
  _temperatureAvg : option num;
  _fanMaxSpeed : num;
  _fanMaxStartupSpeed : num;
  _fanActiveFloor : num;
  _fanMinSpeed : num;
  _servoMinPos : num;
  _servoMaxPos : num;
  _fanPct : num;
  _lastBlowerOutput : num;
  _servoActiveCeil : num;
  _servoPct : num;
  _servoHoldoff : Z;
  _lidOpenOffset : num;
  _lidOpenDuration : num;
  _lidOpenTimeout : num;
  _connectedProbes : list (string * ConnectedProbe)
}.

(** Assignments to the fields. *)
Definition set_Pid (v : Pid.t) (this : PitPID) : PitPID :=
  let 'mkPitPID _ a2 a3 a4 a5 a6 a7 a8 a9 b1 b2 b3 b4 b5 b6 b7 b8 b9 c1 c2 c3
    c4 c5 c6 c7 c8 c9 d1 := this in
  mkPitPID v a2 a3 a4 a5 a6 a7 a8 a9 b1 b2 b3 b4 b5 b6 b7 b8 b9 c1 c2 c3 c4
    c5 c6 c7 c8 c9 d1.
Definition set_pidCurrent (v : Pid.t) (this : PitPID) : PitPID :=
  let 'mkPitPID a1 _ a3 a4 a5 a6 a7 a8 a9 b1 b2 b3 b4 b5 b6 b7 b8 b9 c1 c2 c3
    c4 c5 c6 c7 c8 c9 d1 := this in
  mkPitPID a1 v a3 a4 a5 a6 a7 a8 a9 b1 b2 b3 b4 b5 b6 b7 b8 b9 c1 c2 c3 c4
    c5 c6 c7 c8 c9 d1.
Definition set_pidMode (v : PIDMODE) (this : PitPID) : PitPID :=
  let 'mkPitPID a1 a2 _ a4 a5 a6 a7 a8 a9 b1 b2 b3 b4 b5 b6 b7 b8 b9 c1 c2 c3
    c4 c5 c6 c7 c8 c9 d1 := this in
  mkPitPID a1 a2 v a4 a5 a6 a7 a8 a9 b1 b2 b3 b4 b5 b6 b7 b8 b9 c1 c2 c3 c4
    c5 c6 c7 c8 c9 d1.
Definition set_pidOutput (v : num) (this : PitPID) : PitPID :=
  let 'mkPitPID a1 a2 a3 _ a5 a6 a7 a8 a9 b1 b2 b3 b4 b5 b6 b7 b8 b9 c1 c2 c3
    c4 c5 c6 c7 c8 c9 d1 := this in
  mkPitPID a1 a2 a3 v a5 a6 a7 a8 a9 b1 b2 b3 b4 b5 b6 b7 b8 b9 c1 c2 c3 c4
    c5 c6 c7 c8 c9 d1.
Definition set_pidOutputAvg (v : num) (this : PitPID) : PitPID :=
  let 'mkPitPID a1 a2 a3 a4 _ a6 a7 a8 a9 b1 b2 b3 b4 b5 b6 b7 b8 b9 c1 c2 c3
    c4 c5 c6 c7 c8 c9 d1 := this in
  mkPitPID a1 a2 a3 a4 v a6 a7 a8 a9 b1 b2 b3 b4 b5 b6 b7 b8 b9 c1 c2 c3 c4
    c5 c6 c7 c8 c9 d1.
Definition set_lastWorkMillis (v : Z) (this : PitPID) : PitPID :=
  let 'mkPitPID a1 a2 a3 a4 a5 _ a7 a8 a9 b1 b2 b3 b4 b5 b6 b7 b8 b9 c1 c2 c3
    c4 c5 c6 c7 c8 c9 d1 := this in
  mkPitPID a1 a2 a3 a4 a5 v a7 a8 a9 b1 b2 b3 b4 b5 b6 b7 b8 b9 c1 c2 c3 c4
    c5 c6 c7 c8 c9 d1.
Definition set_periodCounter (v : Z) (this : PitPID) : PitPID :=
  let 'mkPitPID a1 a2 a3 a4 a5 a6 _ a8 a9 b1 b2 b3 b4 b5 b6 b7 b8 b9 c1 c2 c3
    c4 c5 c6 c7 c8 c9 d1 := this in
  mkPitPID a1 a2 a3 a4 a5 a6 v a8 a9 b1 b2 b3 b4 b5 b6 b7 b8 b9 c1 c2 c3 c4
    c5 c6 c7 c8 c9 d1.
Definition set_longPwmTmr (v : Z) (this : PitPID) : PitPID :=
  let 'mkPitPID a1 a2 a3 a4 a5 a6 a7 _ a9 b1 b2 b3 b4 b5 b6 b7 b8 b9 c1 c2 c3
    c4 c5 c6 c7 c8 c9 d1 := this in
  mkPitPID a1 a2 a3 a4 a5 a6 a7 v a9 b1 b2 b3 b4 b5 b6 b7 b8 b9 c1 c2 c3 c4
    c5 c6 c7 c8 c9 d1.
Definition set_longPwmRemaining (v : num) (this : PitPID) : PitPID :=
  let 'mkPitPID a1 a2 a3 a4 a5 a6 a7 a8 _ b1 b2 b3 b4 b5 b6 b7 b8 b9 c1 c2 c3
    c4 c5 c6 c7 c8 c9 d1 := this in
  mkPitPID a1 a2 a3 a4 a5 a6 a7 a8 v b1 b2 b3 b4 b5 b6 b7 b8 b9 c1 c2 c3 c4
    c5 c6 c7 c8 c9 d1.
Definition set_units (v : option Units) (this : PitPID) : PitPID :=
  let 'mkPitPID a1 a2 a3 a4 a5 a6 a7 a8 a9 _ b2 b3 b4 b5 b6 b7 b8 b9 c1 c2 c3
    c4 c5 c6 c7 c8 c9 d1 := this in
  mkPitPID a1 a2 a3 a4 a5 a6 a7 a8 a9 v b2 b3 b4 b5 b6 b7 b8 b9 c1 c2 c3 c4
    c5 c6 c7 c8 c9 d1.
Definition set_setPoint (v : option num) (this : PitPID) : PitPID :=
  let 'mkPitPID a1 a2 a3 a4 a5 a6 a7 a8 a9 b1 _ b3 b4 b5 b6 b7 b8 b9 c1 c2 c3
    c4 c5 c6 c7 c8 c9 d1 := this in
  mkPitPID a1 a2 a3 a4 a5 a6 a7 a8 a9 b1 v b3 b4 b5 b6 b7 b8 b9 c1 c2 c3 c4
    c5 c6 c7 c8 c9 d1.
Definition set_currentTemp (v : option num) (this : PitPID) : PitPID :=
  let 'mkPitPID a1 a2 a3 a4 a5 a6 a7 a8 a9 b1 b2 _ b4 b5 b6 b7 b8 b9 c1 c2 c3
    c4 c5 c6 c7 c8 c9 d1 := this in
  mkPitPID a1 a2 a3 a4 a5 a6 a7 a8 a9 b1 b2 v b4 b5 b6 b7 b8 b9 c1 c2 c3 c4
    c5 c6 c7 c8 c9 d1.
Definition set_temperatureAvg (v : option num) (this : PitPID) : PitPID :=
  let 'mkPitPID a1 a2 a3 a4 a5 a6 a7 a8 a9 b1 b2 b3 _ b5 b6 b7 b8 b9 c1 c2 c3
    c4 c5 c6 c7 c8 c9 d1 := this in
  mkPitPID a1 a2 a3 a4 a5 a6 a7 a8 a9 b1 b2 b3 v b5 b6 b7 b8 b9 c1 c2 c3 c4
    c5 c6 c7 c8 c9 d1.
Definition set_fanMaxSpeed (v : num) (this : PitPID) : PitPID :=
  let 'mkPitPID a1 a2 a3 a4 a5 a6 a7 a8 a9 b1 b2 b3 b4 _ b6 b7 b8 b9 c1 c2 c3
    c4 c5 c6 c7 c8 c9 d1 := this in
  mkPitPID a1 a2 a3 a4 a5 a6 a7 a8 a9 b1 b2 b3 b4 v b6 b7 b8 b9 c1 c2 c3 c4
    c5 c6 c7 c8 c9 d1.
Definition set_fanMaxStartupSpeed (v : num) (this : PitPID) : PitPID :=
  let 'mkPitPID a1 a2 a3 a4 a5 a6 a7 a8 a9 b1 b2 b3 b4 b5 _ b7 b8 b9 c1 c2 c3
    c4 c5 c6 c7 c8 c9 d1 := this in
  mkPitPID a1 a2 a3 a4 a5 a6 a7 a8 a9 b1 b2 b3 b4 b5 v b7 b8 b9 c1 c2 c3 c4
    c5 c6 c7 c8 c9 d1.
Definition set_fanActiveFloor (v : num) (this : PitPID) : PitPID :=
  let 'mkPitPID a1 a2 a3 a4 a5 a6 a7 a8 a9 b1 b2 b3 b4 b5 b6 _ b8 b9 c1 c2 c3
    c4 c5 c6 c7 c8 c9 d1 := this in
  mkPitPID a1 a2 a3 a4 a5 a6 a7 a8 a9 b1 b2 b3 b4 b5 b6 v b8 b9 c1 c2 c3 c4
    c5 c6 c7 c8 c9 d1.
Definition set_fanMinSpeed (v : num) (this : PitPID) : PitPID :=
  let 'mkPitPID a1 a2 a3 a4 a5 a6 a7 a8 a9 b1 b2 b3 b4 b5 b6 b7 _ b9 c1 c2 c3
    c4 c5 c6 c7 c8 c9 d1 := this in
  mkPitPID a1 a2 a3 a4 a5 a6 a7 a8 a9 b1 b2 b3 b4 b5 b6 b7 v b9 c1 c2 c3 c4
    c5 c6 c7 c8 c9 d1.
Definition set_servoMinPos (v : num) (this : PitPID) : PitPID :=
  let 'mkPitPID a1 a2 a3 a4 a5 a6 a7 a8 a9 b1 b2 b3 b4 b5 b6 b7 b8 _ c1 c2 c3
    c4 c5 c6 c7 c8 c9 d1 := this in
  mkPitPID a1 a2 a3 a4 a5 a6 a7 a8 a9 b1 b2 b3 b4 b5 b6 b7 b8 v c1 c2 c3 c4
    c5 c6 c7 c8 c9 d1.
Definition set_servoMaxPos (v : num) (this : PitPID) : PitPID :=
  let 'mkPitPID a1 a2 a3 a4 a5 a6 a7 a8 a9 b1 b2 b3 b4 b5 b6 b7 b8 b9 _ c2 c3
    c4 c5 c6 c7 c8 c9 d1 := this in
  mkPitPID a1 a2 a3 a4 a5 a6 a7 a8 a9 b1 b2 b3 b4 b5 b6 b7 b8 b9 v c2 c3 c4
    c5 c6 c7 c8 c9 d1.
Definition set_fanPct (v : num) (this : PitPID) : PitPID :=
  let 'mkPitPID a1 a2 a3 a4 a5 a6 a7 a8 a9 b1 b2 b3 b4 b5 b6 b7 b8 b9 c1 _ c3
    c4 c5 c6 c7 c8 c9 d1 := this in
  mkPitPID a1 a2 a3 a4 a5 a6 a7 a8 a9 b1 b2 b3 b4 b5 b6 b7 b8 b9 c1 v c3 c4
    c5 c6 c7 c8 c9 d1.
Definition set_lastBlowerOutput (v : num) (this : PitPID) : PitPID :=
  let 'mkPitPID a1 a2 a3 a4 a5 a6 a7 a8 a9 b1 b2 b3 b4 b5 b6 b7 b8 b9 c1 c2 _
    c4 c5 c6 c7 c8 c9 d1 := this in
  mkPitPID a1 a2 a3 a4 a5 a6 a7 a8 a9 b1 b2 b3 b4 b5 b6 b7 b8 b9 c1 c2 v c4
    c5 c6 c7 c8 c9 d1.
Definition set_servoPct (v : num) (this : PitPID) : PitPID :=
  let 'mkPitPID a1 a2 a3 a4 a5 a6 a7 a8 a9 b1 b2 b3 b4 b5 b6 b7 b8 b9 c1 c2 c3
    c4 _ c6 c7 c8 c9 d1 := this in
  mkPitPID a1 a2 a3 a4 a5 a6 a7 a8 a9 b1 b2 b3 b4 b5 b6 b7 b8 b9 c1 c2 c3 c4
    v c6 c7 c8 c9 d1.
Definition set_servoHoldoff (v : Z) (this : PitPID) : PitPID :=
  let 'mkPitPID a1 a2 a3 a4 a5 a6 a7 a8 a9 b1 b2 b3 b4 b5 b6 b7 b8 b9 c1 c2 c3
    c4 c5 _ c7 c8 c9 d1 := this in
  mkPitPID a1 a2 a3 a4 a5 a6 a7 a8 a9 b1 b2 b3 b4 b5 b6 b7 b8 b9 c1 c2 c3 c4
    c5 v c7 c8 c9 d1.
Definition set_lidOpenOffset (v : num) (this : PitPID) : PitPID :=
  let 'mkPitPID a1 a2 a3 a4 a5 a6 a7 a8 a9 b1 b2 b3 b4 b5 b6 b7 b8 b9 c1 c2 c3
    c4 c5 c6 _ c8 c9 d1 := this in
  mkPitPID a1 a2 a3 a4 a5 a6 a7 a8 a9 b1 b2 b3 b4 b5 b6 b7 b8 b9 c1 c2 c3 c4
    c5 c6 v c8 c9 d1.
Definition set_lidOpenDuration (v : num) (this : PitPID) : PitPID :=
  let 'mkPitPID a1 a2 a3 a4 a5 a6 a7 a8 a9 b1 b2 b3 b4 b5 b6 b7 b8 b9 c1 c2 c3
    c4 c5 c6 c7 _ c9 d1 := this in
  mkPitPID a1 a2 a3 a4 a5 a6 a7 a8 a9 b1 b2 b3 b4 b5 b6 b7 b8 b9 c1 c2 c3 c4
    c5 c6 c7 v c9 d1.
Definition set_lidOpenTimeout (v : num) (this : PitPID) : PitPID :=
  let 'mkPitPID a1 a2 a3 a4 a5 a6 a7 a8 a9 b1 b2 b3 b4 b5 b6 b7 b8 b9 c1 c2 c3
    c4 c5 c6 c7 c8 _ d1 := this in
  mkPitPID a1 a2 a3 a4 a5 a6 a7 a8 a9 b1 b2 b3 b4 b5 b6 b7 b8 b9 c1 c2 c3 c4
    c5 c6 c7 c8 v d1.
Definition set_connectedProbes (v : list (string * ConnectedProbe))
  (this : PitPID) : PitPID :=
  let 'mkPitPID a1 a2 a3 a4 a5 a6 a7 a8 a9 b1 b2 b3 b4 b5 b6 b7 b8 b9 c1 c2 c3
    c4 c5 c6 c7 c8 c9 _ := this in
  mkPitPID a1 a2 a3 a4 a5 a6 a7 a8 a9 b1 b2 b3 b4 b5 b6 b7 b8 b9 c1 c2 c3 c4
    c5 c6 c7 c8 c9 v.

(** *** Events, exceptions and the monad of the methods *)

(** The payload of a [status] event. *)
Record StatusReport : Type := mkStatusReport {
  mode : string;
  numProbes : nat;
  pitTemp : option num;
  setPoint : option num;
  units : option Units;
  pidOutput : num;
  fanPct : num;
  servoPct : num
}.

Inductive OutputType : Type := fan | servo.

(** What [emit] is called with: an [output] event with its [type] and
    [value], or a [status] event. *)
Inductive Event : Type :=
| output (type : OutputType) (value : num)
| status (report : StatusReport).

Inductive Error : Type :=
| TypeError (message : string)
| ReferenceError (message : string).

(** A method either returns a value or throws; in both cases it leaves an
    object and the events it emitted, oldest first. *)
Inductive Completion (A : Type) : Type :=
| Return (a : A) (this : PitPID) (emitted : list Event)
| Throw (e : Error) (this : PitPID) (emitted : list Event).
Arguments Return {A} a this emitted.
Arguments Throw {A} e this emitted.

Definition M (A : Type) : Type := PitPID -> Completion A.

Definition ret {A} (a : A) : M A := fun this => Return a this [].

Definition bind {A B} (m : M A) (f : A -> M B) : M B :=
  fun this =>
    match m this with
    | Return a this1 out1 =>
        match f a this1 with
        | Return b this2 out2 => Return b this2 (out1 ++ out2)
        | Throw e this2 out2 => Throw e this2 (out1 ++ out2)
        end
    | Throw e this1 out1 => Throw e this1 out1
    end.

Definition get : M PitPID := fun this => Return this this [].
Definition assign (f : PitPID -> PitPID) : M unit :=
  fun this => Return tt (f this) [].
Definition emit (e : Event) : M unit := fun this => Return tt this [e].
Definition throw {A} (e : Error) : M A := fun this => Throw e this [].

Notation "x <- m ;; k" := (bind m (fun x => k))
  (at level 61, m at next level, right associativity).
Notation "m ;; k" := (bind m (fun _ => k))
  (at level 61, right associativity).

(** Calling a value that is not a function. *)
Definition call_boolean {A} (name : string) (callee : bool) : M A :=
  throw (TypeError (name ++ " is not a function")).

(** Reading a variable that no scope declares. *)
Definition unresolvable {A} (name : string) : M A :=
  throw (ReferenceError (name ++ " is not defined")).

(** *** The accessors *)

(** [set pid]: an absent term ([undefined]) is [None]. *)
Definition pid_setter (P I D : option num) (this : PitPID) : PitPID :=
  let g := _Pid this in
  let g :=
    match P with Some v => Pid.mk v (Pid.I g) (Pid.D g) | None => g end in
  let g :=
    match I with Some v => Pid.mk (Pid.P g) v (Pid.D g) | None => g end in
  let g :=
    match D with Some v => Pid.mk (Pid.P g) (Pid.I g) v | None => g end in
  set_Pid g this.

Definition pidMode_setter (value : PIDMODE) (this : PitPID) : PitPID :=
  set_pidOutput (Fin 0) (set_lidOpenTimeout (Fin 0) (set_pidMode value this)).



Definition fanCurrentMaxSpeed (this : PitPID) : num :=
  if PIDMODE_eqb (_pidMode this) STARTUP
  then _fanMaxStartupSpeed this
  else _fanMaxSpeed this.



Definition servoMinPos_setter (value : num) : PitPID -> PitPID :=
  set_servoMinPos (constrain value (Fin 0) (Fin 100)).

Definition servoMaxPos_setter (value : num) : PitPID -> PitPID :=
  set_servoMaxPos (constrain value (Fin 0) (Fin 100)).



Definition get_numProbes (this : PitPID) : nat :=
  List.length (_connectedProbes this).

Definition allAmbientTemps (this : PitPID) : list num :=
  map (fun probe => ambient (snd probe)) (_connectedProbes this).

Definition setPoint_setter (value : option num) (this : PitPID) : PitPID :=
  set_setPoint value (pidMode_setter STARTUP this).

Definition pidOutPut_setter (value : num) (this : PitPID) : PitPID :=
  set_pidOutput (constrain value (Fin 0) (Fin 100))
    (pidMode_setter MANUAL this).

Definition isPitTempReached (this : PitPID) : bool :=
  PIDMODE_eqb (_pidMode this) NORMAL.

(** The clock: [millis ()] is the argument [now] of the methods, one reading
    for the whole of one call of [doWork]. *)
Definition isLidOpen (now : Z) (this : PitPID) : bool :=
  (of_Z now <? _lidOpenTimeout this)%num.

Definition lidOpenResumeCountdown (now : Z) (this : PitPID) : num :=
  ((of_Z now - _lidOpenTimeout this) / Fin 1000)%num.

Definition hasTemperature (this : PitPID) : bool :=
  (0 <? get_numProbes this)%nat
  && match _currentTemp this with
     | Some t => negb (isNaN t)
     | None => false
     end
  && match _temperatureAvg this with
     | Some t => negb (isNaN t)
     | None => false
     end.

(** The class has the getter [isLidOpen] and no property [_isLidOpen]: the
    read that [_calcPidOutput] makes gives [undefined], which is falsy. *)
Definition _isLidOpen (this : PitPID) : bool := false.

(** *** The methods *)

Definition _tempProbeProcessPeriod (this : PitPID) : PitPID :=
  match _currentTemp this with
  | Some currentTemp =>
      set_temperatureAvg
        (Some (calcExpMovingAverage TEMPPROBE_AVG_SMOOTH
                 (_temperatureAvg this) currentTemp)) this
  | None => this
  end.

Definition _resetLidOpenTimeout (now : Z) (this : PitPID) : PitPID :=
  let this := set_pidMode RECOVERY this in
  set_lidOpenTimeout (of_Z now + _lidOpenOffset this * Fin 1000)%num this.

(** [isPitTempReached] is a getter: [this.isPitTempReached()] calls the
    boolean that the getter returns. *)
Definition _lidModeShouldActivate (tempDiff : num) : M bool :=
  this <- get ;;
  if (_lidOpenOffset this >? Fin 0)%num then
    reached <- call_boolean "this.isPitTempReached" (isPitTempReached this) ;;
    ret (reached
         && ((tempDiff * Fin 100) / ToNumber (_setPoint this)
               >=? _lidOpenOffset this)%num
         && (_pidOutputAvg this <? Fin 90)%num)
  else ret false.

Definition _emitFanOutput (value : num) : M unit := emit (output fan value).

Definition _emitServoOutput (value : num) : M unit :=
  emit (output servo value).

Definition _emitStatusReport : M unit :=
  this <- get ;;
  emit (status {|
    mode := PIDMODE_STR (_pidMode this);
    numProbes := get_numProbes this;
    pitTemp := _currentTemp this;
    setPoint := _setPoint this;
    units := _units this;
    pidOutput := _pidOutput this;
    fanPct := _fanPct this;
    servoPct :=
      mapRange (_servoPct this) (_servoMinPos this) (_servoMaxPos this)
        (Fin 0) (Fin 100)
  |}).

Definition _commitServoOutput : M unit :=
  this <- get ;;
  let output :=
    if (_pidOutput this >=? _servoActiveCeil this)%num then Fin 100
    else ((_pidOutput this * Fin 100) / _servoActiveCeil this)%num in
  let output := mapPct output (_servoMinPos this) (_servoMaxPos this) in
  assign (fun this => set_servoHoldoff (_servoHoldoff this + 1) this) ;;
  this <- get ;;
  let isBigMove :=
    (Num.abs (output - _servoPct this) >? SERVO_MIN_THRESH)%num in
  if isBigMove || (_servoHoldoff this >? SERVO_MAX_HOLDOFF) then
    assign (set_servoPct output) ;;
    assign (set_servoHoldoff 0) ;;
    _emitServoOutput output
  else ret tt.

Definition _commitFanOutput : M unit :=
  this <- get ;;
  let newFanSpeed :=
    if (_pidOutput this <? _fanActiveFloor this)%num then Fin 0
    else
      let range := (Fin 100 - _fanActiveFloor this)%num in
      let max := fanCurrentMaxSpeed this in
      (((_pidOutput this - _fanActiveFloor this) * max) / range)%num in
  assign (set_longPwmRemaining (Fin 0)) ;;
  newFanSpeed <-
    (if (newFanSpeed >=? _fanMinSpeed this)%num then
       assign (set_longPwmTmr 0) ;;
       ret newFanSpeed
     else
       let runningDur := of_Z (_longPwmTmr this * TEMP_MEASURE_PERIOD) in
       let targetDur :=
         ((of_Z (TEMP_LONG_PWM_CNT * TEMP_MEASURE_PERIOD)
             / _fanMinSpeed this) * newFanSpeed)%num in
       newFanSpeed <-
         (if (targetDur >? runningDur)%num then
            assign (set_longPwmRemaining (targetDur - runningDur)%num) ;;
            ret (_fanMinSpeed this)
          else ret (Fin 0)) ;;
       assign (set_longPwmTmr (_longPwmTmr this + 1)) ;;
       (if _longPwmTmr this + 1 >? TEMP_LONG_PWM_CNT - 1
        then assign (set_longPwmTmr 0) else ret tt) ;;
       ret newFanSpeed) ;;
  assign (set_fanPct newFanSpeed) ;;
  if Num.eqb newFanSpeed (Fin 0) then
    assign (set_lastBlowerOutput (Fin 0)) ;;
    _emitFanOutput (Fin 0)
  else
    this <- get ;;
    let needBoost := Num.eqb (_lastBlowerOutput this) (Fin 0) in
    assign (set_lastBlowerOutput newFanSpeed) ;;
    if needBoost && (TEMP_OUTADJUST_CNT >? 0) then _emitFanOutput (Fin 100)
    else _emitFanOutput newFanSpeed.

Definition _commitPidOutput : M unit :=
  assign (fun this =>
    set_pidOutputAvg
      (calcExpMovingAverage PID_OUTPUT_AVG_SMOOTH
         (Some (_pidOutputAvg this)) (_pidOutput this)) this) ;;
  _commitFanOutput ;;
  _commitServoOutput ;;
  _emitStatusReport.

Definition _getPidIMax (this : PitPID) : num :=
  if isPitTempReached this then Fin 100 else _fanMaxStartupSpeed this.

Definition _calcPidOutput : M unit :=
  this <- get ;;
  let lastOutput := _pidOutput this in
  assign (set_pidOutput (Fin 0)) ;;
  if negb (hasTemperature this) then ret tt
  else if _isLidOpen this then ret tt
  else
    let Pid := _Pid this in
    let setPoint := ToNumber (_setPoint this) in
    let currentTemp := ToNumber (_currentTemp this) in
    let error := (setPoint - currentTemp)%num in
    assign (fun this =>
      let c := _pidCurrent this in
      set_pidCurrent
        (Pid.mk
           (if (Pid.P Pid <? Fin 0)%num
            then (Pid.P Pid
                  * (Num.neg PID_PONMEER_LAMBDA * setPoint + currentTemp))%num
            else (Pid.P Pid * error)%num)
           (Pid.I c) (Pid.D c)) this) ;;
    let high := _getPidIMax this in
    (if ((error <? Fin 0) && (lastOutput >? Fin 0)
         || (error >? Fin 0) && (lastOutput <? high))%num
     then
       assign (fun this =>
         let c := _pidCurrent this in
         set_pidCurrent
           (Pid.mk (Pid.P c) (Pid.I c + Pid.I Pid * error)%num (Pid.D c))
           this) ;;
       exHigh <-
         (if (Pid.P Pid <? Fin 0)%num then
            (* exHigh += (-1.0 + PID_PONMEER_LAMBDA) * Pid.P * ...: no
               variable Pid is in scope *)
            P <- unresolvable "Pid" ;;
            ret (high + ((Fin (-1) + PID_PONMEER_LAMBDA) * P) * setPoint)%num
          else ret high) ;;
       assign (fun this =>
         let c := _pidCurrent this in
         set_pidCurrent
           (Pid.mk (Pid.P c) (constrain (Pid.I c) (Fin 0) exHigh) (Pid.D c))
           this)
     else ret tt) ;;
    assign (fun this =>
      let c := _pidCurrent this in
      set_pidCurrent
        (Pid.mk (Pid.P c) (Pid.I c)
           (Pid.D Pid * (ToNumber (_temperatureAvg this) - currentTemp))%num)
        this) ;;
    this <- get ;;
    let c := _pidCurrent this in
    let control := (Pid.P c + Pid.I c + Pid.D c)%num in
    assign (set_pidOutput (constrain control (Fin 0) (Fin 100))).

Definition _setUnits (units : option Units) (this : PitPID) : PitPID :=
  set_temperatureAvg None (set_units units this).

(** The object that a probe passes with its [update] event, see
    [MeaterProbe.update] below. *)
Module Update.
Record t : Type := mk {
  probeIndex : option string;
  address : string;
  tip : num;
  ambient : num;
  units : Units;
  battery : num;
  timestamp : Z
}.
End Update.

(** [obj[key] = value] on an object used as a map: the value of a key that is
    present is replaced in place, a new key goes last.  The keys are the
    addresses of the probes, such as B8:1F:5E:00:00:01: none of them is an
    array index, which an object lists before its other keys, or a name that
    every object inherits, which [in] finds in an object that does not hold
    it. *)
Fixpoint put {V : Type} (key : string) (value : V) (obj : list (string * V))
  : list (string * V) :=
  match obj with
  | [] => [(key, value)]
  | (k, v) :: rest =>
      if String.eqb k key then (k, value) :: rest
      else (k, v) :: put key value rest
  end.

(** [delete obj[key]]. *)
Definition delete {V : Type} (key : string) (obj : list (string * V))
  : list (string * V) :=
  filter (fun entry => negb (String.eqb (fst entry) key)) obj.

Definition option_eqb {A} (eqb : A -> A -> bool) (a b : option A) : bool :=
  match a, b with
  | Some x, Some y => eqb x y
  | None, None => true
  | _, _ => false
  end.

Section UpdateProbe.

Variable sort : list num -> list num.

Definition updateProbe (data : Update.t) (this : PitPID) : PitPID :=
  let this :=
    set_connectedProbes
      (put (Update.address data)
         (mkConnectedProbe (Update.timestamp data) (Update.ambient data))
         (_connectedProbes this)) this in
  let this :=
    if negb (option_eqb Units_eqb (Some (Update.units data)) (_units this))
    then _setUnits (Some (Update.units data)) this
    else this in
  set_currentTemp
    (Some (calcLowerTrimmedMean sort (allAmbientTemps this)
             TEMP_DEV_THRESHOLD)) this.

End UpdateProbe.

Definition removeProbe (address : string) (this : PitPID) : PitPID :=
  set_connectedProbes (delete address (_connectedProbes this)) this.

(** [doWork] returns the delay of the timer that it sets for its next call;
    a call that throws sets none. *)
Definition doWork (now : Z) : M Z :=
  this <- get ;;
  let elapsed := now - _lastWorkMillis this in
  (if truthy (_longPwmRemaining this)
      && (of_Z elapsed >? _longPwmRemaining this)%num
   then
     _emitFanOutput (_fanMaxSpeed this) ;;
     assign (set_longPwmRemaining (Fin 0)) ;;
     assign (set_lastBlowerOutput (Fin 0))
   else ret tt) ;;
  (if TEMP_OUTADJUST_CNT >? 0 then
     if (of_Z elapsed
           >? of_Z (_periodCounter this)
              * (of_Z TEMP_MEASURE_PERIOD / of_Z TEMP_OUTADJUST_CNT))%num
     then assign (set_periodCounter (_periodCounter this + 1))
     else ret tt
   else ret tt) ;;
  if elapsed <? TEMP_MEASURE_PERIOD then ret DO_WORK_PERIOD
  else
    assign (set_periodCounter 1) ;;
    assign (set_lastWorkMillis now) ;;
    assign _tempProbeProcessPeriod ;;
    this <- get ;;
    (if PIDMODE_val (_pidMode this) <=? AUTO_LAST then _calcPidOutput
     else ret tt) ;;
    this <- get ;;
    let tempDiff :=
      (ToNumber (_setPoint this) - ToNumber (_currentTemp this))%num in
    (if (tempDiff <=? Fin 0)%num
        && (_lidOpenDuration this - lidOpenResumeCountdown now this
              >=? LIDOPEN_MIN_AUTORESUME)%num
     then
       (if PIDMODE_eqb (_pidMode this) STARTUP then
          assign (fun this =>
            let c := _pidCurrent this in
            set_pidCurrent
              (Pid.mk (Pid.P c) (Pid.I c * Fin (1 # 2))%num (Pid.D c)) this)
        else ret tt) ;;
       assign (set_pidMode NORMAL) ;;
       assign (set_lidOpenTimeout (Fin 0))
     else if Num.neqb (lidOpenResumeCountdown now this) (Fin 0) then
       assign (set_lidOpenTimeout
                 (lidOpenResumeCountdown now this * Fin 1000
                    - of_Z TEMP_MEASURE_PERIOD)%num)
     else
       activate <- _lidModeShouldActivate tempDiff ;;
       if activate then assign (_resetLidOpenTimeout now) else ret tt) ;;
    _commitPidOutput ;;
    ret DO_WORK_PERIOD.

(** [new PitPID()] at the time [now]: the fields as the constructor sets
    them, and the call of [doWork] that ends it. *)
Definition constructor_fields : PitPID := {|
  _Pid := Pid.mk (Fin (5 # 2)) (Fin (7 # 2000)) (Fin 6);
  _pidCurrent := Pid.mk (Fin 0) (Fin 0) (Fin 0);
  _pidMode := STARTUP;
  _pidOutput := Fin 0;
  _pidOutputAvg := Fin 0;
  _lastWorkMillis := 0;
  _periodCounter := 0;
  _longPwmTmr := 0;
  _longPwmRemaining := Fin 0;
  _units := None;
  _setPoint := None;
  _currentTemp := None;
  _temperatureAvg := None;
  _fanMaxSpeed := Fin 80;
  _fanMaxStartupSpeed := Fin 100;
  _fanActiveFloor := Fin 50;
  _fanMinSpeed := Fin 50;
  _servoMinPos := Fin 0;
  _servoMaxPos := Fin 100;
  _fanPct := Fin 0;
  _lastBlowerOutput := Fin 0;
  _servoActiveCeil := Fin 100;
  _servoPct := Fin 0;
  _servoHoldoff := 0;
  _lidOpenOffset := Fin 5;
  _lidOpenDuration := Fin 240;
  _lidOpenTimeout := Fin 0;
  _connectedProbes := []
|}.

Definition new_PitPID (now : Z) : Completion Z :=
  doWork now constructor_fields.

(** The object that a call has left, whether it returned or threw, and the
    events that it emitted. *)
Definition this_after {A} (c : Completion A) : PitPID :=
  match c with
  | Return _ this _ | Throw _ this _ => this
  end.

Definition emitted_by {A} (c : Completion A) : list Event :=
  match c with
  | Return _ _ out | Throw _ _ out => out
  end.

(** ** meater-daemon.js *)

(** The outcome of awaiting a call of the Bluetooth stack: the value it
    resolved to, or the [name] of the error it was rejected with. *)
Inductive Await (A : Type) : Type :=
| Resolved (a : A)
| Rejected (name : string).
Arguments Resolved {A} a.
Arguments Rejected {A} name.

Module MeaterProbe.

Definition byte_value (b : byte) : Z := Z.of_N (Byte.to_N b).

(** [(byte1 << 8) + byte0] on two elements of a buffer.  An index past the
    end of the buffer reads [undefined] ([None]): the shift converts it to 0
    and the addition to NaN. *)
Definition bytesToInt (byte0 byte1 : option byte) : num :=
  let shifted :=
    Z.shiftl (match byte1 with Some b => byte_value b | None => 0 end) 8 in
  (of_Z shifted
   + match byte0 with Some b => of_Z (byte_value b) | None => NaN end)%num.

Definition toCelsius (value : num) : num * Units :=
  (((value + Fin 8) / Fin 16)%num, CELSIUS).

Definition toFahrenheit (value : num) : num * Units :=
  (((fst (toCelsius value) * Fin 9) / Fin 5 + Fin 32)%num, FAHRENHEIT).

Record t : Type := mk {
  _deviceAddress : string;
  _isConnected : bool;
  _probeIndex : option string;
  _firmware : option string;
  _battery : option num;
  _tip : option num;
  _ambient : option num;
  _timestamp : option Z;
  _units : Units
}.

(** [_updateTemperatureConversion] keeps [_convertTemperature] in step with
    [_units]. *)
Definition _convertTemperature (this : t) : num -> num * Units :=
  match _units this with
  | CELSIUS => toCelsius
  | FAHRENHEIT => toFahrenheit
  end.

Inductive Event : Type :=
| ev_update (data : Update.t)
| ev_disconnect (address : string).

Definition disconnect (this : t) : t * list Event :=
  (mk (_deviceAddress this) false (_probeIndex this) (_firmware this)
     (_battery this) (_tip this) (_ambient this) (_timestamp this)
     (_units this),
   [ev_disconnect (_deviceAddress this)]).

Definition set_isConnected (v : bool) (this : t) : t :=
  mk (_deviceAddress this) v (_probeIndex this) (_firmware this)
    (_battery this) (_tip this) (_ambient this) (_timestamp this)
    (_units this).

(** One poll cycle, at the time [now]; [isConnected], [tempRead] and
    [battRead] are the outcomes of the three calls that it awaits.  The
    boolean of the result tells whether the cycle schedules the next one. *)
Definition update (now : Z) (isConnected : Await bool)
  (tempRead battRead : Await (list byte)) (this : t)
  : t * list Event * bool :=
  match isConnected with
  | Rejected _ => (disconnect this, false)
  | Resolved false => (set_isConnected false this, [], false)
  | Resolved true =>
      let this := set_isConnected true this in
      match tempRead, battRead with
      | Resolved tempBuffer, Resolved battBuffer =>
          let tip :=
            bytesToInt (nth_error tempBuffer 0) (nth_error tempBuffer 1) in
          let ra :=
            bytesToInt (nth_error tempBuffer 2) (nth_error tempBuffer 3) in
          let oa :=
            bytesToInt (nth_error tempBuffer 4) (nth_error tempBuffer 5) in
          let ambient :=
            (tip
             + Num.max (Fin 0)
                 (((ra - Num.min (Fin 48) oa) * Fin 16 * Fin 589)
                    / Fin 1487))%num in
          let '(tip', _) := _convertTemperature this tip in
          let '(ambient', units') := _convertTemperature this ambient in
          let battery :=
            (bytesToInt (nth_error battBuffer 0) (nth_error battBuffer 1)
             * Fin 10)%num in
          (mk (_deviceAddress this) true (_probeIndex this) (_firmware this)
             (Some battery) (Some tip') (Some ambient') (Some now) units',
           [ev_update
              (Update.mk (_probeIndex this) (_deviceAddress this) tip'
                 ambient' units' battery now)],
           true)
      | _, _ => (disconnect this, false)
      end
  end.

End MeaterProbe.

Module MeaterDaemon.

Record t : Type := mk {
  _restartCount : Z;
  _active : bool;
  _blacklist : list string;
  _errCount : Z;
  _units : Units
}.

Definition set_blacklist (v : list string) (this : t) : t :=
  mk (_restartCount this) (_active this) v (_errCount this) (_units this).

(** [this._blacklist.push(id)] *)
Definition blacklist (id : string) (this : t) : t :=
  set_blacklist (_blacklist this ++ [id]) this.

Definition whitelist (id : string) (this : t) : t :=
  set_blacklist (removeItem (_blacklist this) id) this.

(** [this._blacklist.includes(id)] *)
Definition isBlacklisted (id : string) (this : t) : bool :=
  existsb (String.eqb id) (_blacklist this).

Definition isWhitelisted (id : string) (this : t) : bool :=
  negb (isBlacklisted id this).

End MeaterDaemon.

(** ** The timer *)

(** [doWork] called [n] times, first at [now] and then each time after the
    delay that the call before has set its timer to, on a clock that the
    timer meets exactly; a call that throws is the last.  The result lists
    the events of each call. *)
Fixpoint schedule (n : nat) (now : Z) (this : PitPID)
  : list (list Event) * PitPID :=
  match n with
  | O => ([], this)
  | S n' =>
      match doWork now this with
      | Return delay this' out =>
          let (outs, final) := schedule n' (now + delay) this' in
          (out :: outs, final)
      | Throw _ this' out => ([out], this')
      end
  end.

(** The values of the [fan] events of a list of events. *)
Definition fanValues (evs : list Event) : list num :=
  flat_map (fun e => match e with output fan v => [v] | _ => [] end) evs.

(** ** The quantities that the specification names *)

(** The error [e = set_point - current_temp]. *)
Definition pidError (this : PitPID) : num :=
  (ToNumber (_setPoint this) - ToNumber (_currentTemp this))%num.

(** The P term on the error, [P * e]. *)
Definition pTermOnError (this : PitPID) : num :=
  (Pid.P (_Pid this) * pidError this)%num.

(** [i_max]: 100 once the set-point has been reached (mode Normal),
    [fan_max_startup_speed] otherwise. *)
Definition iMax (this : PitPID) : num :=
  match _pidMode this with
  | NORMAL => Fin 100
  | _ => _fanMaxStartupSpeed this
  end.

(** Not saturated: [(e < 0 /\ u > 0) \/ (e > 0 /\ u < i_max)] for the previous
    output [u]. *)
Definition integrates (this : PitPID) : bool :=
  ((pidError this <? Fin 0) && (_pidOutput this >? Fin 0)
   || (pidError this >? Fin 0) && (_pidOutput this <? iMax this))%num.

(** The I term: [i + I * e] clamped to [[0, i_max]] when not saturated, [i]
    otherwise. *)
Definition iTerm (this : PitPID) : num :=
  if integrates this
  then
    constrain (Pid.I (_pidCurrent this) + Pid.I (_Pid this) * pidError this)%num
      (Fin 0) (iMax this)
  else Pid.I (_pidCurrent this).

(** The D term, [D * (temp_ema - current_temp)]. *)
Definition dTerm (this : PitPID) : num :=
  (Pid.D (_Pid this)
   * (ToNumber (_temperatureAvg this) - ToNumber (_currentTemp this)))%num.

(** The output, [clamp (p + i + d) 0 100]. *)
Definition pidControl (this : PitPID) : num :=
  constrain (pTermOnError this + iTerm this + dTerm this)%num
    (Fin 0) (Fin 100).

(** The test of the heavy tick for halving the integrator: the set-point is
    reached, no lid countdown holds the mode back, and the mode is Startup. *)
Definition halvesIntegrator (now : Z) (this : PitPID) : bool :=
  (pidError this <=? Fin 0)%num
  && (_lidOpenDuration this - lidOpenResumeCountdown now this
        >=? LIDOPEN_MIN_AUTORESUME)%num
  && PIDMODE_eqb (_pidMode this) STARTUP.

(** The position of the servo for the PID output [u], the test for moving
    it, and the events of a commit of the servo. *)
Definition servoTarget (u : num) (this : PitPID) : num :=
  mapPct
    (if (u >=? _servoActiveCeil this)%num then Fin 100
     else ((u * Fin 100) / _servoActiveCeil this)%num)
    (_servoMinPos this) (_servoMaxPos this).

Definition servoMoves (u : num) (this : PitPID) : bool :=
  (Num.abs (servoTarget u this - _servoPct this) >? SERVO_MIN_THRESH)%num
  || (_servoHoldoff this + 1 >? SERVO_MAX_HOLDOFF).

Definition servoEvents (u : num) (this : PitPID) : list Event :=
  if servoMoves u this then [output servo (servoTarget u this)] else [].

(** The test of [doWork] on the long-PWM quota. *)
Definition quotaExhausted (now : Z) (this : PitPID) : bool :=
  truthy (_longPwmRemaining this)
  && (of_Z (now - _lastWorkMillis this) >? _longPwmRemaining this)%num.

(** What [_commitPidOutput] leaves of an object: everything but the output
    average and the fields of the fan and of the servo. *)
Definition committed (this this' : PitPID) : Prop :=
  exists avg rem tmr pct blower spct hold,
    this'
    = set_servoHoldoff hold
        (set_servoPct spct
           (set_lastBlowerOutput blower
              (set_fanPct pct
                 (set_longPwmTmr tmr
                    (set_longPwmRemaining rem (set_pidOutputAvg avg this)))))).

(** ** Sample objects *)

Definition t0 : Z := 1700000000000.

Definition a_probe : MeaterProbe.t :=
  MeaterProbe.mk "B8:1F:5E:00:00:01" true (Some "1"%string)
    (Some "v1.0.4"%string) None None None None FAHRENHEIT.

Definition a_daemon : MeaterDaemon.t :=
  MeaterDaemon.mk 0 true ["B8:1F:5E:00:00:01"%string] 0 FAHRENHEIT.

(** The reading of one probe with the ambient temperature [ambient]. *)
Definition reading (ambient : num) (at_ : Z) : Update.t :=
  Update.mk (Some "1"%string) "B8:1F:5E:00:00:01" ambient ambient FAHRENHEIT
    (Fin 100) at_.

(** An array of at most one element is sorted as it is. *)
Definition sort1 (arr : list num) : list num := arr.

(** A controller made at [t0], with the set-point 250 and one probe that
    reads 200. *)
Definition pit_at_200 : PitPID :=
  updateProbe sort1 (reading (Fin 200) (t0 + 500))
    (setPoint_setter (Some (Fin 250)) (this_after (new_PitPID t0))).

(** [pit_at_200] after its heavy tick at [t0 + 1000]. *)
Definition pit_after_tick : PitPID :=
  this_after (doWork (t0 + 1000) pit_at_200).

(** [pit_at_200] in manual mode at the output 63.75, which the defaults map
    to the fan speed 22, below [fan_min_speed]. *)
Definition pit_manual : PitPID := pidOutPut_setter (Fin (255 # 4)) pit_at_200.

(** A controller with the servo positions that [index.js] falls back to when
    the configuration names none, 0 and 0. *)
Definition pit_servo_0 : PitPID :=
  servoMaxPos_setter (Fin 0)
    (servoMinPos_setter (Fin 0) (this_after (new_PitPID t0))).

(** [pit_at_200] with the gain P = -2.5. *)
Definition pit_negative_P : PitPID :=
  pid_setter (Some (Fin (-5 # 2))) None None pit_at_200.

(** ** The fusion in the words of the specification *)

Definition Qsum (X : list Q) : Q := fold_right Qplus 0%Q X.

(** The arithmetic mean. *)
Definition Qmean (X : list Q) : Q :=
  (Qsum X / inject_Z (Z.of_nat (List.length X)))%Q.

(** The square of the population standard deviation. *)
Definition Qvariance (X : list Q) : Q :=
  Qmean (map (fun x => (x - Qmean X) * (x - Qmean X))%Q X).

(** The readings that the fusion retains with the threshold [k]. *)
Definition retains (k : Q) (X : list Q) (x : Q) : bool :=
  aboveTrimQ x (Qmean X) k (Qvariance X).

Definition retained (k : Q) (X : list Q) : list Q := filter (retains k X) X.

(** ** Numbers that are finite *)

(** [a] is the finite number [q], up to the representation of the
    rational. *)
Definition isFin (a : num) (q : Q) : Prop :=
  exists r, a = Fin r /\ (r == q)%Q.

(** ** The fan of a commit *)

(** The speed that [_commitFanOutput] maps the output to, the speed that it
    commits after the long-PWM rule, and the value of its event. *)
Definition fanTarget (this : PitPID) : num :=
  if (_pidOutput this <? _fanActiveFloor this)%num then Fin 0
  else
    (((_pidOutput this - _fanActiveFloor this) * fanCurrentMaxSpeed this)
       / (Fin 100 - _fanActiveFloor this))%num.

Definition pulseTarget (this : PitPID) : num :=
  ((of_Z (TEMP_LONG_PWM_CNT * TEMP_MEASURE_PERIOD) / _fanMinSpeed this)
     * fanTarget this)%num.

Definition fanCommitted (this : PitPID) : num :=
  if (fanTarget this >=? _fanMinSpeed this)%num then fanTarget this
  else if (pulseTarget this
             >? of_Z (_longPwmTmr this * TEMP_MEASURE_PERIOD))%num
       then _fanMinSpeed this
       else Fin 0.

Definition fanEmitted (this : PitPID) : num :=
  if Num.eqb (fanCommitted this) (Fin 0) then Fin 0
  else if Num.eqb (_lastBlowerOutput this) (Fin 0) then Fin 100
       else fanCommitted this.

(** ** A call of [doWork], part by part *)

(** The object after the part of [doWork] that every call runs: the pulse of
    the long PWM is ended when its quota is exhausted, and the period is
    counted. *)
Definition afterSubTick (now : Z) (this : PitPID) : PitPID :=
  let elapsed := now - _lastWorkMillis this in
  let this' :=
    if quotaExhausted now this
    then set_lastBlowerOutput (Fin 0) (set_longPwmRemaining (Fin 0) this)
    else this in
  if (of_Z elapsed
        >? of_Z (_periodCounter this)
           * (of_Z TEMP_MEASURE_PERIOD / of_Z TEMP_OUTADJUST_CNT))%num
  then set_periodCounter (_periodCounter this + 1) this'
  else this'.

(** The object at the start of the heavy tick, before the PID is computed. *)
Definition startHeavyTick (now : Z) (this : PitPID) : PitPID :=
  _tempProbeProcessPeriod
    (set_lastWorkMillis now (set_periodCounter 1 (afterSubTick now this))).

(** The test of the heavy tick for the set-point being reached. *)
Definition setPointReached (now : Z) (this : PitPID) : bool :=
  (pidError this <=? Fin 0)%num
  && (_lidOpenDuration this - lidOpenResumeCountdown now this
        >=? LIDOPEN_MIN_AUTORESUME)%num.

(** The transition of the mode and of the lid timeout in a heavy tick that
    goes on to commit its output. *)
Definition lidTransition (now : Z) (this : PitPID) : PitPID :=
  if setPointReached now this then
    let this :=
      if PIDMODE_eqb (_pidMode this) STARTUP then
        let c := _pidCurrent this in
        set_pidCurrent
          (Pid.mk (Pid.P c) (Pid.I c * Fin (1 # 2))%num (Pid.D c)) this
      else this in
    set_lidOpenTimeout (Fin 0) (set_pidMode NORMAL this)
  else if Num.neqb (lidOpenResumeCountdown now this) (Fin 0) then
    set_lidOpenTimeout
      (lidOpenResumeCountdown now this * Fin 1000
         - of_Z TEMP_MEASURE_PERIOD)%num this
  else this.

(** ** Properties that a method keeps *)

(** [m] relates the object before it to the object that it leaves by [R],
    whether it returns or throws, and returns only values that satisfy
    [Q]. *)
Definition keeps {A} (R : PitPID -> PitPID -> Prop) (Q : A -> Prop)
  (m : M A) : Prop :=
  forall this,
    R this (this_after (m this))
    /\ forall a this' out, m this = Return a this' out -> Q a.

(** The settings of a controller: what its user sets, and the probes. *)
Definition sameSettings (this this' : PitPID) : Prop :=
  _Pid this' = _Pid this
  /\ _units this' = _units this
  /\ _setPoint this' = _setPoint this
  /\ _currentTemp this' = _currentTemp this
  /\ _fanMaxSpeed this' = _fanMaxSpeed this
  /\ _fanMaxStartupSpeed this' = _fanMaxStartupSpeed this
  /\ _fanActiveFloor this' = _fanActiveFloor this
  /\ _fanMinSpeed this' = _fanMinSpeed this
  /\ _servoMinPos this' = _servoMinPos this
  /\ _servoMaxPos this' = _servoMaxPos this
  /\ _servoActiveCeil this' = _servoActiveCeil this
  /\ _lidOpenOffset this' = _lidOpenOffset this
  /\ _lidOpenDuration this' = _lidOpenDuration this
  /\ _connectedProbes this' = _connectedProbes this.

(** A percentage: a number from 0 to 100. *)
Definition isPercentage (a : num) : Prop :=
  exists q, a = Fin q /\ (0 <= q <= 100)%Q.

(** An output that [_commitPidOutput] can be given: a percentage or NaN. *)
Definition isOutput (a : num) : Prop := a = NaN \/ isPercentage a.

(** The settings are kept, and the mode is kept or becomes NORMAL. *)
Definition keepsSettings (this this' : PitPID) : Prop :=
  sameSettings this this'
  /\ (_pidMode this' = _pidMode this \/ _pidMode this' = NORMAL).

Definition keepsOutput (this this' : PitPID) : Prop :=
  isOutput (_pidOutput this) -> isOutput (_pidOutput this').

(** ** Objects used as maps *)

(** [obj[key]], [undefined] when the object has no such key. *)
Fixpoint lookup {V : Type} (key : string) (obj : list (string * V))
  : option V :=
  match obj with
  | [] => None
  | (k, v) :: rest => if String.eqb k key then Some v else lookup key rest
  end.

(** [Object.keys(obj)] *)
Definition keys {V : Type} (obj : list (string * V)) : list string :=
  map fst obj.

(** ** meater-daemon.js: connecting and discovery *)

Definition UPDATE_MS : Z := 1000.
Definition MAX_CONNECTION_FAILURES : Z := 10.
Definition APPTION_LABS : string := "B8:1F:5E".

(** [str.split(sep)] for a separator of one character. *)
Fixpoint split (sep : ascii) (str : string) : list string :=
  match str with
  | EmptyString => [EmptyString]
  | String c rest =>
      if Ascii.eqb c sep then EmptyString :: split sep rest
      else
        match split sep rest with
        | [] => [String c EmptyString]
        | word :: words => String c word :: words
        end
  end.

Module Connection.

Import MeaterProbe.

(** [new MeaterProbe(adapter, deviceAddress, units)] *)
Definition new_MeaterProbe (deviceAddress : string) (units : Units) : t :=
  mk deviceAddress false None None None None None None units.

(** [_initialize]: [gatt] is the outcome of the six calls that it awaits,
    the buffer of the firmware characteristic, as a string, when all of them
    resolve.  The result is [None] when the method throws. *)
Definition _initialize (gatt : Await string) (this : t) : option t :=
  match gatt with
  | Resolved buffer =>
      let parts := split "_" buffer in
      Some (mk (_deviceAddress this) (_isConnected this)
              (nth_error parts 1) (nth_error parts 0) (_battery this)
              (_tip this) (_ambient this) (_timestamp this) (_units this))
  | Rejected _ => None
  end.

(** What a probe emits: [connect] with the probe, [connectFailed] with its
    address, and the events of its poll cycles. *)
Inductive ConnectEvent : Type :=
| ev_connect (thisProbe : t)
| ev_connectFailed (address : string)
| ev_poll (e : Event).

(** [connect], called on a probe whose [_device] is [device]: [None] for
    [null], as the constructor leaves it.  [waitDevice], [deviceConnect] and
    [gattServer] are the outcomes of the first three calls that it awaits,
    [gatt] that of [_initialize], and [poll] is the poll cycle that
    [update] runs.  The result is the probe, its events, whether a poll
    cycle is scheduled, and the exception that the call ends with, if any. *)
Definition connect (device : option unit)
  (waitDevice deviceConnect gattServer : Await unit) (gatt : Await string)
  (poll : t -> t * list Event * bool) (this : t)
  : t * list ConnectEvent * bool * option Error :=
  match waitDevice with
  | Rejected _ =>
      (* catch: this._device.disconnect() *)
      match device with
      | None =>
          (this, [], false,
           Some (TypeError
                   "Cannot read properties of null (reading 'disconnect')"))
      | Some _ => (this, [ev_connectFailed (_deviceAddress this)], false, None)
      end
  | Resolved _ =>
      let failed :=
        (this, [ev_connectFailed (_deviceAddress this)], false, None) in
      match deviceConnect, gattServer with
      | Resolved _, Resolved _ =>
          match _initialize gatt this with
          | Some this =>
              let this := set_isConnected true this in
              let '(this, evs, again) := poll this in
              (this, map ev_poll evs ++ [ev_connect this], again, None)
          | None => failed
          end
      | _, _ => failed
      end
  end.

End Connection.

Module Discovery.

(** The daemon with its two maps: the probes by address, in the order of
    their insertion, and the index of every probe that has connected. *)
Record t : Type := mk {
  daemon : MeaterDaemon.t;
  _meaters : list (string * MeaterProbe.t);
  _knownDevices : list (string * option string)
}.

Definition set_daemon (v : MeaterDaemon.t) (this : t) : t :=
  mk v (_meaters this) (_knownDevices this).
Definition set_meaters (v : list (string * MeaterProbe.t)) (this : t) : t :=
  mk (daemon this) v (_knownDevices this).
Definition _active (this : t) : bool := MeaterDaemon._active (daemon this).
Definition _errCount (this : t) : Z := MeaterDaemon._errCount (daemon this).
Definition _restartCount (this : t) : Z :=
  MeaterDaemon._restartCount (daemon this).
Definition _units (this : t) : Units := MeaterDaemon._units (daemon this).

Definition set_active (v : bool) (this : t) : t :=
  let d := daemon this in
  set_daemon
    (MeaterDaemon.mk (MeaterDaemon._restartCount d) v
       (MeaterDaemon._blacklist d) (MeaterDaemon._errCount d)
       (MeaterDaemon._units d)) this.
Definition set_errCount (v : Z) (this : t) : t :=
  let d := daemon this in
  set_daemon
    (MeaterDaemon.mk (MeaterDaemon._restartCount d) (MeaterDaemon._active d)
       (MeaterDaemon._blacklist d) v (MeaterDaemon._units d)) this.
Definition set_restartCount (v : Z) (this : t) : t :=
  let d := daemon this in
  set_daemon
    (MeaterDaemon.mk v (MeaterDaemon._active d) (MeaterDaemon._blacklist d)
       (MeaterDaemon._errCount d) (MeaterDaemon._units d)) this.
Definition set_units (v : Units) (this : t) : t :=
  let d := daemon this in
  set_daemon
    (MeaterDaemon.mk (MeaterDaemon._restartCount d) (MeaterDaemon._active d)
       (MeaterDaemon._blacklist d) (MeaterDaemon._errCount d) v) this.

(** The callbacks that the daemon gives to [setTimeout], all with the delay
    UPDATE_MS. *)
Inductive Timer : Type := timer_update | timer_restart | timer_start.

(** What the daemon emits. *)
Inductive Event : Type :=
| probeConnect (thisProbe : MeaterProbe.t)
| probeDisconnect (id : string).

(** [start]: the outcomes of the two calls that it awaits; when one is
    rejected the method throws and leaves the daemon as it is. *)
Definition start (defaultAdapter startDiscovery : Await unit) (this : t)
  : t * list Timer :=
  match defaultAdapter, startDiscovery with
  | Resolved _, Resolved _ =>
      (set_restartCount (_restartCount this + 1)
         (set_errCount 0 (set_active true this)),
       [timer_update])
  | _, _ => (this, [])
  end.

Definition stop (stopDiscovery : Await unit) (this : t) : t * bool :=
  match stopDiscovery with
  | Resolved _ => (set_active false this, true)
  | Rejected _ => (this, false)
  end.

Definition restart (stopDiscovery : Await unit) (this : t) : t * list Timer :=
  let '(this, stopped) := stop stopDiscovery this in
  (this, if stopped then [timer_start] else []).

(** [_attemptConnection]: the second component tells whether a probe was
    made and its [connect] called. *)
Definition _attemptConnection (id : string) (this : t) : t * list string :=
  if MeaterDaemon.isBlacklisted id (daemon this) then (this, [])
  else
    let probe := Connection.new_MeaterProbe id (_units this) in
    (set_meaters (put id probe (_meaters this)) this, [id]).

(** The listeners that [_attemptConnection] gives to a probe for its events
    [connectFailed] and [disconnect], run on an event of the probe. *)
Definition on_connectFailed (id : string) (this : t) : t * list Event :=
  (set_errCount (_errCount this + 1)
     (set_meaters (delete id (_meaters this)) this),
   [probeDisconnect id]).

Definition on_disconnect (id : string) (this : t) : t * list Event :=
  (set_meaters (delete id (_meaters this)) this, [probeDisconnect id]).

(** The loop of [_update] over the devices. *)
Fixpoint attemptAll (currentDevices : list string) (this : t)
  : t * list string :=
  match currentDevices with
  | [] => (this, [])
  | id :: rest =>
      let '(this, attempted) :=
        if String.prefix APPTION_LABS id
           && match lookup id (_meaters this) with
              | Some _ => false
              | None => true
              end
        then _attemptConnection id this
        else (this, []) in
      let '(this, attempted') := attemptAll rest this in
      (this, attempted ++ attempted')
  end.

(** [_update]: [currentDevices] is the outcome of [adapter.devices()].  The
    result lists the addresses that a connection is attempted to, and the
    timers that the call sets. *)
Definition _update (currentDevices : Await (list string)) (this : t)
  : t * list string * list Timer :=
  if _active this then
    if _errCount this >? MAX_CONNECTION_FAILURES then
      (this, [], [timer_restart])
    else
      match currentDevices with
      | Resolved devices =>
          let '(this, attempted) := attemptAll devices this in
          (this, attempted, [timer_update])
      | Rejected _ => (this, [], [timer_update])
      end
  else (this, [], []).

End Discovery.

(** A daemon that has started, with one probe connected and one address on
    its blacklist, and the devices of a discovery. *)
Definition a_discovery : Discovery.t :=
  Discovery.mk
    (MeaterDaemon.mk 0 true ["B8:1F:5E:00:00:02"%string] 0 FAHRENHEIT)
    [("B8:1F:5E:00:00:01"%string, a_probe)]
    [("B8:1F:5E:00:00:01"%string, Some "1"%string)].

Definition some_devices : list string :=
  ["B8:1F:5E:00:00:01"; "B8:1F:5E:00:00:02"; "B8:1F:5E:00:00:03";
   "AA:BB:CC:00:00:04"; "B8:1F:5E:00:00:03"]%string.

(** ** pca9685-driver.js *)

(** The conversion of a number to a 32-bit integer that the bit operators
    make: NaN and the infinities to 0, the others truncated and wrapped. *)
Definition ToInt32 (a : num) : Z :=
  match a with
  | Fin q =>
      let int := Z.quot (Qnum q) (Z.pos (Qden q)) in
      (int + 2 ^ 31) mod 2 ^ 32 - 2 ^ 31
  | _ => 0
  end.

(** [Math.floor] *)
Definition floor (a : num) : num :=
  match a with
  | Fin q => of_Z (Qfloor q)
  | _ => a
  end.

(** The message of an [Error]: a text, or a template literal that starts
    with the string conversion of a number, [`${index}`], and goes on with a
    text. *)
Inductive Message : Type :=
| Text (text : string)
| Template (index : num) (text : string).

Coercion Text : string >-> Message.
Bind Scope string_scope with Message.

Module PCA9685.

Definition LED0_ON_L : Z := 6.
Definition LED0_ON_H : Z := 7.
Definition LED0_OFF_L : Z := 8.
Definition LED0_OFF_H : Z := 9.

Definition SERVO_MOTOR_PWM3 : Z := 6.
Definition SERVO_MOTOR_PWM4 : Z := 7.
Definition SERVO_MOTOR_PWM5 : Z := 8.
Definition SERVO_MOTOR_PWM6 : Z := 9.
Definition SERVO_MOTOR_PWM7 : Z := 10.
Definition SERVO_MOTOR_PWM8 : Z := 11.

Definition DC_MOTOR_PWM1 : Z := 0.
Definition DC_MOTOR_INA1 : Z := 2.
Definition DC_MOTOR_INA2 : Z := 1.
Definition DC_MOTOR_PWM2 : Z := 5.
Definition DC_MOTOR_INB1 : Z := 3.
Definition DC_MOTOR_INB2 : Z := 4.

Definition DUTY_CYCLE_MIN : num := Fin 0.
Definition DUTY_CYCLE_MAX : num := Fin 4095.

(** The driver: whether it is initialized, and the bytes that it has
    written to the registers of the device, oldest first. *)
Record t : Type := mk {
  initialized : bool;
  written : list (Z * Z)
}.

(** A call returns, or throws an [Error] with a message; in both cases it
    leaves a driver. *)
Inductive Result : Type :=
| Returned (this : t)
| Thrown (message : Message) (this : t).

Definition andThen (r : Result) (k : t -> Result) : Result :=
  match r with
  | Returned this => k this
  | Thrown message this => Thrown message this
  end.

Definition writeReg (reg value : Z) (this : t) : t :=
  mk (initialized this) (written this ++ [(reg, value)]).

Definition sendPWMCommand (channel : Z) (on off : num) (this : t) : Result :=
  if negb (initialized this) then
    Thrown "PCA9685 not initialized. Call sendPWMCommandFreq() first." this
  else
    let this := writeReg (LED0_ON_L + 4 * channel)
                  (Z.land (ToInt32 on) 255) this in
    let this := writeReg (LED0_ON_H + 4 * channel)
                  (Z.shiftr (ToInt32 on) 8) this in
    let this := writeReg (LED0_OFF_L + 4 * channel)
                  (Z.land (ToInt32 off) 255) this in
    let this := writeReg (LED0_OFF_H + 4 * channel)
                  (Z.shiftr (ToInt32 off) 8) this in
    Returned this.

Definition setDutyCycle (channel : Z) (dutyCycle : num) (this : t) : Result :=
  sendPWMCommand channel (Fin 0)
    (Num.min DUTY_CYCLE_MAX (Num.max DUTY_CYCLE_MIN dutyCycle)) this.

Definition setMotorSpeed (motorIndex speed : num) (reverse : bool) (this : t)
  : Result :=
  let in1 := if reverse then DUTY_CYCLE_MAX else DUTY_CYCLE_MIN in
  let in2 := if reverse then DUTY_CYCLE_MIN else DUTY_CYCLE_MAX in
  let speed := Num.min DUTY_CYCLE_MAX (Num.max DUTY_CYCLE_MIN speed) in
  if Num.eqb motorIndex (Fin 1) then
    andThen (setDutyCycle DC_MOTOR_PWM1 speed this) (fun this =>
    andThen (setDutyCycle DC_MOTOR_INA1 in1 this) (fun this =>
    setDutyCycle DC_MOTOR_INA2 in2 this))
  else if Num.eqb motorIndex (Fin 2) then
    andThen (setDutyCycle DC_MOTOR_PWM2 speed this) (fun this =>
    andThen (setDutyCycle DC_MOTOR_INB1 in1 this) (fun this =>
    setDutyCycle DC_MOTOR_INB2 in2 this))
  else
    Thrown (Template motorIndex ": invalid DC motor index. Must be 1 or 2.")
      this.

Definition setServoPosition (servoIndex pulseWidth : num) (this : t)
  : Result :=
  let dutyCycle := floor ((pulseWidth * Fin 4096) / Fin 20000)%num in
  if Num.eqb servoIndex (Fin 3) then
    setDutyCycle SERVO_MOTOR_PWM3 dutyCycle this
  else if Num.eqb servoIndex (Fin 4) then
    setDutyCycle SERVO_MOTOR_PWM4 dutyCycle this
  else if Num.eqb servoIndex (Fin 5) then
    setDutyCycle SERVO_MOTOR_PWM5 dutyCycle this
  else if Num.eqb servoIndex (Fin 6) then
    setDutyCycle SERVO_MOTOR_PWM6 dutyCycle this
  else if Num.eqb servoIndex (Fin 7) then
    setDutyCycle SERVO_MOTOR_PWM7 dutyCycle this
  else if Num.eqb servoIndex (Fin 8) then
    setDutyCycle SERVO_MOTOR_PWM8 dutyCycle this
  else
    Thrown
      (Template servoIndex ": invalid servo index. Must be 3 through 8.")
      this.

End PCA9685.

(** ** pit-airflow.js *)

Module PitAirflow.

Definition DUTY_CYCLE_MIN : num := Fin 0.
Definition DUTY_CYCLE_MAX : num := Fin 4095.
Definition SERVO_MIN : num := Fin 500.
Definition SERVO_MAX : num := Fin 2500.
Definition MOTOR_OFF : num := Fin 0.
Definition MOTOR_MIN : num := Fin 0.
Definition MOTOR_MAX : num := Fin 100.
Definition DRIVER_NUM_RETRIES : Z := 5.

Record t : Type := mk {
  _fanMotor : num;
  _fanMin : num;
  _fanMax : num;
  _fanReverse : bool;
  _fanRetries : Z;
  _fanSpeed : option num;
  _damperServo : num;
  _damperMin : num;
  _damperMax : num;
  _damperReverse : bool;
  _damperRetries : Z;
  _damperPosition : option num;
  _initialized : bool;
  _driver : PCA9685.t
}.

Definition set_fanRetries (v : Z) (this : t) : t :=
  mk (_fanMotor this) (_fanMin this) (_fanMax this) (_fanReverse this) v
    (_fanSpeed this) (_damperServo this) (_damperMin this) (_damperMax this)
    (_damperReverse this) (_damperRetries this) (_damperPosition this)
    (_initialized this) (_driver this).
Definition set_fanSpeed (v : option num) (this : t) : t :=
  mk (_fanMotor this) (_fanMin this) (_fanMax this) (_fanReverse this)
    (_fanRetries this) v (_damperServo this) (_damperMin this)
    (_damperMax this) (_damperReverse this) (_damperRetries this)
    (_damperPosition this) (_initialized this) (_driver this).
Definition set_damperRetries (v : Z) (this : t) : t :=
  mk (_fanMotor this) (_fanMin this) (_fanMax this) (_fanReverse this)
    (_fanRetries this) (_fanSpeed this) (_damperServo this) (_damperMin this)
    (_damperMax this) (_damperReverse this) v (_damperPosition this)
    (_initialized this) (_driver this).
Definition set_damperPosition (v : option num) (this : t) : t :=
  mk (_fanMotor this) (_fanMin this) (_fanMax this) (_fanReverse this)
    (_fanRetries this) (_fanSpeed this) (_damperServo this) (_damperMin this)
    (_damperMax this) (_damperReverse this) (_damperRetries this) v
    (_initialized this) (_driver this).
Definition set_driver (v : PCA9685.t) (this : t) : t :=
  mk (_fanMotor this) (_fanMin this) (_fanMax this) (_fanReverse this)
    (_fanRetries this) (_fanSpeed this) (_damperServo this) (_damperMin this)
    (_damperMax this) (_damperReverse this) (_damperRetries this)
    (_damperPosition this) (_initialized this) v.

(** A call returns, setting a timer for its retry or none, or throws. *)
Inductive Result : Type :=
| Returned (retry : bool) (this : t)
| Thrown (message : Message) (this : t).

(** The call of a method of the driver, whose exception goes through. *)
Definition driven (r : PCA9685.Result) (this : t) (k : t -> Result)
  : Result :=
  match r with
  | PCA9685.Returned driver => k (set_driver driver this)
  | PCA9685.Thrown message driver => Thrown message (set_driver driver this)
  end.

Definition setFanSpeed (value : num) (this : t) : Result :=
  if negb (_initialized this) then
    if _fanRetries this >? DRIVER_NUM_RETRIES then
      Thrown "PCA9685 driver initialization timeout." this
    else Returned true (set_fanRetries (_fanRetries this + 1) this)
  else
    let this := set_fanRetries 0 this in
    if Num.eqb value MOTOR_OFF then
      driven
        (PCA9685.setMotorSpeed (_fanMotor this) MOTOR_OFF (_fanReverse this)
           (_driver this)) this
        (fun this => Returned false (set_fanSpeed (Some MOTOR_OFF) this))
    else
      let scaledValue :=
        mapRange value MOTOR_MIN MOTOR_MAX (_fanMin this) (_fanMax this) in
      let scaledOutput :=
        mapRange scaledValue MOTOR_MIN MOTOR_MAX DUTY_CYCLE_MIN
          DUTY_CYCLE_MAX in
      driven
        (PCA9685.setMotorSpeed (_fanMotor this) scaledOutput
           (_fanReverse this) (_driver this)) this
        (fun this =>
           Returned false
             (set_fanSpeed (Some (constrain value MOTOR_MIN MOTOR_MAX))
                this)).

Definition setDamperPosition (value : num) (this : t) : Result :=
  if negb (_initialized this) then
    if _damperRetries this >? DRIVER_NUM_RETRIES then
      Thrown "PCA9685 driver initialization timeout." this
    else Returned true (set_damperRetries (_damperRetries this + 1) this)
  else
    let this := set_damperRetries 0 this in
    let correctedValue :=
      if _damperReverse this then (MOTOR_MAX - value)%num else value in
    let scaledValue :=
      mapRange correctedValue MOTOR_MIN MOTOR_MAX (_damperMin this)
        (_damperMax this) in
    let scaledOutput :=
      mapRange scaledValue MOTOR_MIN MOTOR_MAX SERVO_MIN SERVO_MAX in
    driven
      (PCA9685.setServoPosition (_damperServo this) scaledOutput
         (_driver this)) this
      (fun this =>
         Returned false
           (set_damperPosition (Some (constrain value MOTOR_MIN MOTOR_MAX))
              this)).

End PitAirflow.

(** A driver that is initialized and has written nothing, and the airflow
    control that [new PitAirflow()] makes, once its driver is
    initialized. *)
Definition a_driver : PCA9685.t := PCA9685.mk true [].

Definition an_airflow : PitAirflow.t :=
  PitAirflow.mk (Fin 1) (Fin 0) (Fin 100) false 0 None (Fin 3) (Fin 0)
    (Fin 100) false 0 None true a_driver.

(** The four bytes that the driver writes for a channel with the ON count 0
    and the OFF count [duty], and the twelve that it writes for a motor. *)
Definition pwmWrites (channel duty : Z) : list (Z * Z) :=
  [(6 + 4 * channel, 0); (7 + 4 * channel, 0);
   (8 + 4 * channel, duty mod 256); (9 + 4 * channel, duty / 256)].

Definition motorWrites (motor : Z) (duty : Z) (reverse : bool)
  : list (Z * Z) :=
  let in1 := if reverse then 4095 else 0 in
  let in2 := if reverse then 0 else 4095 in
  if motor =? 1
  then pwmWrites 0 duty ++ pwmWrites 2 in1 ++ pwmWrites 1 in2
  else pwmWrites 5 duty ++ pwmWrites 3 in1 ++ pwmWrites 4 in2.

(** The duty cycle of a speed: the whole part of the speed, kept between
    0 and 4095. *)
Definition dutyOf (speed : num) : Z :=
  match speed with
  | Fin q => Qfloor (Qmin 4095 (Qmax 0 q))
  | PInf => 4095
  | _ => 0
  end.

(** The call that the timer of a retry makes. *)
Definition retryFanSpeed (value : num) (r : PitAirflow.Result)
  : PitAirflow.Result :=
  match r with
  | PitAirflow.Returned true this => PitAirflow.setFanSpeed value this
  | _ => r
  end.

(** ** More sample objects *)

(** A controller with the set-point 250 and no probe. *)
Definition pit_without_probe : PitPID :=
  setPoint_setter (Some (Fin 250)) (this_after (new_PitPID t0)).

(** A controller in manual mode at the output 40, with one probe that reads
    260, above the set-point 250, after its heavy tick at [t0 + 1000]. *)
Definition pit_manual_hot : PitPID :=
  this_after
    (doWork (t0 + 1000)
       (pidOutPut_setter (Fin 40)
          (updateProbe sort1 (reading (Fin 260) (t0 + 600)) pit_at_200))).

(** The airflow control before its driver is initialized. *)
Definition an_airflow_waiting : PitAirflow.t :=
  PitAirflow.mk (Fin 1) (Fin 0) (Fin 100) false 0 None (Fin 3) (Fin 0)
    (Fin 100) false 0 None false (PCA9685.mk false []).

(** ** The objects of a program *)





(** ** Readings clear of the threshold of the fusion *)

(** The embedding computes the mean and the deviation of the fusion exactly;
    the code computes them in double precision, and its rounded threshold
    can put a reading that lies at the exact threshold, or within the
    rounding error of it, on the other side.  The margin of a list of [n]
    temperatures is [n / 2^20], far above that error for temperatures of
    magnitude at most [2^20]. *)
Definition fusionMargin (X : list Q) : Q :=
  inject_Z (Z.of_nat (List.length X)) / 1048576.

(** The readings of [X] are temperatures of magnitude at most [2^20], and
    none of them lies within the margin of the threshold: moved down or up
    by the margin, a reading stays on its side of the threshold. *)
Definition clearOfThreshold (k : Q) (X : list Q) : bool :=
  forallb
    (fun x =>
       Qle_bool (Qabs x) 1048576
       && Bool.eqb
            (aboveTrimQ (x - fusionMargin X) (Qmean X) k (Qvariance X))
            (aboveTrimQ (x + fusionMargin X) (Qmean X) k (Qvariance X)))
    X.

(** A speed that the fan can be given: a finite number that is not
    negative. *)
Definition isSpeed (a : num) : Prop :=
  exists q, a = Fin q /\ (0 <= q)%Q.

(** ** The fusion in double precision *)

(** [calcLowerTrimmedMean] on IEEE 754 binary64 numbers, which are the
    numbers of JavaScript, with the rounding of each operation;
    [Math.pow(x, 2)] is taken as [x * x].  [sort] is the order in which
    [Array.prototype.sort] leaves the array. *)
Module Binary64.

Import PrimFloat.

Definition of_nat (n : nat) : float := of_uint63 (Uint63.of_Z (Z.of_nat n)).

Definition calcLowerTrimmedMean (sort : list float -> list float)
  (arr : list float) (deviationThreshold : float) : float :=
  let sorted := sort arr in
  let length l := of_nat (List.length l) in
  let mean :=
    (fold_left (fun sum value => sum + value) sorted 0 / length sorted)%float
  in
  let deviation :=
    sqrt
      (fold_left
         (fun sum value => sum + (value - mean) * (value - mean)) sorted 0
       / length sorted)%float in
  let trimmedValues :=
    filter
      (fun value => mean - deviationThreshold * deviation <=? value)%float
      sorted in
  (fold_left (fun sum value => sum + value) trimmedValues 0
   / length trimmedValues)%float.

(** Arrays in the order of their string conversions: sorting leaves them as
    they are. *)
Definition sorted (arr : list float) : list float := arr.

End Binary64.

(** * Properties *)

(** ** Numbers *)

Lemma Qred_inject_Z z : Qred (inject_Z z) = inject_Z z.
Proof.
  unfold Qred, inject_Z.
  pose proof (Z.ggcd_gcd z 1) as Hg.
  pose proof (Z.ggcd_correct_divisors z 1) as Hd.
  destruct (Z.ggcd z 1) as [g [aa bb]]. simpl in *.
  rewrite Z.gcd_1_r in Hg. subst g. destruct Hd as [Ha Hb].
  replace aa with z by lia. replace bb with 1 by lia. reflexivity.
Qed.

Lemma add_of_Z a b : (of_Z a + of_Z b)%num = of_Z (a + b).
Proof.
  unfold of_Z, add. f_equal. rewrite <- (Qred_inject_Z (a + b)).
  apply Qred_complete. rewrite inject_Z_plus. reflexivity.
Qed.

Lemma mul_of_Z a b : (of_Z a * of_Z b)%num = of_Z (a * b).
Proof.
  unfold of_Z, mul. f_equal. rewrite <- (Qred_inject_Z (a * b)).
  apply Qred_complete. rewrite inject_Z_mult. reflexivity.
Qed.

(** ** The probe manager *)

Section Battery.

Import MeaterProbe.

Lemma byte_value_range b : 0 <= byte_value b < 256.
Proof.
  unfold byte_value. pose proof (Byte.to_N_bounded b). lia.
Qed.

(** [bytesToInt] on two bytes that are there is the little-endian u16. *)
Lemma bytesToInt_u16_le b0 b1 :
  bytesToInt (Some b0) (Some b1) = of_Z (byte_value b0 + 256 * byte_value b1).
Proof.
  unfold bytesToInt. rewrite add_of_Z. f_equal.
  rewrite Z.shiftl_mul_pow2 by lia. change (2 ^ 8) with 256. lia.
Qed.

(** C9, as stated, fails: a battery characteristic that reads 11 makes the
    poll cycle emit the battery value 110, which is neither at most 100 nor
    the clamped value. *)
Lemma battery_exceeds_100 :
  exists data this',
    update 1700000000000 (Resolved true)
      (Resolved [x40; x06; x20; x03; x28; x00]) (Resolved [x0b; x00]) a_probe
    = (this', [ev_update data], true)
    /\ Update.battery data = Fin 110
    /\ (Update.battery data <=? Fin 100)%num = false
    /\ Update.battery data
       <> constrain (bytesToInt (Some x0b) (Some x00) * Fin 10)%num
            (Fin 0) (Fin 100).
Proof.
  eexists; eexists. split; [vm_compute; reflexivity|].
  cbn [Update.battery]. repeat split. vm_compute. discriminate.
Qed.

(** C9, amended: in every poll cycle whose reads succeed, the battery value
    of the emitted reading is the little-endian u16 of the two bytes of the
    battery characteristic times 10, as it is, without a clamp: it lies
    between 0 and 655350. *)
Theorem update_battery_unclamped now this tempBuffer b0 b1 :
  exists data this',
    update now (Resolved true) (Resolved tempBuffer) (Resolved [b0; b1]) this
    = (this', [ev_update data], true)
    /\ Update.battery data
       = of_Z (10 * (byte_value b0 + 256 * byte_value b1))
    /\ _battery this' = Some (Update.battery data)
    /\ 0 <= 10 * (byte_value b0 + 256 * byte_value b1) <= 655350.
Proof.
  unfold update.
  destruct (_convertTemperature (set_isConnected true this) _) as [tip' u0].
  destruct (_convertTemperature (set_isConnected true this) _) as [amb' u1].
  eexists; eexists. split; [reflexivity|].
  cbn [Update.battery _battery nth_error].
  rewrite bytesToInt_u16_le. change (Fin 10) with (of_Z 10). rewrite mul_of_Z.
  pose proof (byte_value_range b0). pose proof (byte_value_range b1).
  repeat split; try lia. f_equal; lia.
Qed.

End Battery.

Section Blacklist.

Import MeaterDaemon.

Lemma existsb_removeItem y x l :
  existsb (String.eqb y) (removeItem l x)
  = negb (String.eqb y x) && existsb (String.eqb y) l.
Proof.
  induction l as [|a l IH]; simpl.
  - now rewrite andb_false_r.
  - destruct (String.eqb_spec a x) as [->|Hax]; simpl.
    + rewrite IH. destruct (String.eqb_spec y x); simpl; reflexivity.
    + rewrite IH. destruct (String.eqb_spec y a) as [->|Hya]; simpl.
      * destruct (String.eqb_spec a x); [contradiction|reflexivity].
      * reflexivity.
Qed.

Lemma removeItem_app l1 l2 x :
  removeItem (l1 ++ l2) x = removeItem l1 x ++ removeItem l2 x.
Proof. unfold removeItem. apply filter_app. Qed.

(** C10, as stated, fails: an address that was on the blacklist before the
    two calls is no longer on it after them. *)
Lemma blacklist_whitelist_changes_membership :
  isBlacklisted "B8:1F:5E:00:00:01" a_daemon = true
  /\ isBlacklisted "B8:1F:5E:00:00:01"
       (whitelist "B8:1F:5E:00:00:01"
          (blacklist "B8:1F:5E:00:00:01" a_daemon)) = false.
Proof. split; reflexivity. Qed.

(** C10, amended: [blacklist(x)] followed by [whitelist(x)] leaves [x] off
    the blacklist whatever the state before, and leaves the membership of
    every other address as it was; the list that remains is the one before
    the calls without its occurrences of [x]. *)
Theorem blacklist_then_whitelist x this :
  let this' := whitelist x (blacklist x this) in
  isBlacklisted x this' = false
  /\ (forall y,
        isBlacklisted y this'
        = negb (String.eqb y x) && isBlacklisted y this)
  /\ _blacklist this' = removeItem (_blacklist this) x.
Proof.
  assert (Hl : _blacklist (whitelist x (blacklist x this))
               = removeItem (_blacklist this) x).
  { destruct this as [rc act bl ec un].
    cbn [whitelist blacklist set_blacklist _blacklist].
    rewrite removeItem_app. cbn [removeItem filter].
    rewrite String.eqb_refl. apply app_nil_r. }
  cbv zeta. unfold isBlacklisted. rewrite Hl. repeat split.
  - rewrite existsb_removeItem, String.eqb_refl. reflexivity.
  - intro y. apply existsb_removeItem.
Qed.

End Blacklist.

(** ** The pit controller *)

(** Running a method on an object: the monad's operations, the field
    assignments and the projections are unfolded, the arithmetic is not. *)
Ltac run :=
  cbv beta iota zeta delta
    [bind get assign ret emit throw app
     _emitFanOutput _emitServoOutput
     set_Pid set_pidCurrent set_pidMode set_pidOutput set_pidOutputAvg
     set_lastWorkMillis set_periodCounter set_longPwmTmr set_longPwmRemaining
     set_units set_setPoint set_currentTemp set_temperatureAvg
     set_fanMaxSpeed set_fanMaxStartupSpeed set_fanActiveFloor
     set_fanMinSpeed set_servoMinPos set_servoMaxPos set_fanPct
     set_lastBlowerOutput set_servoPct set_servoHoldoff set_lidOpenOffset
     set_lidOpenDuration set_lidOpenTimeout set_connectedProbes
     _Pid _pidCurrent _pidMode _pidOutput _pidOutputAvg _lastWorkMillis
     _periodCounter _longPwmTmr _longPwmRemaining _units _setPoint
     _currentTemp _temperatureAvg _fanMaxSpeed _fanMaxStartupSpeed
     _fanActiveFloor _fanMinSpeed _servoMinPos _servoMaxPos _fanPct
     _lastBlowerOutput _servoActiveCeil _servoPct _servoHoldoff
     _lidOpenOffset _lidOpenDuration _lidOpenTimeout _connectedProbes
     mode numProbes pitTemp setPoint units pidOutput fanPct servoPct
     this_after emitted_by];
  cbn [Pid.P Pid.I Pid.D].

Ltac run_in H :=
  cbv beta iota zeta delta
    [bind get assign ret emit throw app
     _emitFanOutput _emitServoOutput
     set_Pid set_pidCurrent set_pidMode set_pidOutput set_pidOutputAvg
     set_lastWorkMillis set_periodCounter set_longPwmTmr set_longPwmRemaining
     set_units set_setPoint set_currentTemp set_temperatureAvg
     set_fanMaxSpeed set_fanMaxStartupSpeed set_fanActiveFloor
     set_fanMinSpeed set_servoMinPos set_servoMaxPos set_fanPct
     set_lastBlowerOutput set_servoPct set_servoHoldoff set_lidOpenOffset
     set_lidOpenDuration set_lidOpenTimeout set_connectedProbes
     _Pid _pidCurrent _pidMode _pidOutput _pidOutputAvg _lastWorkMillis
     _periodCounter _longPwmTmr _longPwmRemaining _units _setPoint
     _currentTemp _temperatureAvg _fanMaxSpeed _fanMaxStartupSpeed
     _fanActiveFloor _fanMinSpeed _servoMinPos _servoMaxPos _fanPct
     _lastBlowerOutput _servoActiveCeil _servoPct _servoHoldoff
     _lidOpenOffset _lidOpenDuration _lidOpenTimeout _connectedProbes
     mode numProbes pitTemp setPoint units pidOutput fanPct servoPct
     this_after emitted_by] in H;
  cbn [Pid.P Pid.I Pid.D] in H.

(** The fields of an object, by name. *)
Ltac fields this :=
  destruct this as
    [gains terms pmode pout poutAvg lastWork period pwmTmr pwmRem un sp temp
     tempAvg fmax fmaxStart ffloor fmin smin smax fpct blower sceil spct
     shold lidOff lidDur lidTo probes].

Lemma leb_0_not_ltb a : (Fin 0 <=? a)%num = true -> (a <? Fin 0)%num = false.
Proof.
  unfold leb, ltb. destruct a as [q| | |]; simpl; try discriminate; auto.
  rewrite <- (Qcompare_antisym 0 q).
  destruct (0 ?= q)%Q; simpl; auto; discriminate.
Qed.

Lemma getPidIMax_iMax this : _getPidIMax this = iMax this.
Proof.
  unfold _getPidIMax, iMax, isPitTempReached.
  destruct (_pidMode this); reflexivity.
Qed.

Lemma calcPidOutput_in_control this :
  hasTemperature this = true ->
  (Fin 0 <=? Pid.P (_Pid this))%num = true ->
  _calcPidOutput this
  = Return tt
      (set_pidOutput (pidControl this)
         (set_pidCurrent
            (Pid.mk (pTermOnError this) (iTerm this) (dTerm this)) this))
      [].
Proof.
  intros Ht HP. apply leb_0_not_ltb in HP.
  unfold _calcPidOutput, pidControl, pTermOnError, iTerm, dTerm, integrates.
  rewrite <- getPidIMax_iMax.
  unfold pidError, _isLidOpen. 
  fields this. run. run_in Ht. run_in HP.
  rewrite Ht, HP. cbn [negb]. run.
  match goal with |- context [if ?b then _ else _] => destruct b end;
    run; reflexivity.
Qed.

(** *** Inversion of the monad *)

Lemma bind_Return {A B} (m : M A) (f : A -> M B) this b this' out :
  bind m f this = Return b this' out ->
  exists a this1 out1 out2,
    m this = Return a this1 out1
    /\ f a this1 = Return b this' out2
    /\ out = out1 ++ out2.
Proof.
  unfold bind. destruct (m this) as [a this1 out1|e this1 out1];
    [|discriminate].
  destruct (f a this1) as [b' this2 out2|e this2 out2] eqn:Hf;
    [|discriminate].
  intro H; injection H as -> -> <-. now exists a, this1, out1, out2.
Qed.

Lemma get_Return this a this' out :
  get this = Return a this' out -> a = this /\ this' = this /\ out = [].
Proof. unfold get. intro H; injection H as <- <- <-. auto. Qed.

Lemma assign_Return f this a this' out :
  assign f this = Return a this' out -> this' = f this /\ out = [].
Proof. unfold assign. intro H; injection H as _ <- <-. auto. Qed.

Lemma ret_Return {A} (x : A) this a this' out :
  ret x this = Return a this' out -> a = x /\ this' = this /\ out = [].
Proof. unfold ret. intro H; injection H as <- <- <-. auto. Qed.

Lemma emit_Return e this a this' out :
  emit e this = Return a this' out -> this' = this /\ out = [e].
Proof. unfold emit. intro H; injection H as _ <- <-. auto. Qed.

(** One step of the inversion of [H : m this = Return _ _ _]. *)
Ltac step H :=
  lazymatch type of H with
  | bind _ _ _ = Return _ _ _ =>
      let a := fresh "a" in
      let this1 := fresh "this" in
      let out1 := fresh "out" in
      let out2 := fresh "out" in
      let H1 := fresh "Hm" in
      let H2 := fresh "Hk" in
      let Ho := fresh "Ho" in
      apply bind_Return in H;
      destruct H as (a & this1 & out1 & out2 & H1 & H2 & Ho);
      step H1; subst; cbv beta in H2; step H2
  | get _ = Return _ _ _ =>
      apply get_Return in H; destruct H as (? & ? & ?); subst
  | assign _ _ = Return _ _ _ =>
      apply assign_Return in H; destruct H as (? & ?); subst
  | ret _ _ = Return _ _ _ =>
      apply ret_Return in H; destruct H as (? & ? & ?); subst
  | emit _ _ = Return _ _ _ =>
      apply emit_Return in H; destruct H as (? & ?); subst
  | _emitFanOutput _ _ = Return _ _ _ =>
      apply emit_Return in H; destruct H as (? & ?); subst
  | _emitServoOutput _ _ = Return _ _ _ =>
      apply emit_Return in H; destruct H as (? & ?); subst
  | throw _ _ = Return _ _ _ => discriminate H
  | (if ?c then _ else _) _ = Return _ _ _ =>
      first
        [ match goal with Hx : c = _ |- _ => rewrite Hx in H end; step H
        | let Hc := fresh "Hc" in destruct c eqn:Hc; step H ]
  | _ => idtac
  end.

Lemma lidModeShouldActivate_Return tempDiff this b this' out :
  _lidModeShouldActivate tempDiff this = Return b this' out ->
  b = false /\ this' = this /\ out = [].
Proof.
  unfold _lidModeShouldActivate, call_boolean. intro H. step H. auto.
Qed.

Lemma calcPidOutput_Return this a this' out :
  _calcPidOutput this = Return a this' out ->
  out = []
  /\ exists u terms, this' = set_pidOutput u (set_pidCurrent terms this).
Proof.
  unfold _calcPidOutput, unresolvable. intro H. step H.
  all: split; [reflexivity|]; fields this; run; eauto.
Qed.

(** *** The commit of the outputs *)

Lemma commitServoOutput_returns this :
  exists pct hold,
    _commitServoOutput this
    = Return tt (set_servoHoldoff hold (set_servoPct pct this))
        (servoEvents (_pidOutput this) this).
Proof.
  unfold _commitServoOutput, servoEvents, servoMoves, servoTarget.
  fields this. run.
  match goal with |- context [if ?b then _ else _] => destruct b end;
    run; eauto.
Qed.

Lemma commitFanOutput_returns this :
  exists rem tmr pct blower v,
    _commitFanOutput this
    = Return tt
        (set_lastBlowerOutput blower
           (set_fanPct pct
              (set_longPwmTmr tmr (set_longPwmRemaining rem this))))
        [output fan v].
Proof.
  unfold _commitFanOutput. fields this. run.
  repeat
    (match goal with |- context [if ?b then _ else _] => destruct b end; run).
  all: do 5 eexists; reflexivity.
Qed.

Lemma commitPidOutput_returns this :
  exists this' v report,
    _commitPidOutput this
    = Return tt this'
        (output fan v :: servoEvents (_pidOutput this) this ++ [status report])
    /\ committed this this'
    /\ pidOutput report = _pidOutput this.
Proof.
  unfold _commitPidOutput, _emitStatusReport, committed.
  unfold bind at 1. unfold assign at 1. unfold bind at 1.
  match goal with |- context [_commitFanOutput (set_pidOutputAvg ?a _)] =>
    set (avg' := a)
  end.
  destruct (commitFanOutput_returns (set_pidOutputAvg avg' this))
    as (rem' & tmr' & pct' & blower' & v & ->).
  unfold bind at 1.
  match goal with |- context [_commitServoOutput ?s] =>
    destruct (commitServoOutput_returns s) as (spct' & hold' & ->)
  end.
  fields this. run. unfold servoEvents, servoMoves, servoTarget. run.
  do 3 eexists. split; [reflexivity|]. split; [|reflexivity].
  do 7 eexists. reflexivity.
Qed.


(** C1: a heavy tick in an automatic mode, with the fused temperature
    available and a gain P that is not negative, leaves the P term
    [P * (set_point - current_temp)], the D term
    [D * (temp_ema - current_temp)], with the average as the tick has just
    updated it, and the output [clamp (p + i + d) 0 100], which is also the
    output that its [status] event carries.  Its I term [i] is the one before
    the tick, plus [I * e] and then clamped to [[0, i_max]] when
    [e < 0] and the previous output is positive or [e > 0] and the previous
    output is below [i_max], and untouched otherwise; [i_max] is 100 in mode
    Normal and [fan_max_startup_speed] otherwise.  (The tick that first
    reaches the set-point in Startup halves the I term after the output is
    computed.) *)
Theorem heavy_tick_pid now this delay this' evs :
  TEMP_MEASURE_PERIOD <= now - _lastWorkMillis this ->
  PIDMODE_val (_pidMode this) <= AUTO_LAST ->
  hasTemperature (_tempProbeProcessPeriod this) = true ->
  (Fin 0 <=? Pid.P (_Pid this))%num = true ->
  doWork now this = Return delay this' evs ->
  let s := _tempProbeProcessPeriod this in
  let p := (Pid.P (_Pid this) * pidError this)%num in
  let i := iTerm this in
  let d := dTerm s in
  Pid.P (_pidCurrent this') = p
  /\ Pid.I (_pidCurrent this')
     = (if halvesIntegrator now this then i * Fin (1 # 2) else i)%num
  /\ Pid.D (_pidCurrent this') = d
  /\ _pidOutput this' = constrain (p + i + d)%num (Fin 0) (Fin 100)
  /\ exists before report,
       evs = before ++ [status report]
       /\ pidOutput report = _pidOutput this'.
Proof.
  intros Hheavy Hauto Htemp HP H.
  assert (Hlt : (now - _lastWorkMillis this <? TEMP_MEASURE_PERIOD) = false)
    by (apply Z.ltb_ge; exact Hheavy).
  assert (Hcnt : (TEMP_OUTADJUST_CNT >? 0) = true) by reflexivity.
  apply Z.leb_le in Hauto.
  unfold doWork in H. step H.
  all: repeat match goal with
       | Hx : _calcPidOutput ?s = Return _ _ _ |- _ =>
           rewrite (calcPidOutput_in_control s) in Hx;
           [ injection Hx as _ <- <-
           | clear Hx; unfold hasTemperature, get_numProbes,
               _tempProbeProcessPeriod in *;
             fields this; destruct temp; run; run_in Htemp; run_in HP;
             assumption .. ]
       | Hx : _lidModeShouldActivate _ _ = Return _ _ _ |- _ =>
           apply lidModeShouldActivate_Return in Hx;
           destruct Hx as (Hb & -> & ->); try discriminate Hb; subst
       | Hx : _commitPidOutput ?s = Return _ _ _ |- _ =>
           let E := fresh "E" in
           destruct (commitPidOutput_returns s)
             as (this'' & v & report & E & Hcom & Hrep);
           rewrite E in Hx; injection Hx as _ <- <-; clear E;
           destruct Hcom as (? & ? & ? & ? & ? & ? & ? & ->)
       end.
  all: try match goal with
       | Hx : (PIDMODE_val _ <=? AUTO_LAST) = false |- _ =>
           exfalso; clear - Hx Hauto; unfold _tempProbeProcessPeriod in Hx;
           fields this; destruct temp; run_in Hx; run_in Hauto; congruence
       end.
  all: cbv zeta; split; [|split; [|split; [|split]]].
  all: try match goal with
       | Hx : pidOutput _ = _ |- exists _ _, _ =>
           cbn [app]; rewrite ?app_nil_r; cbn [app];
           match goal with
           | |- exists _ _, ?a :: ?b :: ?l ++ [status ?r] = _ /\ _ =>
               exists (a :: b :: l), r
           | |- exists _ _, ?a :: ?l ++ [status ?r] = _ /\ _ =>
               exists (a :: l), r
           end;
           split; [reflexivity|];
           rewrite Hx; clear; unfold _tempProbeProcessPeriod;
           fields this; destruct temp; run; reflexivity
       end.
  all: repeat match goal with
       | Hx : (_ && _) = _ |- _ => revert Hx
       | Hx : PIDMODE_eqb _ _ = _ |- _ => revert Hx
       end;
       clear;
       unfold halvesIntegrator, pidControl, pTermOnError, iTerm, dTerm,
         integrates, iMax, pidError, lidOpenResumeCountdown,
         _tempProbeProcessPeriod;
       fields this; destruct temp; run; intros;
       repeat match goal with
         | Hx : ?c = _ |- context [if ?c then _ else _] => rewrite Hx
         | Hx : ?c = _ |- context [if ?c && _ then _ else _] =>
             rewrite Hx; cbn [andb]
         end;
       reflexivity.
Qed.

(** Without a temperature [_calcPidOutput] sets the output to zero and
    leaves the three terms as they are. *)
Lemma calcPidOutput_without_temperature this :
  hasTemperature this = false ->
  _calcPidOutput this = Return tt (set_pidOutput (Fin 0) this) [].
Proof.
  intro Ht. unfold _calcPidOutput. fields this. run. run_in Ht.
  rewrite Ht. reflexivity.
Qed.

(** A call of [doWork] returns when the gain P is not negative and the clock
    is not at the lid timeout: the two exceptions of the class are then out
    of reach. *)
Lemma heavy_tick_returns now this :
  (Fin 0 <=? Pid.P (_Pid this))%num = true ->
  Num.neqb (lidOpenResumeCountdown now this) (Fin 0) = true ->
  exists delay this' evs, doWork now this = Return delay this' evs.
Proof.
  intros HP Hclock.
  assert (Hcalc : forall s, Pid.P (_Pid s) = Pid.P (_Pid this) ->
            exists u terms,
              _calcPidOutput s
              = Return tt (set_pidOutput u (set_pidCurrent terms s)) []).
  { intros s Hs. destruct (hasTemperature s) eqn:Ht.
    - rewrite calcPidOutput_in_control by (rewrite ?Hs; assumption). eauto.
    - rewrite calcPidOutput_without_temperature by assumption.
      exists (Fin 0), (_pidCurrent s). f_equal. fields s. reflexivity. }
  unfold doWork, _tempProbeProcessPeriod, lidOpenResumeCountdown in *.
  fields this. destruct temp; run; run_in Hclock.
  all: repeat
         (match goal with
          | |- context [if ?b then _ else _] => destruct b eqn:?
          end; run).
  all: repeat match goal with
       | |- context [_calcPidOutput ?s] =>
           let E := fresh "E" in
           destruct (Hcalc s eq_refl) as (? & ? & E); rewrite E; run
       | |- context [_commitPidOutput ?s] =>
           let E := fresh "E" in
           destruct (commitPidOutput_returns s) as (? & ? & ? & E & _ & _);
           rewrite E; run
       | |- context [if ?b then _ else _] => destruct b eqn:?; run
       end.
  all: try (do 3 eexists; reflexivity).
  all: congruence.
Qed.

(** *** The slips of the class, on every object *)

(** [this._isLidOpen] is never set: with a temperature and a gain P that is
    not negative, [_calcPidOutput] computes the same whatever the lid timeout
    and the clock. *)
Lemma calcPidOutput_blind_to_lid this lidOpenTimeout :
  hasTemperature this = true ->
  (Fin 0 <=? Pid.P (_Pid this))%num = true ->
  _pidOutput
    (this_after (_calcPidOutput (set_lidOpenTimeout lidOpenTimeout this)))
  = pidControl this.
Proof.
  intros Ht HP. rewrite calcPidOutput_in_control.
  - unfold pidControl, pTermOnError, iTerm, dTerm, integrates, iMax, pidError.
    fields this. run. reflexivity.
  - revert Ht. unfold hasTemperature, get_numProbes. fields this. run. auto.
  - revert HP. fields this. run. auto.
Qed.

(** With a positive [lid_open_offset], [_lidModeShouldActivate] throws. *)
Lemma lidModeShouldActivate_throws tempDiff this :
  (_lidOpenOffset this >? Fin 0)%num = true ->
  _lidModeShouldActivate tempDiff this
  = Throw (TypeError "this.isPitTempReached is not a function") this [].
Proof.
  intro H. unfold _lidModeShouldActivate, call_boolean, bind, get, throw.
  cbv beta iota. rewrite H. reflexivity.
Qed.

(** A sub-tick that finds the long-PWM quota exhausted emits
    [fan_max_speed]. *)
Lemma sub_tick_ends_pulse now this :
  quotaExhausted now this = true ->
  now - _lastWorkMillis this < TEMP_MEASURE_PERIOD ->
  exists this',
    doWork now this
    = Return DO_WORK_PERIOD this' [output fan (_fanMaxSpeed this)]
    /\ _lastBlowerOutput this' = Fin 0
    /\ _longPwmRemaining this' = Fin 0.
Proof.
  unfold quotaExhausted. intros Hq Hlt. apply Z.ltb_lt in Hlt.
  unfold doWork. fields this. run. run_in Hq. run_in Hlt.
  rewrite Hq. change (TEMP_OUTADJUST_CNT >? 0) with true. run.
  match goal with |- context [if ?b then _ else _] => destruct b end;
    run; rewrite Hlt; run;
    (eexists; split; [reflexivity|]; split; reflexivity).
Qed.

(** [mapRange] on a range of one point is NaN. *)
Lemma sub_Qeq a b : (a == b)%Q -> (Fin a - Fin b)%num = Fin 0.
Proof.
  intro H. unfold sub. f_equal. change 0%Q with (Qred 0).
  apply Qred_complete. rewrite H. ring.
Qed.

Lemma mapRange_one_point value bound newMin newMax :
  mapRange (Fin value) (Fin bound) (Fin bound) newMin newMax = NaN.
Proof.
  assert (Hc : exists c, constrain (Fin value) (Fin bound) (Fin bound) = Fin c
                         /\ (c == bound)%Q).
  { assert (Hrefl : (bound ?= bound)%Q = Eq) by (apply Qeq_alt; reflexivity).
    unfold constrain, Num.max, Num.min. cbn [cmp].
    destruct (value ?= bound)%Q eqn:E; cbn [cmp].
    - rewrite E. exists value. split; [reflexivity|]. now apply Qeq_alt.
    - rewrite Hrefl. exists bound. split; reflexivity.
    - rewrite E. exists bound. split; reflexivity. }
  destruct Hc as (c & Hc & Hcb).
  unfold mapRange. rewrite Hc, (sub_Qeq c bound Hcb), (sub_Qeq bound bound)
    by reflexivity.
  cbn [div Qeq_bool]. change (Qeq_bool 0 0) with true. cbv iota.
  destruct (newMax - newMin)%num, newMin; reflexivity.
Qed.

(** With a negative gain P, [_calcPidOutput] sets the P term of the mixed
    form and throws when it integrates. *)
Lemma calcPidOutput_negative_P this :
  hasTemperature this = true ->
  (Pid.P (_Pid this) <? Fin 0)%num = true ->
  let p :=
    (Pid.P (_Pid this)
     * (Num.neg PID_PONMEER_LAMBDA * ToNumber (_setPoint this)
        + ToNumber (_currentTemp this)))%num in
  Pid.P (_pidCurrent (this_after (_calcPidOutput this))) = p
  /\ (integrates this = true ->
      exists this',
        _calcPidOutput this
        = Throw (ReferenceError "Pid is not defined") this' []).
Proof.
  intros Ht HP. cbv zeta.
  unfold _calcPidOutput, unresolvable, integrates, pidError, _isLidOpen.
  rewrite <- getPidIMax_iMax.
  fields this. run. run_in Ht. run_in HP. rewrite Ht, HP. cbn [negb]. run.
  split.
  - match goal with |- context [if ?b then _ else _] => destruct b end;
      run; reflexivity.
  - intro Hi. run_in Hi. rewrite Hi. run. eexists. reflexivity.
Qed.

(** *** The controller on the sample objects *)


(** The first heavy tick of [pit_at_200], 50 degrees below the set-point:
    P term 2.5 * 50, I term 0.0035 * 50, D term 0, output 100. *)
Lemma heavy_tick_pid_witness :
  Pid.P (_pidCurrent pit_after_tick) = Fin 125
  /\ Pid.I (_pidCurrent pit_after_tick) = Fin (7 # 40)
  /\ Pid.D (_pidCurrent pit_after_tick) = Fin 0
  /\ _pidOutput pit_after_tick = Fin 100.
Proof.
  assert (H : TEMP_MEASURE_PERIOD <= t0 + 1000 - _lastWorkMillis pit_at_200)
    by (vm_compute; discriminate).
  assert (Ha : PIDMODE_val (_pidMode pit_at_200) <= AUTO_LAST)
    by (vm_compute; discriminate).
  assert (Ht : hasTemperature (_tempProbeProcessPeriod pit_at_200) = true)
    by (vm_compute; reflexivity).
  assert (HP : (Fin 0 <=? Pid.P (_Pid pit_at_200))%num = true)
    by (vm_compute; reflexivity).
  assert (Hr : doWork (t0 + 1000) pit_at_200
               = Return 250 pit_after_tick
                   (emitted_by (doWork (t0 + 1000) pit_at_200)))
    by (vm_compute; reflexivity).
  destruct (heavy_tick_pid _ _ _ _ _ H Ha Ht HP Hr) as (Hp & Hi & Hd & Ho & _).
  rewrite Hp, Hi, Hd, Ho. vm_compute. repeat split.
Defined.


(** C6: the code differs.  The fan values that 44 calls of [doWork], 250 ms
    apart, emit for the mapped speed 22 and [fan_min_speed] 50: in each window
    the fan is committed at 50 (at 100 for the boost) while the running time
    is below the 4400 ms of the quota, and at 0 after; the sub-tick that finds
    the quota exhausted, 500 ms after the last of these commits, emits
    [fan_max_speed], 80, and not 0. *)
Lemma long_pwm_sub_tick_emits_max_speed :
  map fanValues (fst (schedule 44 (t0 + 250) pit_manual))
  = [[]; []; []; [Fin 100]; []; []; []; [Fin 50]; []; []; []; [Fin 50];
     []; []; []; [Fin 50]; []; [Fin 80]; []; [Fin 0]; []; []; []; [Fin 0];
     []; []; []; [Fin 0]; []; []; []; [Fin 0]; []; []; []; [Fin 0];
     []; []; []; [Fin 100]; []; []; []; [Fin 50]]
  /\ let this := snd (schedule 17 (t0 + 250) pit_manual) in
     _longPwmRemaining this = Fin 400
     /\ _fanMaxSpeed this = Fin 80
     /\ emitted_by (doWork (t0 + 4500) this) = [output fan (Fin 80)].
Proof. vm_compute. repeat split. Qed.

(** C7: the code differs.  With [servo_min_pos] and [servo_max_pos] both set
    to 0, which the setters accept and [index.js] does when the configuration
    names no position, the [servo_pct] of the status snapshot is NaN, outside
    [[0, 100]]. *)
Lemma status_servoPct_NaN :
  _servoMinPos pit_servo_0 = Fin 0
  /\ _servoMaxPos pit_servo_0 = Fin 0
  /\ exists this' report,
       doWork (t0 + 1000) pit_servo_0
       = Return 250 this' [output fan (Fin 0); status report]
       /\ servoPct report = NaN
       /\ (Fin 0 <=? servoPct report)%num = false
       /\ (servoPct report <=? Fin 100)%num = false.
Proof.
  split; [reflexivity|]. split; [reflexivity|].
  do 2 eexists. split; [vm_compute; reflexivity|]. repeat split.
Qed.

(** C8: the code differs.  With P = -2.5 the heavy tick sets the P term to
    [P * (-0.4 * 250 + 200) = -250], adds [I * e] to the I term, and then
    throws a ReferenceError where it extends the bound of the clamp: the I
    term is not clamped, no output is committed and nothing is emitted. *)
Lemma negative_P_throws :
  Pid.P (_Pid pit_negative_P) = Fin (-5 # 2)
  /\ exists this',
       doWork (t0 + 1000) pit_negative_P
       = Throw (ReferenceError "Pid is not defined") this' []
       /\ Pid.P (_pidCurrent this') = Fin (-250)
       /\ Pid.I (_pidCurrent this') = Fin (7 # 40)
       /\ _pidOutput this' = Fin 0.
Proof.
  split; [reflexivity|].
  eexists. split; [vm_compute; reflexivity|]. repeat split.
Qed.

(** ** The temperature fusion *)

Section FusionQ.

Local Open Scope Q_scope.

Lemma Qle_bool_true x y : Qle_bool x y = true <-> x <= y.
Proof. apply Qle_bool_iff. Qed.

Lemma Qle_bool_false x y : Qle_bool x y = false <-> y < x.
Proof.
  split; intro H.
  - apply Qnot_le_lt. intro Hle. apply Qle_bool_iff in Hle. congruence.
  - destruct (Qle_bool x y) eqn:E; [|reflexivity].
    apply Qle_bool_iff in E. exfalso. apply (Qlt_not_le _ _ H E).
Qed.

(** [aboveTrimQ] decides the comparison with the square root, for a radicand
    that is not negative. *)
Lemma aboveTrimQ_sqrt value mean threshold radicand :
  0 <= radicand ->
  aboveTrimQ value mean threshold radicand = true
  <-> (Q2R mean - Q2R threshold * sqrt (Q2R radicand) <= Q2R value)%R.
Proof.
  intro Hv. apply Qle_Rle in Hv. rewrite RMicromega.Q2R_0 in Hv.
  pose proof (sqrt_pos (Q2R radicand)) as Hs.
  pose proof (sqrt_sqrt _ Hv) as Hss.
  set (s := sqrt (Q2R radicand)) in *.
  unfold aboveTrimQ.
  assert (Hd : forall a b, Qle_bool a b = true <-> (Q2R a <= Q2R b)%R).
  { intros a b. rewrite Qle_bool_iff. split; [apply Qle_Rle|apply Rle_Qle]. }
  assert (Hd' : forall a b, Qle_bool a b = false <-> (Q2R b < Q2R a)%R).
  { intros a b. rewrite Qle_bool_false. split; [apply Qlt_Rlt|apply Rlt_Qlt]. }
  remember (Q2R mean - Q2R value)%R as d eqn:Hdd.
  remember (Q2R threshold) as t eqn:Htt.
  assert (Hsq : forall a b : R,
             (0 <= a -> 0 <= b -> a * a <= b * b -> a <= b)%R).
  { intros a b Ha Hb Hab. destruct (Rle_dec a b) as [|Hn]; [assumption|].
    exfalso. apply Rnot_le_lt in Hn.
    assert (b * b < a * a)%R by nra. lra. }
  assert (Hm : forall a b : R, (0 <= a -> a <= b -> a * a <= b * b)%R)
    by (intros; nra).
  destruct (Qle_bool 0 threshold) eqn:Ht.
  - apply Hd in Ht. rewrite RMicromega.Q2R_0, <- Htt in Ht.
    rewrite orb_true_iff, !Hd.
    rewrite !Q2R_mult, Q2R_minus, RMicromega.Q2R_0, <- Hss, <- Hdd, <- Htt.
    replace (t * t * (s * s))%R with ((t * s) * (t * s))%R by ring.
    assert (0 <= t * s)%R by nra.
    split.
    + intros [H1|H1]; [lra|].
      destruct (Rle_dec d 0); [lra|].
      assert (d <= t * s)%R by (apply Hsq; lra). lra.
    + intro H1. destruct (Rle_dec d 0); [now left|right].
      apply Hm; lra.
  - apply Hd' in Ht. rewrite RMicromega.Q2R_0, <- Htt in Ht.
    rewrite andb_true_iff, !Hd.
    rewrite !Q2R_mult, Q2R_minus, RMicromega.Q2R_0, <- Hss, <- Hdd, <- Htt.
    replace (t * t * (s * s))%R with ((- t * s) * (- t * s))%R by ring.
    replace (d * d)%R with ((- d) * (- d))%R by ring.
    assert (0 <= - t * s)%R by nra.
    split.
    + intros [H1 H2]. assert (- t * s <= - d)%R by (apply Hsq; lra). lra.
    + intro H1. split; [lra|]. apply Hm; lra.
Qed.

Global Instance aboveTrimQ_Proper :
  Proper (Qeq ==> Qeq ==> Qeq ==> Qeq ==> eq) aboveTrimQ.
Proof.
  intros x x' Hx m m' Hm t t' Ht v v' Hv. unfold aboveTrimQ.
  assert (Hb : forall a a' b b', a == a' -> b == b' ->
                                 Qle_bool a b = Qle_bool a' b').
  { intros a a' b b' Ha Hb.
    destruct (Qle_bool a b) eqn:E; symmetry.
    - apply Qle_bool_iff. rewrite <- Ha, <- Hb. now apply Qle_bool_iff.
    - apply Qle_bool_false. rewrite <- Ha, <- Hb. now apply Qle_bool_false. }
  rewrite (Hb 0 0 t t'), (Hb (m - x) (m' - x') 0 0),
    (Hb ((m - x) * (m - x)) ((m' - x') * (m' - x')) (t * t * v) (t' * t' * v')),
    (Hb (t * t * v) (t' * t' * v') ((m - x) * (m - x)) ((m' - x') * (m' - x')));
    try reflexivity; try (rewrite ?Hx, ?Hm, ?Ht, ?Hv; reflexivity).
Qed.

(** Sums. *)

Lemma Qsum_app X Y : Qsum (X ++ Y) == Qsum X + Qsum Y.
Proof.
  induction X as [|x X IH]; simpl; [ring|]. rewrite IH. ring.
Qed.

Lemma Qsum_Permutation X Y : Permutation X Y -> Qsum X == Qsum Y.
Proof.
  induction 1; simpl; try reflexivity.
  - now rewrite IHPermutation.
  - ring.
  - now rewrite IHPermutation1.
Qed.

Lemma filter_Permutation {A} (f : A -> bool) X Y :
  Permutation X Y -> Permutation (filter f X) (filter f Y).
Proof.
  induction 1; simpl.
  - constructor.
  - destruct (f x); auto.
  - destruct (f x), (f y); auto. constructor.
  - eapply Permutation_trans; eauto.
Qed.

Lemma Qmean_Permutation X Y : Permutation X Y -> Qmean X == Qmean Y.
Proof.
  intro H. unfold Qmean.
  rewrite (Qsum_Permutation _ _ H), (Permutation_length H). reflexivity.
Qed.

Lemma Qsum_map_ext (f g : Q -> Q) X :
  (forall x, f x == g x) -> Qsum (map f X) == Qsum (map g X).
Proof.
  intro H. induction X as [|x X IH]; simpl; [reflexivity|].
  now rewrite H, IH.
Qed.

Lemma Qmean_map_ext (f g : Q -> Q) X :
  (forall x, f x == g x) -> Qmean (map f X) == Qmean (map g X).
Proof.
  intro H. unfold Qmean. rewrite !length_map, (Qsum_map_ext f g X H).
  reflexivity.
Qed.

Lemma Qvariance_Permutation X Y :
  Permutation X Y -> Qvariance X == Qvariance Y.
Proof.
  intro H. unfold Qvariance.
  rewrite (Qmean_Permutation _ _
             (Permutation_map (fun x => (x - Qmean X) * (x - Qmean X)) H)).
  apply Qmean_map_ext. intro x. now rewrite (Qmean_Permutation _ _ H).
Qed.

Lemma Qsum_squares_nonneg (f : Q -> Q) X :
  0 <= Qsum (map (fun x => f x * f x) X).
Proof.
  induction X as [|x X IH]; simpl; [apply Qle_refl|].
  assert (Hsq : 0 <= f x * f x).
  { generalize (f x). intro y. unfold Qle, Qmult. simpl.
    rewrite Z.mul_1_r. apply Z.square_nonneg. }
  apply (Qle_trans _ (0 + 0)); [apply Qle_refl|].
  apply Qplus_le_compat; assumption.
Qed.

Lemma inject_length_pos {A} (x : A) X :
  0 < inject_Z (Z.of_nat (List.length (x :: X))).
Proof.
  change 0 with (inject_Z 0). rewrite <- Zlt_Qlt. simpl List.length. lia.
Qed.

Lemma Qvariance_nonneg X : 0 <= Qvariance X.
Proof.
  unfold Qvariance, Qmean at 1. rewrite length_map.
  pose proof (Qsum_squares_nonneg (fun x => x - Qmean X) X) as Hs.
  destruct X as [|x X].
  - simpl. apply Qle_refl.
  - apply Qle_shift_div_l; [apply inject_length_pos|]. now rewrite Qmult_0_l.
Qed.

(** The retained readings are those at least [mu - k * sigma], with [sigma]
    the square root, in the reals, of the variance. *)
Lemma retains_sqrt k X x :
  retains k X x = true
  <-> (Q2R (Qmean X) - Q2R k * sqrt (Q2R (Qvariance X)) <= Q2R x)%R.
Proof. apply aboveTrimQ_sqrt, Qvariance_nonneg. Qed.

Lemma Qsum_lt_bound c X :
  X <> [] -> (forall y, In y X -> y < c) ->
  Qsum X < inject_Z (Z.of_nat (List.length X)) * c.
Proof.
  induction X as [|x X IH]; [congruence|]. intros _ Hall.
  assert (Hx : x < c) by (apply Hall; now left).
  change (Qsum (x :: X)) with (x + Qsum X).
  replace (Z.of_nat (List.length (x :: X)))
    with (1 + Z.of_nat (List.length X))%Z by (simpl List.length; lia).
  rewrite inject_Z_plus. change (inject_Z 1) with 1.
  rewrite Qmult_plus_distr_l, Qmult_1_l.
  destruct X as [|x' X].
  - change (Qsum []) with 0.
    change (inject_Z (Z.of_nat (List.length (@nil Q)))) with 0.
    rewrite Qmult_0_l, !Qplus_0_r. exact Hx.
  - apply Qplus_lt_le_compat; [exact Hx|]. apply Qlt_le_weak.
    apply IH; [discriminate|]. intros y Hy. apply Hall. now right.
Qed.

(** A reading that is at least the mean exists, and is retained. *)
Lemma exists_above_mean x X : exists y, In y (x :: X) /\ Qmean (x :: X) <= y.
Proof.
  set (L := x :: X).
  destruct (existsb (fun y => Qle_bool (Qmean L) y) L) eqn:E.
  - apply existsb_exists in E. destruct E as (y & Hy & Hle).
    exists y. split; [assumption|]. now apply Qle_bool_iff.
  - exfalso.
    assert (Hall : forall y, In y L -> y < Qmean L).
    { intros y Hy. apply Qle_bool_false.
      destruct (Qle_bool (Qmean L) y) eqn:E'; [|reflexivity].
      rewrite <- E. symmetry. apply existsb_exists. eauto. }
    pose proof (Qsum_lt_bound (Qmean L) L ltac:(discriminate) Hall) as Hlt.
    pose proof (inject_length_pos x X) as Hn. fold L in Hn.
    assert (Heq : inject_Z (Z.of_nat (List.length L)) * Qmean L == Qsum L).
    { unfold Qmean. apply Qmult_div_r. intro H0. rewrite H0 in Hn.
      exact (Qlt_irrefl _ Hn). }
    rewrite Heq in Hlt. exact (Qlt_irrefl _ Hlt).
Qed.

Lemma retains_above_mean k X y :
  0 <= k -> Qmean X <= y -> retains k X y = true.
Proof.
  intros Hk Hy. unfold retains, aboveTrimQ.
  apply Qle_bool_iff in Hk. rewrite Hk.
  apply orb_true_iff. left. apply Qle_bool_iff. lra.
Qed.

(** The folds of [calcLowerTrimmedMean] on finite numbers. *)

Lemma fold_sum X a :
  exists q,
    fold_left (fun sum value => sum + value)%num (map Fin X) (Fin a) = Fin q
    /\ q == a + Qsum X.
Proof.
  revert a. induction X as [|x X IH]; intro a.
  - exists a. split; [reflexivity|]. simpl. ring.
  - destruct (IH (Qred (a + x))) as (q & Hq & Hs).
    exists q. split; [exact Hq|]. rewrite Hs, Qred_correct. simpl. ring.
Qed.

Lemma fold_squares m X a :
  exists q,
    fold_left
      (fun sum value => sum + (value - Fin m) * (value - Fin m))%num
      (map Fin X) (Fin a) = Fin q
    /\ q == a + Qsum (map (fun x => (x - m) * (x - m)) X).
Proof.
  revert a. induction X as [|x X IH]; intro a.
  - exists a. split; [reflexivity|]. simpl. ring.
  - destruct (IH (Qred (a + Qred (Qred (x - m) * Qred (x - m)))))
      as (q & Hq & Hs).
    exists q. split; [exact Hq|]. rewrite Hs, !Qred_correct. simpl. ring.
Qed.

Lemma div_length {A} q (x : A) X :
  (Fin q / of_Z (Z.of_nat (List.length (x :: X))))%num
  = Fin (Qred (q / inject_Z (Z.of_nat (List.length (x :: X))))).
Proof.
  unfold div, of_Z.
  destruct (Qeq_bool (inject_Z (Z.of_nat (List.length (x :: X)))) 0) eqn:E;
    [|reflexivity].
  apply Qeq_bool_eq in E. pose proof (inject_length_pos x X) as Hn.
  rewrite E in Hn. exfalso. exact (Qlt_irrefl _ Hn).
Qed.

Lemma filter_map_Fin (f : num -> bool) (g : Q -> bool) X :
  (forall x, In x X -> f (Fin x) = g x) ->
  filter f (map Fin X) = map Fin (filter g X).
Proof.
  induction X as [|x X IH]; intro H; [reflexivity|]. simpl.
  rewrite (H x) by now left. rewrite IH by (intros; apply H; now right).
  destruct (g x); reflexivity.
Qed.

Section FusionOrder.

Variable sort : list num -> list num.
Hypothesis sort_permutation : forall arr, Permutation (sort arr) arr.

(** On finite numbers, not none, the function returns the mean of the
    retained readings, whatever the order that [sort] leaves them in. *)
Lemma calcLowerTrimmedMean_retained k x X' :
  0 <= k ->
  calcLowerTrimmedMean sort (map Fin (x :: X')) (Fin k)
  = Fin (Qred (Qmean (retained k (x :: X')))).
Proof.
  intro Hk. set (X := x :: X').
  unfold calcLowerTrimmedMean.
  destruct (Permutation_map_inv Fin X (sort_permutation (map Fin X)))
    as (Y & HY & HP).
  rewrite HY.
  assert (HYne : exists y Y', Y = y :: Y').
  { destruct Y as [|y Y']; [|eauto].
    apply Permutation_length in HP. discriminate. }
  destruct HYne as (y & Y' & ->).
  rewrite !length_map.
  destruct (fold_sum (y :: Y') 0) as (s & -> & Hs).
  rewrite div_length.
  set (mq := Qred (s / _)).
  assert (Hm : mq == Qmean X).
  { unfold mq. rewrite Qred_correct, Hs, Qplus_0_l.
    symmetry. apply (Qmean_Permutation _ _ HP). }
  destruct (fold_squares mq (y :: Y') 0) as (v & -> & Hv).
  rewrite div_length.
  set (vq := Qred (v / _)).
  assert (Hvar : vq == Qvariance X).
  { unfold vq. rewrite Qred_correct, Hv, Qplus_0_l.
    rewrite (Qvariance_Permutation _ _ HP). unfold Qvariance.
    unfold Qmean at 1. rewrite length_map.
    apply Qdiv_comp; [|reflexivity].
    apply Qsum_map_ext. intro z.
    now rewrite Hm, (Qmean_Permutation _ _ HP). }
  rewrite (filter_map_Fin _ (retains k X)).
  2:{ intros z _. unfold aboveTrim, retains.
      assert (Hneg : Qltb vq 0 = false).
      { unfold Qltb. pose proof (Qvariance_nonneg X) as H0.
        rewrite <- Hvar in H0. destruct (vq ?= 0) eqn:E; try reflexivity.
        apply Qlt_alt in E. exfalso. exact (Qlt_not_le _ _ E H0). }
      rewrite Hneg. now rewrite Hm, Hvar. }
  assert (Hne : exists r R, filter (retains k X) (y :: Y') = r :: R).
  { destruct (exists_above_mean x X') as (z & Hz & Hle). fold X in Hz, Hle.
    assert (Hin : In z (filter (retains k X) (y :: Y'))).
    { apply filter_In. split.
      - eapply Permutation_in; eassumption.
      - now apply retains_above_mean. }
    destruct (filter (retains k X) (y :: Y')) as [|r R];
      [contradiction|eauto]. }
  destruct Hne as (r & R & Hr).
  rewrite length_map, Hr.
  destruct (fold_sum (r :: R) 0) as (t & -> & Ht).
  rewrite div_length. f_equal. apply Qred_complete.
  rewrite Ht, Qplus_0_l, <- Hr.
  change (Qsum (filter (retains k X) (y :: Y'))
          / inject_Z (Z.of_nat (List.length (filter (retains k X) (y :: Y')))))
    with (Qmean (filter (retains k X) (y :: Y'))).
  apply Qmean_Permutation, filter_Permutation. now symmetry.
Qed.

Lemma calcLowerTrimmedMean_empty k :
  calcLowerTrimmedMean sort [] k = NaN.
Proof.
  unfold calcLowerTrimmedMean.
  rewrite (Permutation_nil (Permutation_sym (sort_permutation []))).
  reflexivity.
Qed.

End FusionOrder.

(** C2, as stated, fails on the empty list: the function returns NaN, which
    is a number and not [null]. *)
Lemma fusion_of_no_reading_is_NaN :
  calcLowerTrimmedMean sort1 [] TEMP_DEV_THRESHOLD = NaN
  /\ Some (calcLowerTrimmedMean sort1 [] TEMP_DEV_THRESHOLD) <> None.
Proof. split; [reflexivity|discriminate]. Qed.

End FusionQ.

Section FusionMargin.

Local Open Scope Q_scope.

Lemma fusionMargin_nonneg X : 0 <= fusionMargin X.
Proof.
  unfold fusionMargin. apply Qle_shift_div_l; [reflexivity|].
  rewrite Qmult_0_l. change 0 with (inject_Z 0). rewrite <- Zle_Qle. lia.
Qed.

(** A reading clear of the threshold [mu - k * sigma] is above it by the
    margin, and retained, or below it by more than the margin, and
    dropped. *)
Lemma clearOfThreshold_sqrt k X x :
  clearOfThreshold k X = true ->
  In x X ->
  let threshold :=
    (Q2R (Qmean X) - Q2R k * sqrt (Q2R (Qvariance X)))%R in
  let margin := Q2R (fusionMargin X) in
  (retains k X x = true /\ (threshold + margin <= Q2R x)%R)
  \/ (retains k X x = false /\ (Q2R x + margin < threshold)%R).
Proof.
  intros Hclear Hin. cbv zeta. unfold clearOfThreshold in Hclear.
  rewrite forallb_forall in Hclear. specialize (Hclear x Hin).
  apply andb_true_iff in Hclear. destruct Hclear as [_ Hclear].
  apply eqb_prop in Hclear.
  assert (H0 : Q2R 0 = 0%R) by (unfold Q2R; simpl; lra).
  pose proof (Qle_Rle _ _ (fusionMargin_nonneg X)) as Hm'.
  rewrite H0 in Hm'.
  pose proof (aboveTrimQ_sqrt (x - fusionMargin X) (Qmean X) k (Qvariance X)
                (Qvariance_nonneg X)) as Hlow.
  pose proof (aboveTrimQ_sqrt (x + fusionMargin X) (Qmean X) k (Qvariance X)
                (Qvariance_nonneg X)) as Hhigh.
  rewrite Q2R_minus in Hlow. rewrite Q2R_plus in Hhigh.
  destruct (aboveTrimQ (x - fusionMargin X) (Qmean X) k (Qvariance X)).
  - left. pose proof (proj1 Hlow eq_refl) as H. split; [|lra].
    apply retains_sqrt. lra.
  - right.
    assert (H : ~ (Q2R (Qmean X) - Q2R k * sqrt (Q2R (Qvariance X))
                   <= Q2R x + Q2R (fusionMargin X))%R).
    { intro H. apply Hhigh in H. congruence. }
    split; [|lra].
    apply not_true_iff_false. intro Hr. apply retains_sqrt in Hr. lra.
Qed.

End FusionMargin.

(** C2, amended: on a list [X] of temperatures none of which lies within the
    margin of the threshold [mu - 0.5 * sigma], for the mean [mu] and the
    population standard deviation [sigma] of [X], [calcLowerTrimmedMean]
    with the threshold 0.5 returns the arithmetic mean of the readings [x]
    of [X] with [x >= mu - 0.5 * sigma], in whatever order [sort] leaves the
    readings; these are the readings at or above every threshold that
    differs from the exact one by less than the margin, as the rounded
    threshold of the code does.  So 225, 228, 226, 75 fuse to
    679/3 = 226.33...  A single reading is returned as it is.  On the empty
    list the function returns NaN.  What it returns for a reading within the
    margin of the threshold is left open. *)
Theorem lower_trimmed_mean sort :
  (forall arr, Permutation (sort arr) arr) ->
  (forall x X,
     clearOfThreshold (1 # 2) (x :: X) = true ->
     let threshold :=
       (Q2R (Qmean (x :: X)) - sqrt (Q2R (Qvariance (x :: X))) / 2)%R in
     let margin := Q2R (fusionMargin (x :: X)) in
     calcLowerTrimmedMean sort (map Fin (x :: X)) TEMP_DEV_THRESHOLD
     = Fin (Qred (Qmean (retained (1 # 2) (x :: X))))
     /\ (forall y,
           retains (1 # 2) (x :: X) y = true <-> (threshold <= Q2R y)%R)
     /\ (forall y (t : Q),
           In y (x :: X) ->
           (Rabs (Q2R t - threshold) < margin)%R ->
           Qle_bool t y = retains (1 # 2) (x :: X) y))
  /\ (forall x,
        calcLowerTrimmedMean sort [Fin x] TEMP_DEV_THRESHOLD = Fin (Qred x))
  /\ calcLowerTrimmedMean sort [] TEMP_DEV_THRESHOLD = NaN
  /\ calcLowerTrimmedMean sort [Fin 225; Fin 228; Fin 226; Fin 75]
       TEMP_DEV_THRESHOLD
     = Fin (679 # 3).
Proof.
  intro Hsort.
  assert (Hk : (0 <= 1 # 2)%Q) by discriminate.
  assert (Hhalf : Q2R (1 # 2) = (/ 2)%R) by (unfold Q2R; simpl; lra).
  pose proof (calcLowerTrimmedMean_retained sort Hsort (1 # 2)) as Hmean.
  unfold TEMP_DEV_THRESHOLD. split; [|split; [|split]].
  - intros x X Hclear. cbv zeta. split; [apply Hmean, Hk|]. split.
    + intro y. rewrite retains_sqrt, Hhalf. split; intro H; lra.
    + intros y t Hin Ht.
      destruct (clearOfThreshold_sqrt (1 # 2) (x :: X) y Hclear Hin)
        as [[-> H]|[-> H]]; rewrite Hhalf in H.
      * apply Qle_bool_iff, Rle_Qle.
        apply Rabs_def2 in Ht. lra.
      * apply not_true_iff_false. intro Hle.
        apply Qle_bool_iff, Qle_Rle in Hle.
        apply Rabs_def2 in Ht. lra.
  - intro x. change [Fin x] with (map Fin [x]). rewrite (Hmean x [] Hk).
    f_equal. apply Qred_complete.
    unfold retained. cbn [filter].
    rewrite (retains_above_mean (1 # 2) [x] x Hk).
    + unfold Qmean, Qsum. simpl. field.
    + unfold Qmean, Qsum. simpl. field_simplify. apply Qle_refl.
  - apply calcLowerTrimmedMean_empty, Hsort.
  - change [Fin 225; Fin 228; Fin 226; Fin 75]
      with (map Fin [225; 228; 226; 75]%Q).
    rewrite (Hmean _ _ Hk). vm_compute. reflexivity.
Qed.

(** The four readings of the specification, which are clear of their
    threshold, with a [sort] that reverses the array. *)
Lemma lower_trimmed_mean_witness :
  clearOfThreshold (1 # 2) [225; 228; 226; 75]%Q = true
  /\ calcLowerTrimmedMean (@rev num) [Fin 225; Fin 228; Fin 226; Fin 75]
       TEMP_DEV_THRESHOLD
     = Fin (Qred (Qmean (retained (1 # 2) [225; 228; 226; 75]%Q))).
Proof.
  assert (Hclear : clearOfThreshold (1 # 2) [225; 228; 226; 75]%Q = true)
    by (vm_compute; reflexivity).
  split; [exact Hclear|].
  assert (Hrev : forall arr : list num, Permutation (rev arr) arr)
    by (intro arr; apply Permutation_sym, Permutation_rev).
  exact (proj1 (proj1 (lower_trimmed_mean (@rev num) Hrev) 225%Q
                  [228; 226; 75]%Q Hclear)).
Defined.

Section Rounding.

Import PrimFloat.

(** What the amended C2 leaves open, in double precision: the rounded
    threshold of 1, 1, 1, 1, 7 is 1.0000000000000002, above the exact
    threshold 1, so that the four readings at the threshold are dropped and
    the fusion is 7, not 11/5; the rounded mean of five readings
    103.06633322125084 is above each of them, so that all are dropped and
    the fusion is NaN.  The four readings of the specification, clear of
    their threshold, fuse to the double next to 679/3. *)
Lemma fusion_at_the_threshold :
  Binary64.calcLowerTrimmedMean Binary64.sorted [1; 1; 1; 1; 7]%float
    0.5%float
  = 7%float
  /\ is_nan
       (Binary64.calcLowerTrimmedMean Binary64.sorted
          [0x1.9c43ecdb1fa49p+6; 0x1.9c43ecdb1fa49p+6; 0x1.9c43ecdb1fa49p+6;
           0x1.9c43ecdb1fa49p+6; 0x1.9c43ecdb1fa49p+6]%float
          0.5%float)
     = true
  /\ Binary64.calcLowerTrimmedMean Binary64.sorted
       [225; 226; 228; 75]%float 0.5%float
     = 0x1.c4aaaaaaaaaabp+7%float
  /\ is_nan (Binary64.calcLowerTrimmedMean Binary64.sorted [] 0.5%float)
     = true.
Proof. repeat split; vm_compute; reflexivity. Qed.

End Rounding.

(** [updateProbe] fuses the ambient temperatures of the probes that it has
    connected, the probe of the reading among them: the list is never
    empty there. *)
Lemma put_not_empty {V} key (value : V) obj : put key value obj <> [].
Proof.
  destruct obj as [|[k v] rest]; simpl; [discriminate|].
  destruct (String.eqb k key); discriminate.
Qed.

Lemma updateProbe_fuses sort data this :
  let this' := updateProbe sort data this in
  _connectedProbes this' <> []
  /\ _currentTemp this'
     = Some (calcLowerTrimmedMean sort (allAmbientTemps this')
               TEMP_DEV_THRESHOLD).
Proof.
  cbv zeta. unfold updateProbe, allAmbientTemps, _setUnits.
  fields this. run.
  destruct (negb (option_eqb Units_eqb (Some (Update.units data)) un)); run.
  all: split; [apply put_not_empty|reflexivity].
Qed.

(** * Further properties *)

(** ** Arithmetic on finite numbers *)

Section FiniteNumbers.

Local Open Scope Q_scope.

Lemma isFin_Fin q : isFin (Fin q) q.
Proof. exists q. split; reflexivity. Qed.

Lemma isFin_of_Z z : isFin (of_Z z) (inject_Z z).
Proof. apply isFin_Fin. Qed.

Lemma isFin_Qeq a p q : isFin a p -> p == q -> isFin a q.
Proof.
  intros (r & -> & Hr) H. exists r. split; [reflexivity|]. now rewrite Hr.
Qed.

Lemma isFin_add a b x y : isFin a x -> isFin b y -> isFin (a + b)%num (x + y).
Proof.
  intros (r & -> & Hr) (s & -> & Hs). eexists. split; [reflexivity|].
  now rewrite Qred_correct, Hr, Hs.
Qed.

Lemma isFin_sub a b x y : isFin a x -> isFin b y -> isFin (a - b)%num (x - y).
Proof.
  intros (r & -> & Hr) (s & -> & Hs). eexists. split; [reflexivity|].
  now rewrite Qred_correct, Hr, Hs.
Qed.

Lemma isFin_mul a b x y : isFin a x -> isFin b y -> isFin (a * b)%num (x * y).
Proof.
  intros (r & -> & Hr) (s & -> & Hs). eexists. split; [reflexivity|].
  now rewrite Qred_correct, Hr, Hs.
Qed.

Lemma isFin_div a b x y :
  isFin a x -> isFin b y -> ~ y == 0 -> isFin (a / b)%num (x / y).
Proof.
  intros (r & -> & Hr) (s & -> & Hs) Hy. unfold div.
  destruct (Qeq_bool s 0) eqn:E.
  - apply Qeq_bool_eq in E. rewrite E in Hs. symmetry in Hs. contradiction.
  - eexists. split; [reflexivity|]. now rewrite Qred_correct, Hr, Hs.
Qed.

Lemma isFin_min a b x y :
  isFin a x -> isFin b y -> isFin (Num.min a b) (Qmin x y).
Proof.
  intros (r & -> & Hr) (s & -> & Hs). unfold Num.min. cbn [cmp].
  exists (Qmin r s). split; [|now rewrite Hr, Hs].
  unfold Qmin, GenericMinMax.gmin. destruct (r ?= s); reflexivity.
Qed.

Lemma isFin_max a b x y :
  isFin a x -> isFin b y -> isFin (Num.max a b) (Qmax x y).
Proof.
  intros (r & -> & Hr) (s & -> & Hs). unfold Num.max. cbn [cmp].
  exists (Qmax r s). split; [|now rewrite Hr, Hs].
  unfold Qmax, GenericMinMax.gmax. destruct (r ?= s); reflexivity.
Qed.

Lemma isFin_constrain a lo hi x l h :
  isFin a x -> isFin lo l -> isFin hi h ->
  isFin (constrain a lo hi) (Qmin (Qmax x l) h).
Proof. intros. unfold constrain. now apply isFin_min; [apply isFin_max|]. Qed.

Lemma isFin_ltb a b x y :
  isFin a x -> isFin b y -> (a <? b)%num = true <-> x < y.
Proof.
  intros (r & -> & Hr) (s & -> & Hs). unfold ltb. cbn [cmp].
  rewrite <- Hr, <- Hs, Qlt_alt. destruct (r ?= s); split; congruence.
Qed.

Lemma isFin_leb a b x y :
  isFin a x -> isFin b y -> (a <=? b)%num = true <-> x <= y.
Proof.
  intros (r & -> & Hr) (s & -> & Hs). unfold leb. cbn [cmp].
  rewrite <- Hr, <- Hs, Qle_alt. destruct (r ?= s); split; congruence.
Qed.

Lemma isFin_eqb a b x y :
  isFin a x -> isFin b y -> Num.eqb a b = true <-> x == y.
Proof.
  intros (r & -> & Hr) (s & -> & Hs). unfold Num.eqb. cbn [cmp].
  rewrite <- Hr, <- Hs, Qeq_alt. destruct (r ?= s); split; congruence.
Qed.

Lemma isFin_ltb_false a b x y :
  isFin a x -> isFin b y -> (a <? b)%num = false <-> y <= x.
Proof.
  intros Ha Hb. rewrite <- not_true_iff_false, (isFin_ltb a b x y Ha Hb).
  split; [apply Qnot_lt_le|apply Qle_not_lt].
Qed.

Lemma isFin_leb_false a b x y :
  isFin a x -> isFin b y -> (a <=? b)%num = false <-> y < x.
Proof.
  intros Ha Hb. rewrite <- not_true_iff_false, (isFin_leb a b x y Ha Hb).
  split; [apply Qnot_le_lt|apply Qlt_not_le].
Qed.

End FiniteNumbers.

(** ** utils.js *)

Section Utils.

Local Open Scope Q_scope.

Lemma constrain_Fin x l h :
  constrain (Fin x) (Fin l) (Fin h)
  = match x ?= l with
    | Lt => match l ?= h with Gt => Fin h | _ => Fin l end
    | _ => match x ?= h with Gt => Fin h | _ => Fin x end
    end.
Proof.
  unfold constrain, Num.max, Num.min. cbn [cmp].
  destruct (x ?= l); cbn [cmp]; reflexivity.
Qed.

Lemma Qcompare_Lt x y : x < y -> (x ?= y) = Lt.
Proof. intro H. now apply Qlt_alt. Qed.

Lemma Qcompare_Gt x y : y < x -> (x ?= y) = Gt.
Proof. intro H. now apply Qgt_alt. Qed.

Lemma Qcompare_not_Gt x y : x <= y -> (x ?= y) <> Gt.
Proof. intro H. now apply Qle_alt. Qed.

Lemma Qcompare_not_Lt x y : y <= x -> (x ?= y) <> Lt.
Proof.
  intros H E. apply Qlt_alt in E. now apply (Qlt_not_le x y).
Qed.

(** [constrain] on three finite numbers, the bounds in order: the value when
    it lies within the bounds, the bound that it passes otherwise. *)
Lemma constrain_cases x l h :
  l <= h ->
  (x < l /\ constrain (Fin x) (Fin l) (Fin h) = Fin l)
  \/ (l <= x <= h /\ constrain (Fin x) (Fin l) (Fin h) = Fin x)
  \/ (h < x /\ constrain (Fin x) (Fin l) (Fin h) = Fin h).
Proof.
  intro Hlh. rewrite constrain_Fin.
  destruct (Qlt_le_dec x l) as [Hxl|Hxl].
  - left. split; [assumption|]. rewrite (Qcompare_Lt _ _ Hxl).
    pose proof (Qcompare_not_Gt _ _ Hlh). destruct (l ?= h); congruence.
  - right. destruct (Qlt_le_dec h x) as [Hhx|Hhx].
    + right. split; [assumption|]. rewrite (Qcompare_Gt _ _ Hhx).
      pose proof (Qcompare_not_Lt _ _ Hxl). destruct (x ?= l); congruence.
    + left. split; [split; assumption|].
      pose proof (Qcompare_not_Lt _ _ Hxl).
      pose proof (Qcompare_not_Gt _ _ Hhx).
      destruct (x ?= l), (x ?= h); congruence.
Qed.

End Utils.

(** X1.  [constrain] with finite bounds in order returns NaN for NaN, and for
    every other value a number within the bounds: the value itself when it
    is within them, the lower bound for a smaller value, [-oo] among them,
    and the upper bound for a larger one, [+oo] among them. *)
Theorem constrain_in_bounds (value : num) (l h : Q) :
  (l <= h)%Q ->
  match value with
  | NaN => constrain value (Fin l) (Fin h) = NaN
  | NInf => constrain value (Fin l) (Fin h) = Fin l
  | PInf => constrain value (Fin l) (Fin h) = Fin h
  | Fin x =>
      exists r,
        constrain value (Fin l) (Fin h) = Fin r
        /\ (l <= r <= h)%Q
        /\ ((l <= x <= h)%Q -> r = x)
        /\ ((x < l)%Q -> r = l)
        /\ ((h < x)%Q -> r = h)
  end.
Proof.
  intro Hlh. destruct value as [x| | |].
  - destruct (constrain_cases x l h Hlh) as [[H ->]|[[H ->]|[H ->]]];
      eexists; (split; [reflexivity|]).
    + repeat split; auto with qarith.
      * intros [H1 _]. exfalso. now apply (Qlt_not_le x l).
      * intro H1. exfalso. apply (Qlt_irrefl x).
        apply Qlt_le_trans with l; [assumption|].
        now apply Qle_trans with h; [|apply Qlt_le_weak].
    + repeat split; try tauto.
      * intro H1. exfalso. now apply (Qlt_not_le x l).
      * intro H1. exfalso. now apply (Qlt_not_le h x).
    + repeat split; auto with qarith.
      * intros [_ H1]. exfalso. now apply (Qlt_not_le h x).
      * intro H1. exfalso. apply (Qlt_irrefl x).
        apply Qlt_le_trans with l; [assumption|].
        now apply Qle_trans with h; [|apply Qlt_le_weak].
  - reflexivity.
  - unfold constrain, Num.max, Num.min. cbn [cmp].
    pose proof (Qcompare_not_Gt _ _ Hlh). destruct (l ?= h)%Q; congruence.
  - reflexivity.
Qed.

Lemma constrain_in_bounds_witness :
  (0 <= 99)%Q
  /\ (exists r,
        constrain (Fin 120) (Fin 0) (Fin 99) = Fin r
        /\ (0 <= r <= 99)%Q
        /\ ((0 <= 120 <= 99)%Q -> r = 120%Q)
        /\ ((120 < 0)%Q -> r = 0%Q)
        /\ ((99 < 120)%Q -> r = 99%Q))
  /\ constrain NaN (Fin 0) (Fin 99) = NaN
  /\ constrain PInf (Fin 0) (Fin 99) = Fin 99
  /\ constrain NInf (Fin 0) (Fin 99) = Fin 0.
Proof.
  assert (H : (0 <= 99)%Q) by (unfold Qle; simpl; lia).
  split; [exact H|]. split; [exact (constrain_in_bounds (Fin 120) 0 99 H)|].
  split; [exact (constrain_in_bounds NaN 0 99 H)|].
  split; [exact (constrain_in_bounds PInf 0 99 H)|].
  exact (constrain_in_bounds NInf 0 99 H).
Defined.

Section UtilsQ.

Local Open Scope Q_scope.

Lemma isFin_constrain_cases x l h :
  l <= h ->
  exists c,
    isFin (constrain (Fin x) (Fin l) (Fin h)) c
    /\ l <= c <= h
    /\ (x <= l -> c == l) /\ (h <= x -> c == h) /\ (l <= x <= h -> c == x).
Proof.
  intro Hlh.
  destruct (constrain_cases x l h Hlh) as [[H ->]|[[H ->]|[H ->]]].
  - exists l. split; [apply isFin_Fin|]. repeat split; try lra.
  - exists x. split; [apply isFin_Fin|]. repeat split; try lra.
  - exists h. split; [apply isFin_Fin|]. repeat split; try lra.
Qed.

Lemma Qdiv_unit_interval c lo hi :
  lo < hi -> lo <= c <= hi -> 0 <= (c - lo) / (hi - lo) <= 1.
Proof.
  intros Hlt [H1 H2]. split.
  - apply Qle_shift_div_l; lra.
  - apply Qle_shift_div_r; lra.
Qed.

Lemma Qlerp_between t a b :
  0 <= t <= 1 -> Qmin a b <= t * (b - a) + a <= Qmax a b.
Proof.
  intros [H0 H1].
  assert (Ha : forall d, 0 <= d -> 0 <= t * d <= d).
  { intros d Hd. split.
    - now apply Qmult_le_0_compat.
    - setoid_replace d with (1 * d) at 2 by ring.
      now apply Qmult_le_compat_r. }
  destruct (Qlt_le_dec b a) as [Hba|Hab].
  - rewrite (Q.min_r a b), (Q.max_l a b) by lra.
    destruct (Ha (a - b)) as [H2 H3]; [lra|].
    setoid_replace (t * (b - a) + a) with (a - t * (a - b)) by ring. lra.
  - rewrite (Q.min_l a b), (Q.max_r a b) by lra.
    destruct (Ha (b - a)) as [H2 H3]; [lra|]. lra.
Qed.

End UtilsQ.

Lemma mapRange_Fin (x lo hi nl nh : Q) :
  (lo < hi)%Q ->
  exists r,
    mapRange (Fin x) (Fin lo) (Fin hi) (Fin nl) (Fin nh) = Fin r
    /\ (Qmin nl nh <= r <= Qmax nl nh)%Q
    /\ ((x <= lo)%Q -> (r == nl)%Q)
    /\ ((hi <= x)%Q -> (r == nh)%Q)
    /\ ((lo <= x <= hi)%Q -> (r == (x - lo) / (hi - lo) * (nh - nl) + nl)%Q).
Proof.
  intro Hlt.
  destruct (isFin_constrain_cases x lo hi) as (c & Hc & Hr & Hl & Hh & Hm);
    [lra|].
  assert (Hd : ~ (hi - lo == 0)%Q) by lra.
  assert (H : isFin (mapRange (Fin x) (Fin lo) (Fin hi) (Fin nl) (Fin nh))
                ((c - lo) / (hi - lo) * (nh - nl) + nl)%Q).
  { unfold mapRange.
    repeat first [ apply isFin_add | apply isFin_mul | apply isFin_div
                 | apply isFin_sub | exact Hc | apply isFin_Fin | exact Hd ]. }
  destruct H as (r & -> & E). exists r. split; [reflexivity|].
  rewrite E. split; [|split; [|split]].
  - apply Qlerp_between. now apply Qdiv_unit_interval.
  - intro H. rewrite (Hl H). field. lra.
  - intro H. rewrite (Hh H). field. lra.
  - intro H. rewrite (Hm H). reflexivity.
Qed.

(** X2.  On a source range [min < max] of finite numbers [mapRange] is the
    linear map of the clamped value: it sends every value at or below [min]
    to [newMin], every value at or above [max] to [newMax], and a value
    between them to its interpolation; the result always lies between
    [newMin] and [newMax], whichever of them is larger. *)
Theorem mapRange_between (x lo hi nl nh : Q) :
  (lo < hi)%Q ->
  exists r,
    mapRange (Fin x) (Fin lo) (Fin hi) (Fin nl) (Fin nh) = Fin r
    /\ (Qmin nl nh <= r <= Qmax nl nh)%Q
    /\ ((x <= lo)%Q -> (r == nl)%Q)
    /\ ((hi <= x)%Q -> (r == nh)%Q)
    /\ ((lo <= x <= hi)%Q -> (r == (x - lo) / (hi - lo) * (nh - nl) + nl)%Q).
Proof. exact (mapRange_Fin x lo hi nl nh). Qed.

Lemma mapRange_between_witness :
  (0 < 100)%Q
  /\ exists r,
       mapRange (Fin 25) (Fin 0) (Fin 100) (Fin 500) (Fin 2500) = Fin r
       /\ (Qmin 500 2500 <= r <= Qmax 500 2500)%Q
       /\ ((25 <= 0)%Q -> (r == 500)%Q)
       /\ ((100 <= 25)%Q -> (r == 2500)%Q)
       /\ ((0 <= 25 <= 100)%Q
           -> (r == (25 - 0) / (100 - 0) * (2500 - 500) + 500)%Q).
Proof.
  assert (H : (0 < 100)%Q) by reflexivity.
  split; [exact H|]. exact (mapRange_between 25 0 100 500 2500 H).
Defined.


(** X3.  With a smoothing factor between 0 and 1 the exponential moving
    average of finite numbers lies between the previous average and the new
    sample, and its distance to the sample is [1 - smooth] times that of the
    previous average. *)
Theorem calcExpMovingAverage_between (s a v : Q) :
  (0 <= s <= 1)%Q ->
  exists r,
    calcExpMovingAverage (Fin s) (Some (Fin a)) (Fin v) = Fin r
    /\ (Qmin a v <= r <= Qmax a v)%Q
    /\ (r - v == (1 - s) * (a - v))%Q.
Proof.
  intro Hs.
  assert (H : isFin (calcExpMovingAverage (Fin s) (Some (Fin a)) (Fin v))
                (a + s * (v - a))%Q).
  { unfold calcExpMovingAverage. cbn [isNaN].
    repeat first [ apply isFin_add | apply isFin_mul | apply isFin_sub
                 | apply isFin_Fin ]. }
  destruct H as (r & -> & E). exists r. split; [reflexivity|].
  rewrite E. split; [|ring].
  setoid_replace (a + s * (v - a))%Q with (s * (v - a) + a)%Q by ring.
  now apply Qlerp_between.
Qed.

Lemma calcExpMovingAverage_between_witness :
  (0 <= 2 # 61 <= 1)%Q
  /\ exists r,
       calcExpMovingAverage (Fin (2 # 61)) (Some (Fin 200)) (Fin 261) = Fin r
       /\ (Qmin 200 261 <= r <= Qmax 200 261)%Q
       /\ (r - 261 == (1 - (2 # 61)) * (200 - 261))%Q.
Proof.
  assert (H : (0 <= 2 # 61 <= 1)%Q) by (split; unfold Qle; simpl; lia).
  split; [exact H|]. exact (calcExpMovingAverage_between (2 # 61) 200 261 H).
Defined.

(** ** The commit of the fan *)

Lemma commitFanOutput_committed this :
  exists this',
    _commitFanOutput this = Return tt this' [output fan (fanEmitted this)]
    /\ _fanPct this' = fanCommitted this
    /\ _lastBlowerOutput this'
       = (if Num.eqb (fanCommitted this) (Fin 0) then Fin 0
          else fanCommitted this)
    /\ (exists rem tmr pct blower,
          this'
          = set_lastBlowerOutput blower
              (set_fanPct pct
                 (set_longPwmTmr tmr (set_longPwmRemaining rem this))))
    /\ _longPwmTmr this'
       = (if (fanTarget this >=? _fanMinSpeed this)%num then 0
          else if _longPwmTmr this + 1 >? TEMP_LONG_PWM_CNT - 1 then 0
               else _longPwmTmr this + 1)
    /\ _longPwmRemaining this'
       = (if (fanTarget this >=? _fanMinSpeed this)%num then Fin 0
          else if (pulseTarget this
                     >? of_Z (_longPwmTmr this * TEMP_MEASURE_PERIOD))%num
               then (pulseTarget this
                     - of_Z (_longPwmTmr this * TEMP_MEASURE_PERIOD))%num
               else Fin 0).
Proof.
  unfold _commitFanOutput, fanEmitted, fanCommitted, pulseTarget, fanTarget.
  fields this. run.
  repeat
    (match goal with
     | |- context [if ?b then _ else _] => destruct b eqn:?
     end; run).
  all: try discriminate.
  all: eexists; split; [reflexivity|]; split; [reflexivity|];
       split; [reflexivity|]; split; [|split; reflexivity].
  all: do 4 eexists; reflexivity.
Qed.

Section FanSpeed.

Local Open Scope Q_scope.

Variable this : PitPID.
Variables out floor maxs mins : Q.
Hypothesis Hout : _pidOutput this = Fin out.
Hypothesis Hfloor : _fanActiveFloor this = Fin floor.
Hypothesis Hmax : fanCurrentMaxSpeed this = Fin maxs.
Hypothesis Hmin : _fanMinSpeed this = Fin mins.
Hypothesis Rout : 0 <= out <= 100.
Hypothesis Rfloor : 0 <= floor <= 99.
Hypothesis Rmax : 0 <= maxs <= 100.

Lemma fanTarget_finite :
  exists t, fanTarget this = Fin t /\ 0 <= t.
Proof using Hout Hfloor Hmax Rout Rfloor Rmax.
  unfold fanTarget. rewrite Hout, Hfloor, Hmax.
  destruct (Fin out <? Fin floor)%num eqn:E.
  - exists 0. split; [reflexivity|]. lra.
  - apply (isFin_ltb_false _ _ out floor) in E; try apply isFin_Fin.
    assert (Hd : ~ 100 - floor == 0) by lra.
    assert (H : isFin ((Fin out - Fin floor) * Fin maxs
                       / (Fin 100 - Fin floor))%num
                  ((out - floor) * maxs / (100 - floor))).
    { repeat first [ apply isFin_div | apply isFin_mul | apply isFin_sub
                   | apply isFin_Fin | exact Hd ]. }
    destruct H as (t & -> & Et). exists t. split; [reflexivity|].
    rewrite Et. apply Qle_shift_div_l; [lra|]. rewrite Qmult_0_l.
    apply Qmult_le_0_compat; lra.
Qed.

Lemma fanCommitted_stopped_or_running :
  exists pct,
    fanCommitted this = Fin pct /\ (pct == 0 \/ mins <= pct).
Proof using Hout Hfloor Hmax Hmin Rout Rfloor Rmax.
  destruct fanTarget_finite as (t & Ht & Rt).
  unfold fanCommitted. rewrite Ht, Hmin.
  destruct (Fin t >=? Fin mins)%num eqn:E.
  - exists t. split; [reflexivity|]. right.
    now apply (isFin_leb _ _ mins t) in E; try apply isFin_Fin.
  - match goal with |- context [if ?b then _ else _] => destruct b end.
    + exists mins. split; [reflexivity|]. right. apply Qle_refl.
    + exists 0. split; [reflexivity|]. left. reflexivity.
Qed.

End FanSpeed.

(** X5.  [_commitFanOutput] never commits the fan at a speed between 0 and
    the minimum speed.  With the output from 0 to 100, the active floor from
    0 to 99 and the maximum speed of the mode from 0 to 100, it returns, it
    emits one [fan] event, and the speed that it commits is 0 or at least
    [fan_min_speed].  For a stopped fan the event carries 0; for a running
    fan it carries 100 when the fan was stopped before, the boost of the
    period in which the fan leaves standstill, and the committed speed
    otherwise.  [_lastBlowerOutput] records the committed speed. *)
Theorem commitFanOutput_speed this (out floor maxs mins : Q) :
  _pidOutput this = Fin out ->
  _fanActiveFloor this = Fin floor ->
  fanCurrentMaxSpeed this = Fin maxs ->
  _fanMinSpeed this = Fin mins ->
  (0 <= out <= 100)%Q ->
  (0 <= floor <= 99)%Q ->
  (0 <= maxs <= 100)%Q ->
  exists this' pct v,
    _commitFanOutput this = Return tt this' [output fan v]
    /\ _fanPct this' = Fin pct
    /\ ((pct == 0)%Q \/ (mins <= pct)%Q)
    /\ ((pct == 0)%Q -> v = Fin 0 /\ _lastBlowerOutput this' = Fin 0)
    /\ (~ (pct == 0)%Q ->
        _lastBlowerOutput this' = Fin pct
        /\ v = if Num.eqb (_lastBlowerOutput this) (Fin 0)
               then Fin 100 else Fin pct).
Proof.
  intros Hout Hfloor Hmax Hmin Rout Rfloor Rmax.
  destruct (commitFanOutput_committed this)
    as (this' & E & Hpct & Hblower & _).
  destruct (fanCommitted_stopped_or_running this out floor maxs mins)
    as (pct & Hc & Rpct); try assumption.
  exists this', pct, (fanEmitted this).
  split; [assumption|]. split; [congruence|]. split; [assumption|].
  unfold fanEmitted. rewrite Hc in *.
  assert (Hz : Num.eqb (Fin pct) (Fin 0) = true <-> (pct == 0)%Q)
    by (apply isFin_eqb; apply isFin_Fin).
  destruct (Num.eqb (Fin pct) (Fin 0)).
  - split; [auto|]. intro Hn. exfalso. apply Hn, Hz. reflexivity.
  - split.
    + intro H0. apply Hz in H0. discriminate.
    + intros _. split; [assumption|reflexivity].
Qed.

Lemma commitFanOutput_speed_witness :
  exists this' pct v,
    _commitFanOutput pit_manual = Return tt this' [output fan v]
    /\ _fanPct this' = Fin pct
    /\ ((pct == 0)%Q \/ (50 <= pct)%Q)
    /\ ((pct == 0)%Q -> v = Fin 0 /\ _lastBlowerOutput this' = Fin 0)
    /\ (~ (pct == 0)%Q ->
        _lastBlowerOutput this' = Fin pct
        /\ v = if Num.eqb (_lastBlowerOutput pit_manual) (Fin 0)
               then Fin 100 else Fin pct).
Proof.
  apply (commitFanOutput_speed pit_manual (255 # 4) 50 80 50);
    try reflexivity; split; unfold Qle; simpl; lia.
Defined.

(** ** The commit of the servo *)




(** ** A call of [doWork], part by part *)

(** A call less than TEMP_MEASURE_PERIOD after the last heavy tick. *)
Lemma doWork_sub_tick now this :
  now - _lastWorkMillis this < TEMP_MEASURE_PERIOD ->
  doWork now this
  = Return DO_WORK_PERIOD (afterSubTick now this)
      (if quotaExhausted now this
       then [output fan (_fanMaxSpeed this)] else []).
Proof.
  intro Hlt. apply Z.ltb_lt in Hlt.
  unfold doWork, afterSubTick, quotaExhausted.
  change (TEMP_OUTADJUST_CNT >? 0) with true.
  fields this. run. run_in Hlt.
  repeat
    (match goal with |- context [if ?b then _ else _] => destruct b eqn:? end;
     run; rewrite ?Hlt; run).
  all: reflexivity.
Qed.

Lemma startHeavyTick_mode now this :
  _pidMode (startHeavyTick now this) = _pidMode this.
Proof.
  unfold startHeavyTick, afterSubTick, _tempProbeProcessPeriod.
  fields this. run.
  repeat
    (match goal with |- context [if ?b then _ else _] => destruct b end; run).
  all: destruct temp; reflexivity.
Qed.

(** Rewriting with the tests that an inversion has decided. *)
Ltac decided :=
  repeat match goal with
    | Hx : ?c = _ |- context [if ?c then _ else _] => rewrite Hx
    end.

(** A heavy tick that returns: the PID is computed in the automatic modes,
    the mode and the lid timeout make their transition, and the output is
    committed. *)
Lemma doWork_heavy_tick now this delay this' evs :
  TEMP_MEASURE_PERIOD <= now - _lastWorkMillis this ->
  doWork now this = Return delay this' evs ->
  exists s evs',
    (if PIDMODE_val (_pidMode this) <=? AUTO_LAST
     then _calcPidOutput (startHeavyTick now this) = Return tt s []
     else s = startHeavyTick now this)
    /\ _commitPidOutput (lidTransition now s) = Return tt this' evs'
    /\ evs
       = (if quotaExhausted now this
          then [output fan (_fanMaxSpeed this)] else []) ++ evs'
    /\ delay = DO_WORK_PERIOD.
Proof.
  intros Hheavy H.
  assert (Hlt : (now - _lastWorkMillis this <? TEMP_MEASURE_PERIOD) = false)
    by (apply Z.ltb_ge; exact Hheavy).
  assert (Hcnt : (TEMP_OUTADJUST_CNT >? 0) = true) by reflexivity.
  unfold doWork in H. step H.
  all: repeat match goal with
       | Hx : _lidModeShouldActivate _ _ = Return _ _ _ |- _ =>
           apply lidModeShouldActivate_Return in Hx;
           destruct Hx as (Hb & -> & ->); try discriminate Hb; subst
       end.
  all: match goal with
       | Hx : context [_tempProbeProcessPeriod ?x] |- _ =>
           replace (_tempProbeProcessPeriod x)
             with (startHeavyTick now this) in *
             by (unfold startHeavyTick, afterSubTick, quotaExhausted;
                 decided; reflexivity)
       end.
  all: rewrite startHeavyTick_mode in *.
  all: repeat match goal with
       | Hx : _calcPidOutput _ = Return ?a _ _ |- _ =>
           destruct a;
           let Hy := fresh "Hcalc" in
           pose proof Hx as Hy; apply calcPidOutput_Return in Hy;
           destruct Hy as (-> & _); revert Hx
       | Hx : _commitPidOutput _ = Return ?a _ _ |- _ =>
           destruct a; revert Hx
       end; intros.
  all: decided.
  all: match goal with
       | Hx : _calcPidOutput _ = Return tt ?s [] |- _ => exists s
       | _ => exists (startHeavyTick now this)
       end.
  all: match goal with
       | Hx : _commitPidOutput _ = Return tt _ ?o |- _ => exists o
       end.
  all: split; [first [assumption|reflexivity]|].
  all: split;
       [ unfold lidTransition, setPointReached, pidError;
         rewrite ?startHeavyTick_mode; decided; assumption
       | split; [|reflexivity];
         unfold quotaExhausted; decided; rewrite ?app_nil_r; cbn [app];
         rewrite ?app_nil_r; reflexivity ].
Qed.

(** ** What every call keeps *)

Section Keeps.

Variable R : PitPID -> PitPID -> Prop.
Hypothesis R_refl : forall s, R s s.
Hypothesis R_trans : forall a b c, R a b -> R b c -> R a c.

Lemma keeps_ret {A} (x : A) : keeps R (fun _ => True) (ret x).
Proof. intro s. split; [apply R_refl|auto]. Qed.

Lemma keeps_get : keeps R (fun _ => True) get.
Proof. intro s. split; [apply R_refl|auto]. Qed.

Lemma keeps_emit e : keeps R (fun _ => True) (emit e).
Proof. intro s. split; [apply R_refl|auto]. Qed.

Lemma keeps_throw {A} (Q : A -> Prop) e : keeps R Q (throw e).
Proof. intro s. split; [apply R_refl|discriminate]. Qed.

Lemma keeps_throw_True {A} e : keeps R (fun _ : A => True) (throw e).
Proof. apply keeps_throw. Qed.

Lemma keeps_assign f :
  (forall s, R s (f s)) -> keeps R (fun _ => True) (assign f).
Proof. intros H s. split; [apply H|auto]. Qed.

Lemma keeps_bind {A B} (m : M A) (f : A -> M B) (Q1 : A -> Prop)
  (Q : B -> Prop) :
  keeps R Q1 m -> (forall a, Q1 a -> keeps R Q (f a)) -> keeps R Q (bind m f).
Proof.
  intros Hm Hf s. destruct (Hm s) as [Hr Hq]. unfold bind.
  destruct (m s) as [a s1 o1|e s1 o1]; cbn [this_after] in *.
  - specialize (Hq a s1 o1 eq_refl). destruct (Hf a Hq s1) as [Hr' Hq'].
    destruct (f a s1) as [b s2 o2|e s2 o2]; cbn [this_after] in *.
    + split; [eapply R_trans; eassumption|].
      intros b' s' o' E. injection E as <- <- <-. eapply Hq'. reflexivity.
    + split; [eapply R_trans; eassumption|discriminate].
  - split; [assumption|discriminate].
Qed.

End Keeps.

(** The rules, applied along a method; the assignments are left. *)
Ltac keeping :=
  lazymatch goal with
  | |- keeps _ _ (bind _ _) =>
      eapply keeps_bind; [assumption|keeping|intros ? ?; keeping]
  | |- keeps _ _ (ret _) => apply keeps_ret; assumption
  | |- keeps _ _ get => apply keeps_get; assumption
  | |- keeps _ _ (emit _) => apply keeps_emit; assumption
  | |- keeps _ _ (_emitFanOutput _) => apply keeps_emit; assumption
  | |- keeps _ _ (_emitServoOutput _) => apply keeps_emit; assumption
  | |- keeps _ _ (throw _) => apply keeps_throw_True; assumption
  | |- keeps _ _ (unresolvable _) => apply keeps_throw_True; assumption
  | |- keeps _ _ (call_boolean _ _) => apply keeps_throw_True; assumption
  | |- keeps _ _ (assign _) => apply keeps_assign
  | |- keeps _ _ (if ?c then _ else _) => destruct c; keeping
  | |- keeps _ _ (let _ := _ in _) => cbv zeta; keeping
  | _ => idtac
  end.

Section KeepsMethods.

Variable R : PitPID -> PitPID -> Prop.
Hypothesis R_refl : forall s, R s s.
Hypothesis R_trans : forall a b c, R a b -> R b c -> R a c.

(** The assignments of the class, but the three that the relations below
    have to look into. *)
Hypothesis R_pidCurrent : forall v s, R s (set_pidCurrent v s).
Hypothesis R_pidOutputAvg : forall v s, R s (set_pidOutputAvg v s).
Hypothesis R_lastWorkMillis : forall v s, R s (set_lastWorkMillis v s).
Hypothesis R_periodCounter : forall v s, R s (set_periodCounter v s).
Hypothesis R_longPwmTmr : forall v s, R s (set_longPwmTmr v s).
Hypothesis R_longPwmRemaining : forall v s, R s (set_longPwmRemaining v s).
Hypothesis R_temperatureAvg : forall v s, R s (set_temperatureAvg v s).
Hypothesis R_fanPct : forall v s, R s (set_fanPct v s).
Hypothesis R_lastBlowerOutput : forall v s, R s (set_lastBlowerOutput v s).
Hypothesis R_servoPct : forall v s, R s (set_servoPct v s).
Hypothesis R_servoHoldoff : forall v s, R s (set_servoHoldoff v s).
Hypothesis R_lidOpenTimeout : forall v s, R s (set_lidOpenTimeout v s).
Hypothesis R_pidMode_NORMAL : forall s, R s (set_pidMode NORMAL s).
Hypothesis R_pidOutput_0 : forall s, R s (set_pidOutput (Fin 0) s).
Hypothesis R_pidOutput_constrain :
  forall v s, R s (set_pidOutput (constrain v (Fin 0) (Fin 100)) s).

Lemma keeps_commitFanOutput : keeps R (fun _ => True) _commitFanOutput.
Proof using All.
  unfold _commitFanOutput. keeping; auto.
Qed.

Lemma keeps_commitServoOutput : keeps R (fun _ => True) _commitServoOutput.
Proof using All.
  unfold _commitServoOutput. keeping; auto.
Qed.

Lemma keeps_commitPidOutput : keeps R (fun _ => True) _commitPidOutput.
Proof using All.
  unfold _commitPidOutput, _emitStatusReport.
  eapply keeps_bind; try assumption; [keeping; auto|intros _ _].
  eapply keeps_bind; try assumption; [apply keeps_commitFanOutput|intros _ _].
  eapply keeps_bind; try assumption;
    [apply keeps_commitServoOutput|intros _ _].
  keeping.
Qed.

Lemma keeps_calcPidOutput : keeps R (fun _ => True) _calcPidOutput.
Proof using All.
  unfold _calcPidOutput. keeping; auto.
Qed.

Lemma keeps_lidModeShouldActivate tempDiff :
  keeps R (fun b => b = false) (_lidModeShouldActivate tempDiff).
Proof using R_refl.
  intro s. split.
  - unfold _lidModeShouldActivate, call_boolean, bind, get, throw, ret.
    destruct (_ >? _)%num; apply R_refl.
  - intros a s' o H. now apply lidModeShouldActivate_Return in H.
Qed.

Lemma keeps_tempProbeProcessPeriod s : R s (_tempProbeProcessPeriod s).
Proof using R_refl R_temperatureAvg.
  unfold _tempProbeProcessPeriod. destruct (_currentTemp s); auto.
Qed.

Lemma keeps_doWork now : keeps R (fun _ => True) (doWork now).
Proof using All.
  unfold doWork.
  eapply keeps_bind; try assumption; [apply keeps_get; assumption|].
  intros this _. cbv zeta.
  eapply keeps_bind; try assumption; [keeping; auto|intros _ _].
  eapply keeps_bind; try assumption; [keeping; auto|intros _ _].
  destruct (_ <? _); [apply keeps_ret; assumption|].
  eapply keeps_bind; try assumption; [keeping; auto|intros _ _].
  eapply keeps_bind; try assumption; [keeping; auto|intros _ _].
  eapply keeps_bind; try assumption;
    [apply keeps_assign, keeps_tempProbeProcessPeriod|].
  intros _ _.
  eapply keeps_bind; try assumption; [apply keeps_get; assumption|].
  intros this1 _.
  eapply keeps_bind; try assumption.
  { destruct (_ <=? _);
      [apply keeps_calcPidOutput|apply keeps_ret; assumption]. }
  intros _ _.
  eapply keeps_bind; try assumption; [apply keeps_get; assumption|].
  intros this2 _. cbv zeta.
  eapply keeps_bind; try assumption.
  { destruct (_ && _).
    - keeping; auto.
    - destruct (neqb _ _); [keeping; auto|].
      eapply keeps_bind; try assumption;
        [apply keeps_lidModeShouldActivate|].
      intros a ->. apply keeps_ret; assumption. }
  intros _ _.
  eapply keeps_bind; try assumption; [apply keeps_commitPidOutput|].
  intros _ _. apply keeps_ret; assumption.
Qed.

End KeepsMethods.

Lemma keepsSettings_refl s : keepsSettings s s.
Proof. unfold keepsSettings, sameSettings. tauto. Qed.

Lemma keepsSettings_trans a b c :
  keepsSettings a b -> keepsSettings b c -> keepsSettings a c.
Proof.
  unfold keepsSettings, sameSettings.
  intros (H1 & M1) (H2 & M2). split.
  - repeat match goal with H : _ /\ _ |- _ => destruct H end.
    repeat split; congruence.
  - destruct M1 as [M1|M1], M2 as [M2|M2]; [left|right|right|right];
      congruence.
Qed.

Lemma keepsOutput_refl s : keepsOutput s s.
Proof. unfold keepsOutput. tauto. Qed.

Lemma keepsOutput_trans a b c :
  keepsOutput a b -> keepsOutput b c -> keepsOutput a c.
Proof. unfold keepsOutput. tauto. Qed.

Lemma isOutput_constrain v : isOutput (constrain v (Fin 0) (Fin 100)).
Proof.
  destruct v as [x| | |]; try (left; reflexivity); right.
  - destruct (constrain_cases x 0 100) as [[H ->]|[[H ->]|[H ->]]];
      try (unfold Qle; simpl; lia);
      eexists; (split; [reflexivity|]); lra.
  - exists 100%Q. split; [reflexivity|]. lra.
  - exists 0%Q. split; [reflexivity|]. lra.
Qed.

Lemma isOutput_0 : isOutput (Fin 0).
Proof. right. exists 0%Q. split; [reflexivity|]. lra. Qed.

(** The rule of an assignment, on the fields of the object. *)
Ltac assigned :=
  let s := fresh "s" in
  intros; 
  match goal with |- _ ?s _ => fields s end;
  unfold keepsSettings, sameSettings, keepsOutput; run;
  auto using isOutput_constrain, isOutput_0; tauto.

Lemma calcPidOutput_keeps_output this :
  isOutput (_pidOutput this) ->
  isOutput (_pidOutput (this_after (_calcPidOutput this))).
Proof.
  revert this.
  apply (keeps_calcPidOutput keepsOutput keepsOutput_refl keepsOutput_trans);
    assigned.
Qed.

(** X8.  Whatever a call of [doWork] does, and whether it returns or throws,
    it leaves the settings of the controller as they were: the gains, the
    units, the set-point, the fused temperature, the speeds of the fan, the
    positions of the servo, the lid settings and the probes.  The mode is
    the one before the call or NORMAL: no call enters RECOVERY, the mode of
    a detected open lid. *)
Theorem doWork_keeps_settings now this :
  let this' := this_after (doWork now this) in
  sameSettings this this'
  /\ (_pidMode this' = _pidMode this \/ _pidMode this' = NORMAL)
  /\ (_pidMode this <> RECOVERY -> _pidMode this' <> RECOVERY).
Proof.
  cbv zeta.
  assert (H : keepsSettings this (this_after (doWork now this))).
  { apply (keeps_doWork keepsSettings keepsSettings_refl keepsSettings_trans);
      assigned. }
  destruct H as [Hs Hm]. split; [assumption|]. split; [assumption|].
  intro Hn. destruct Hm as [->| ->]; [assumption|discriminate].
Qed.

(** X9.  An output that is a percentage or NaN stays one through every call
    of [doWork], whether the call returns or throws: no call leaves
    an output below 0, above 100 or infinite. *)
Theorem doWork_keeps_output now this :
  isOutput (_pidOutput this) ->
  isOutput (_pidOutput (this_after (doWork now this))).
Proof.
  revert this.
  apply (keeps_doWork keepsOutput keepsOutput_refl keepsOutput_trans);
    assigned.
Qed.

Lemma doWork_keeps_output_witness :
  isOutput (_pidOutput (this_after (doWork (t0 + 1000) pit_at_200))).
Proof.
  apply (doWork_keeps_output (t0 + 1000) pit_at_200).
  right. exists 0%Q. split; [reflexivity|]. split; unfold Qle; simpl; lia.
Defined.

(** *** What the parts of a heavy tick leave *)

Lemma startHeavyTick_fields now this :
  exists avg period rem blower,
    startHeavyTick now this
    = set_temperatureAvg avg
        (set_lastWorkMillis now
           (set_periodCounter period
              (set_lastBlowerOutput blower
                 (set_longPwmRemaining rem this))))
    /\ avg = _temperatureAvg (_tempProbeProcessPeriod this).
Proof.
  unfold startHeavyTick, afterSubTick, _tempProbeProcessPeriod.
  fields this. run.
  repeat
    (match goal with |- context [if ?b then _ else _] => destruct b end; run).
  all: destruct temp; run; do 4 eexists; split; reflexivity.
Qed.

Lemma calcPidOutput_fields this this' evs :
  _calcPidOutput this = Return tt this' evs ->
  exists u terms, this' = set_pidOutput u (set_pidCurrent terms this).
Proof. intro H. now apply calcPidOutput_Return in H. Qed.

(** The object that a heavy tick commits, in the fields that the PID does
    not own. *)
Lemma heavy_tick_commits now this delay this' evs :
  TEMP_MEASURE_PERIOD <= now - _lastWorkMillis this ->
  doWork now this = Return delay this' evs ->
  exists s evs',
    _commitPidOutput (lidTransition now s) = Return tt this' evs'
    /\ evs
       = (if quotaExhausted now this
          then [output fan (_fanMaxSpeed this)] else []) ++ evs'
    /\ (exists u terms avg period rem blower,
          s = set_pidOutput u
                (set_pidCurrent terms
                   (set_temperatureAvg avg
                      (set_lastWorkMillis now
                         (set_periodCounter period
                            (set_lastBlowerOutput blower
                               (set_longPwmRemaining rem this)))))))
    /\ (AUTO_LAST < PIDMODE_val (_pidMode this) ->
        _pidOutput s = _pidOutput this).
Proof.
  intros Hheavy H.
  destruct (doWork_heavy_tick now this delay this' evs Hheavy H)
    as (s & evs' & Hs & Hcommit & Hevs & _).
  exists s, evs'. split; [assumption|]. split; [assumption|].
  destruct (startHeavyTick_fields now this)
    as (avg' & cnt' & rem' & blower' & E & _).
  destruct (PIDMODE_val (_pidMode this) <=? AUTO_LAST) eqn:Hauto.
  - apply calcPidOutput_fields in Hs. destruct Hs as (u & terms & ->).
    split.
    + exists u, terms, avg', cnt', rem', blower'. now rewrite E.
    + apply Z.leb_le in Hauto. lia.
  - subst s. rewrite E. split.
    + exists (_pidOutput this), (_pidCurrent this), avg', cnt', rem', blower'.
      fields this. reflexivity.
    + intros _. fields this. reflexivity.
Qed.

Lemma commitPidOutput_fields this this' evs :
  _commitPidOutput this = Return tt this' evs ->
  committed this this'.
Proof.
  intro H. destruct (commitPidOutput_returns this) as (s & v & r & E & Hc & _).
  rewrite E in H. injection H as <- _. assumption.
Qed.

(** *** The events of a commit *)

Lemma fanCommitted_pidOutputAvg avg this :
  fanCommitted (set_pidOutputAvg avg this) = fanCommitted this
  /\ fanEmitted (set_pidOutputAvg avg this) = fanEmitted this.
Proof. fields this. split; reflexivity. Qed.

Lemma commitPidOutput_fan this this' evs :
  _commitPidOutput this = Return tt this' evs ->
  exists report,
    evs
    = output fan (fanEmitted this)
      :: servoEvents (_pidOutput this) this ++ [status report]
    /\ _fanPct this' = fanCommitted this
    /\ fanPct report = fanCommitted this
    /\ pidOutput report = _pidOutput this
    /\ _pidOutput this' = _pidOutput this.
Proof.
  unfold _commitPidOutput, _emitStatusReport.
  unfold bind at 1. unfold assign at 1. unfold bind at 1.
  match goal with |- context [_commitFanOutput (set_pidOutputAvg ?a _)] =>
    set (avg' := a)
  end.
  destruct (commitFanOutput_committed (set_pidOutputAvg avg' this))
    as (s1 & -> & Hpct & _ & (rem' & tmr' & pct' & blower' & Hs1) & _).
  destruct (fanCommitted_pidOutputAvg avg' this) as [Efc Efe].
  rewrite Efc in Hpct. rewrite Efe. clear Efc Efe.
  unfold bind at 1.
  destruct (commitServoOutput_returns s1) as (spct' & hold' & ->).
  subst s1. revert Hpct. generalize (fanCommitted this) as fc.
  generalize (fanEmitted this) as fe. intros fe fc.
  unfold servoEvents, servoMoves, servoTarget.
  fields this. run. intros -> H. injection H as <- <-.
  eexists. split; [reflexivity|]. repeat split.
Qed.

(** *** The set-point and the lid *)

Lemma setPointReached_fields now this u terms' avg cnt rem blw :
  setPointReached now
    (set_pidOutput u
       (set_pidCurrent terms'
          (set_temperatureAvg avg
             (set_lastWorkMillis now
                (set_periodCounter cnt
                   (set_lastBlowerOutput blw
                      (set_longPwmRemaining rem this)))))))
  = setPointReached now this.
Proof.
  unfold setPointReached, pidError, lidOpenResumeCountdown.
  fields this. reflexivity.
Qed.

(** X10.  A heavy tick that finds the set-point reached (the fused
    temperature at or above it, and the test on the lid countdown) leaves
    the mode NORMAL and the lid timeout 0 whatever the mode was before, also
    MANUAL and OFF; the output of a manual mode is still the one that this
    tick commits. *)
Theorem heavy_tick_set_point_reached now this delay this' evs :
  TEMP_MEASURE_PERIOD <= now - _lastWorkMillis this ->
  doWork now this = Return delay this' evs ->
  setPointReached now this = true ->
  _pidMode this' = NORMAL
  /\ _lidOpenTimeout this' = Fin 0
  /\ (AUTO_LAST < PIDMODE_val (_pidMode this) ->
      _pidOutput this' = _pidOutput this).
Proof.
  intros Hheavy H Hreached.
  destruct (heavy_tick_commits now this delay this' evs Hheavy H)
    as (s & evs' & Hcommit & _ & Hs & Hout).
  destruct Hs as (u & terms' & avg' & cnt' & rem' & blw' & Hs).
  apply commitPidOutput_fields in Hcommit.
  destruct Hcommit as (? & ? & ? & ? & ? & ? & ? & ->).
  assert (Hr : setPointReached now s = true)
    by (rewrite Hs, setPointReached_fields; assumption).
  unfold lidTransition. rewrite Hr.
  split; [|split].
  - destruct (PIDMODE_eqb (_pidMode s) STARTUP); fields s; reflexivity.
  - destruct (PIDMODE_eqb (_pidMode s) STARTUP); fields s; reflexivity.
  - intro Hm. rewrite <- (Hout Hm).
    destruct (PIDMODE_eqb (_pidMode s) STARTUP); fields s; reflexivity.
Qed.

Lemma heavy_tick_set_point_reached_witness :
  _pidMode (this_after (doWork (t0 + 2000) pit_manual_hot)) = NORMAL
  /\ _lidOpenTimeout (this_after (doWork (t0 + 2000) pit_manual_hot)) = Fin 0
  /\ (AUTO_LAST < PIDMODE_val (_pidMode pit_manual_hot) ->
      _pidOutput (this_after (doWork (t0 + 2000) pit_manual_hot))
      = _pidOutput pit_manual_hot).
Proof.
  apply (heavy_tick_set_point_reached (t0 + 2000) pit_manual_hot 250 _
           (emitted_by (doWork (t0 + 2000) pit_manual_hot))).
  - vm_compute. discriminate.
  - vm_compute. reflexivity.
  - vm_compute. reflexivity.
Defined.

Lemma afterSubTick_fields now this :
  exists period rem blower,
    afterSubTick now this
    = set_periodCounter period
        (set_lastBlowerOutput blower (set_longPwmRemaining rem this)).
Proof.
  unfold afterSubTick. fields this. run.
  repeat
    (match goal with |- context [if ?b then _ else _] => destruct b end; run).
  all: do 3 eexists; reflexivity.
Qed.

Lemma lidTransition_timeout now this (L : Q) :
  _lidOpenTimeout this = Fin L ->
  (-1000 <= L <= inject_Z now)%Q ->
  0 <= now ->
  exists L',
    _lidOpenTimeout (lidTransition now this) = Fin L'
    /\ (-1000 <= L' <= inject_Z now)%Q.
Proof.
  intros HL RL Hnow.
  assert (Hn : (0 <= inject_Z now)%Q)
    by (change 0%Q with (inject_Z 0); now rewrite <- Zle_Qle).
  unfold lidTransition. destruct (setPointReached now this).
  - exists 0%Q. split; [|lra].
    destruct (PIDMODE_eqb (_pidMode this) STARTUP); fields this; reflexivity.
  - destruct (neqb _ _).
    + unfold lidOpenResumeCountdown. rewrite HL.
      assert (H : isFin ((of_Z now - Fin L) / Fin 1000 * Fin 1000
                         - of_Z TEMP_MEASURE_PERIOD)%num
                    ((inject_Z now - L) / 1000 * 1000 - 1000)%Q).
      { repeat first [ apply isFin_sub | apply isFin_mul | apply isFin_div
                     | apply isFin_Fin | apply isFin_of_Z ].
        discriminate. }
      destruct H as (L' & E & HL').
      exists L'. split.
      * rewrite <- E. fields this. reflexivity.
      * rewrite HL'. 
        setoid_replace ((inject_Z now - L) / 1000 * 1000 - 1000)%Q
          with (inject_Z now - L - 1000)%Q by field.
        lra.
    + exists L. split; [assumption|lra].
Qed.

(** X11.  The lid is never open after a call of [doWork]: a lid timeout
    between -1000 and the clock stays between them through every call that
    returns, so that [isLidOpen] is false at the time of the call and at
    every later time. *)
Theorem doWork_lid_never_open now this delay this' evs (L : Q) :
  doWork now this = Return delay this' evs ->
  _lidOpenTimeout this = Fin L ->
  (-1000 <= L <= inject_Z now)%Q ->
  0 <= now ->
  exists L',
    _lidOpenTimeout this' = Fin L'
    /\ (-1000 <= L' <= inject_Z now)%Q
    /\ forall t, now <= t -> isLidOpen t this' = false.
Proof.
  intros H HL RL Hnow.
  assert (HL' : exists L',
            _lidOpenTimeout this' = Fin L'
            /\ (-1000 <= L' <= inject_Z now)%Q).
  { destruct (Z.lt_ge_cases (now - _lastWorkMillis this) TEMP_MEASURE_PERIOD)
      as [Hsub|Hheavy].
    - rewrite (doWork_sub_tick now this Hsub) in H. injection H as _ <- _.
      destruct (afterSubTick_fields now this) as (? & ? & ? & ->).
      exists L. split; [|assumption]. rewrite <- HL. fields this. reflexivity.
    - destruct (heavy_tick_commits now this delay this' evs Hheavy H)
        as (s & evs' & Hcommit & _ & Hs & _).
      destruct Hs as (u & terms' & avg' & cnt' & rem' & blw' & Hs).
      apply commitPidOutput_fields in Hcommit.
      destruct Hcommit as (? & ? & ? & ? & ? & ? & ? & ->).
      destruct (lidTransition_timeout now s L) as (L' & E & RL');
        try assumption.
      { rewrite Hs, <- HL. fields this. reflexivity. }
      exists L'. split; [|assumption]. rewrite <- E.
      destruct (lidTransition now s) as
        [? ? ? ? ? ? ? ? ? ? ? ? ? ? ? ? ? ? ? ? ? ? ? ? ? ? ? ?].
      reflexivity. }
  destruct HL' as (L' & E & RL'). exists L'.
  split; [assumption|]. split; [assumption|].
  intros t Ht. unfold isLidOpen. rewrite E.
  apply (isFin_ltb_false _ _ (inject_Z t) L');
    [apply isFin_of_Z|apply isFin_Fin|].
  apply Qle_trans with (inject_Z now); [tauto|]. now rewrite <- Zle_Qle.
Qed.

Lemma doWork_lid_never_open_witness :
  exists L',
    _lidOpenTimeout pit_after_tick = Fin L'
    /\ (-1000 <= L' <= inject_Z (t0 + 1000))%Q
    /\ forall t, t0 + 1000 <= t -> isLidOpen t pit_after_tick = false.
Proof.
  apply (doWork_lid_never_open (t0 + 1000) pit_at_200 250 pit_after_tick
           (emitted_by (doWork (t0 + 1000) pit_at_200)) 0).
  - vm_compute. reflexivity.
  - reflexivity.
  - split; vm_compute; discriminate.
  - vm_compute. discriminate.
Defined.

(** *** A heavy tick without a temperature *)

Lemma lidTransition_fields now this :
  exists terms' mode' timeout',
    lidTransition now this
    = set_lidOpenTimeout timeout'
        (set_pidMode mode' (set_pidCurrent terms' this)).
Proof.
  unfold lidTransition.
  destruct (setPointReached now this);
    [destruct (PIDMODE_eqb (_pidMode this) STARTUP)|destruct (neqb _ _)].
  all: fields this; run; do 3 eexists; reflexivity.
Qed.

Lemma mul_0_not_above a r :
  0 <= r -> (a * Fin 0 >? of_Z r)%num = false.
Proof.
  intro Hr. unfold gtb.
  destruct a as [x| | |]; try reflexivity.
  apply (isFin_ltb_false _ _ (inject_Z r) (x * 0)%Q).
  - apply isFin_of_Z.
  - apply isFin_mul; apply isFin_Fin.
  - rewrite Qmult_0_r. change 0%Q with (inject_Z 0). now rewrite <- Zle_Qle.
Qed.

Lemma fanCommitted_stopped this :
  (_pidOutput this <? _fanActiveFloor this)%num = true ->
  0 <= _longPwmTmr this ->
  fanCommitted this = Fin 0 /\ fanEmitted this = Fin 0.
Proof.
  intros Hlow Htmr.
  assert (Ht : fanTarget this = Fin 0) by (unfold fanTarget; now rewrite Hlow).
  assert (Hc : fanCommitted this = Fin 0).
  { unfold fanCommitted, pulseTarget. rewrite Ht.
    destruct (Fin 0 >=? _fanMinSpeed this)%num; [reflexivity|].
    rewrite mul_0_not_above; [reflexivity|].
    unfold TEMP_MEASURE_PERIOD. lia. }
  split; [assumption|]. unfold fanEmitted. rewrite Hc. reflexivity.
Qed.

Lemma hasTemperature_startHeavyTick now this :
  hasTemperature (startHeavyTick now this)
  = hasTemperature (_tempProbeProcessPeriod this).
Proof.
  destruct (startHeavyTick_fields now this) as (? & ? & ? & ? & -> & ->).
  unfold hasTemperature, get_numProbes, _tempProbeProcessPeriod.
  fields this. destruct temp; reflexivity.
Qed.

(** X12.  In an automatic mode a heavy tick without a temperature (no probe,
    or a fused temperature or an average that is null or NaN) commits the
    output 0; when the active floor of the fan is positive it stops the
    fan: the fan is committed at 0, the [fan] event of the commit carries 0
    and the [status] event reports the output 0 and the fan at 0. *)
Theorem heavy_tick_without_temperature now this delay this' evs :
  TEMP_MEASURE_PERIOD <= now - _lastWorkMillis this ->
  PIDMODE_val (_pidMode this) <= AUTO_LAST ->
  hasTemperature (_tempProbeProcessPeriod this) = false ->
  (Fin 0 <? _fanActiveFloor this)%num = true ->
  0 <= _longPwmTmr this ->
  doWork now this = Return delay this' evs ->
  _pidOutput this' = Fin 0
  /\ _fanPct this' = Fin 0
  /\ exists before after report,
       evs = before ++ output fan (Fin 0) :: after ++ [status report]
       /\ pidOutput report = Fin 0
       /\ fanPct report = Fin 0.
Proof.
  intros Hheavy Hauto Htemp Hfloor Htmr H.
  destruct (doWork_heavy_tick now this delay this' evs Hheavy H)
    as (s & evs' & Hs & Hcommit & -> & _).
  apply Z.leb_le in Hauto. rewrite Hauto in Hs.
  rewrite calcPidOutput_without_temperature in Hs
    by (now rewrite hasTemperature_startHeavyTick).
  injection Hs as <-.
  destruct (commitPidOutput_fan _ _ _ Hcommit)
    as (report & -> & Hpct & Hrpct & Hrout & Hout).
  destruct (lidTransition_fields now
              (set_pidOutput (Fin 0) (startHeavyTick now this)))
    as (terms' & mode' & timeout' & E).
  destruct (startHeavyTick_fields now this)
    as (avg' & cnt' & rem' & blw' & Es & _).
  rewrite E, Es in *. clear E Es.
  match type of Hpct with _ = fanCommitted ?s5 =>
    destruct (fanCommitted_stopped s5) as [Hc He]
  end.
  { revert Hfloor. fields this. run. auto. }
  { revert Htmr. fields this. run. auto. }
  rewrite Hc in *. rewrite He. clear Hc He.
  split; [|split].
  - rewrite Hout. fields this. reflexivity.
  - assumption.
  - do 3 eexists. split; [reflexivity|]. split; [|assumption].
    rewrite Hrout. fields this. reflexivity.
Qed.

Lemma heavy_tick_without_temperature_witness :
  _pidOutput (this_after (doWork (t0 + 1000) pit_without_probe)) = Fin 0
  /\ _fanPct (this_after (doWork (t0 + 1000) pit_without_probe)) = Fin 0
  /\ exists before after report,
       emitted_by (doWork (t0 + 1000) pit_without_probe)
       = before ++ output fan (Fin 0) :: after ++ [status report]
       /\ pidOutput report = Fin 0
       /\ fanPct report = Fin 0.
Proof.
  apply (heavy_tick_without_temperature (t0 + 1000) pit_without_probe 250).
  - vm_compute. discriminate.
  - vm_compute. discriminate.
  - vm_compute. reflexivity.
  - vm_compute. reflexivity.
  - vm_compute. discriminate.
  - vm_compute. reflexivity.
Defined.

(** *** The values of the fan events *)

Lemma isPercentage_100 : isPercentage (Fin 100).
Proof. exists 100%Q. split; [reflexivity|lra]. Qed.

Lemma mul_NaN_r a : (a * NaN)%num = NaN.
Proof. destruct a; reflexivity. Qed.

Lemma fanValues_app evs1 evs2 :
  fanValues (evs1 ++ evs2) = fanValues evs1 ++ fanValues evs2.
Proof. apply flat_map_app. Qed.

Lemma fanValues_servoEvents u this : fanValues (servoEvents u this) = [].
Proof. unfold servoEvents. destruct (servoMoves u this); reflexivity. Qed.

(** X6.  The quota of the long PWM.  With the output from 0 to 100, the
    active floor from 0 to 99, the maximum speed of the mode from 0 to 100
    and the period counter from 0 to 9, [_commitFanOutput] leaves the
    counter from 0 to 9, and it leaves a quota that is 0 or positive: a
    positive quota only with the fan committed at [fan_min_speed].  When the
    output is below the active floor the fan is stopped, without a quota:
    the event carries 0. *)
Theorem commitFanOutput_quota this (out floor maxs mins : Q) :
  _pidOutput this = Fin out ->
  _fanActiveFloor this = Fin floor ->
  fanCurrentMaxSpeed this = Fin maxs ->
  _fanMinSpeed this = Fin mins ->
  (0 <= out <= 100)%Q ->
  (0 <= floor <= 99)%Q ->
  (0 <= maxs <= 100)%Q ->
  0 <= _longPwmTmr this <= 9 ->
  exists this' v,
    _commitFanOutput this = Return tt this' [output fan v]
    /\ 0 <= _longPwmTmr this' <= 9
    /\ (_longPwmRemaining this' = Fin 0
        \/ ((Fin 0 <? _longPwmRemaining this')%num = true
            /\ _fanPct this' = Fin mins))
    /\ ((out < floor)%Q ->
        v = Fin 0
        /\ _fanPct this' = Fin 0
        /\ _lastBlowerOutput this' = Fin 0
        /\ _longPwmRemaining this' = Fin 0).
Proof.
  intros Hout Hfloor Hmax Hmin Rout Rfloor Rmax Rtmr.
  destruct (commitFanOutput_committed this)
    as (this' & E & Hpct & Hblower & _ & Htmr & Hrem).
  exists this', (fanEmitted this). split; [assumption|].
  destruct (fanTarget_finite this out floor maxs)
    as (t & Ht & Rt); try assumption.
  split; [|split].
  - rewrite Htmr. change (TEMP_LONG_PWM_CNT - 1) with 9.
    destruct (fanTarget this >=? _fanMinSpeed this)%num; [lia|].
    destruct (_longPwmTmr this + 1 >? 9) eqn:Ew; [lia|].
    rewrite Z.gtb_ltb in Ew. apply Z.ltb_ge in Ew. lia.
  - rewrite Hrem, Hpct. unfold fanCommitted.
    destruct (fanTarget this >=? _fanMinSpeed this)%num eqn:Elow;
      [left; reflexivity|].
    destruct (pulseTarget this
                >? of_Z (_longPwmTmr this * TEMP_MEASURE_PERIOD))%num
      eqn:Epulse; [|left; reflexivity].
    right. split; [|assumption].
    rewrite Ht, Hmin in Elow.
    apply (isFin_leb_false _ _ mins t) in Elow; try apply isFin_Fin.
    assert (Hmins : ~ (mins == 0)%Q) by lra.
    assert (Hp : isFin (pulseTarget this) (10000 / mins * t)%Q).
    { unfold pulseTarget. rewrite Ht, Hmin.
      apply isFin_mul; [|apply isFin_Fin].
      apply isFin_div; [apply isFin_of_Z|apply isFin_Fin|assumption]. }
    pose proof (isFin_of_Z (_longPwmTmr this * TEMP_MEASURE_PERIOD)) as Hn.
    unfold gtb in Epulse.
    apply (isFin_ltb _ _ _ _ Hn Hp) in Epulse.
    apply (isFin_ltb _ _ 0%Q
             (10000 / mins * t
              - inject_Z (_longPwmTmr this * TEMP_MEASURE_PERIOD))%Q);
      [apply isFin_Fin|now apply isFin_sub|lra].
  - intro Hlow.
    assert (Hb : (_pidOutput this <? _fanActiveFloor this)%num = true).
    { rewrite Hout, Hfloor.
      now apply (isFin_ltb _ _ out floor); try apply isFin_Fin. }
    destruct (fanCommitted_stopped this Hb) as [Hc He]; [lia|].
    rewrite He, Hpct, Hblower, Hrem, Hc.
    split; [reflexivity|]. split; [reflexivity|]. split; [reflexivity|].
    unfold fanCommitted in Hc.
    destruct (fanTarget this >=? _fanMinSpeed this)%num; [reflexivity|].
    destruct (pulseTarget this
                >? of_Z (_longPwmTmr this * TEMP_MEASURE_PERIOD))%num
      eqn:Epulse; [|reflexivity].
    exfalso. revert Epulse. unfold pulseTarget, fanTarget. rewrite Hb.
    rewrite mul_0_not_above; [discriminate|].
    unfold TEMP_MEASURE_PERIOD. lia.
Qed.

Lemma commitFanOutput_quota_witness :
  exists this' v,
    _commitFanOutput pit_manual = Return tt this' [output fan v]
    /\ 0 <= _longPwmTmr this' <= 9
    /\ (_longPwmRemaining this' = Fin 0
        \/ ((Fin 0 <? _longPwmRemaining this')%num = true
            /\ _fanPct this' = Fin 50))
    /\ ((255 # 4 < 50)%Q ->
        v = Fin 0
        /\ _fanPct this' = Fin 0
        /\ _lastBlowerOutput this' = Fin 0
        /\ _longPwmRemaining this' = Fin 0).
Proof.
  apply (commitFanOutput_quota pit_manual (255 # 4) 50 80 50);
    try reflexivity; split; unfold Qle; simpl; lia.
Defined.

Lemma isPercentage_isSpeed a : isPercentage a -> isSpeed a.
Proof. intros (q & -> & Hq). exists q. split; [reflexivity|tauto]. Qed.

Lemma isSpeed_0 : isSpeed (Fin 0).
Proof. exists 0%Q. split; [reflexivity|apply Qle_refl]. Qed.

Lemma fanCommitted_isSpeed this (floor : Q) :
  isOutput (_pidOutput this) ->
  _fanActiveFloor this = Fin floor ->
  (0 <= floor <= 99)%Q ->
  isPercentage (_fanMaxSpeed this) ->
  isPercentage (_fanMaxStartupSpeed this) ->
  isPercentage (_fanMinSpeed this) ->
  isSpeed (fanCommitted this) /\ isSpeed (fanEmitted this).
Proof.
  intros Hout Hfloor Rfloor Hmax Hstart (mins & Hmin & Rmin).
  assert (Hcur : isPercentage (fanCurrentMaxSpeed this))
    by (unfold fanCurrentMaxSpeed; destruct (PIDMODE_eqb _ _); assumption).
  destruct Hcur as (maxs & Hcur & Rmaxs).
  assert (Hc : isSpeed (fanCommitted this)).
  { destruct Hout as [Hnan|(out & Hout & Rout)].
    - assert (Ht : fanTarget this = NaN)
        by (unfold fanTarget; rewrite Hnan, Hfloor, Hcur; reflexivity).
      unfold fanCommitted, pulseTarget. rewrite Ht, Hmin, mul_NaN_r.
      apply isSpeed_0.
    - destruct (fanCommitted_stopped_or_running this out floor maxs mins)
        as (pct & -> & Hpct); try assumption.
      exists pct. split; [reflexivity|].
      destruct Hpct as [Hpct|Hpct]; [rewrite Hpct; apply Qle_refl|].
      apply Qle_trans with mins; tauto. }
  split; [assumption|].
  unfold fanEmitted.
  destruct (Num.eqb (fanCommitted this) (Fin 0)); [apply isSpeed_0|].
  destruct (Num.eqb _ _);
    [apply isPercentage_isSpeed, isPercentage_100|assumption].
Qed.

(** X13.  With the settings of the fan in range (the active floor from 0 to
    99, the three speeds from 0 to 100) and an output that is a percentage
    or NaN, every [fan] event of a call of [doWork] that returns carries a
    finite number that is not negative: never NaN, also when the output is
    NaN, never an infinity, and never a number below 0. *)
Theorem doWork_fan_events_are_speeds now this delay this' evs (floor : Q) :
  doWork now this = Return delay this' evs ->
  isOutput (_pidOutput this) ->
  _fanActiveFloor this = Fin floor ->
  (0 <= floor <= 99)%Q ->
  isPercentage (_fanMaxSpeed this) ->
  isPercentage (_fanMaxStartupSpeed this) ->
  isPercentage (_fanMinSpeed this) ->
  Forall isSpeed (fanValues evs).
Proof.
  intros H Hout Hfloor Rfloor Hmax Hstart Hmin.
  assert (Hpre : Forall isSpeed
                   (fanValues (if quotaExhausted now this
                               then [output fan (_fanMaxSpeed this)]
                               else []))).
  { destruct (quotaExhausted now this); cbn;
      auto using isPercentage_isSpeed. }
  destruct (Z.lt_ge_cases (now - _lastWorkMillis this) TEMP_MEASURE_PERIOD)
    as [Hsub|Hheavy].
  - rewrite (doWork_sub_tick now this Hsub) in H. injection H as _ _ <-.
    assumption.
  - destruct (doWork_heavy_tick now this delay this' evs Hheavy H)
      as (s & evs' & Hs & Hcommit & -> & _).
    destruct (commitPidOutput_fan _ _ _ Hcommit) as (report & -> & _).
    rewrite fanValues_app. apply Forall_app. split; [assumption|].
    change (output fan ?v :: ?l) with ([output fan v] ++ l).
    rewrite !fanValues_app, fanValues_servoEvents. cbn.
    constructor; [|constructor].
    assert (Hs' : isOutput (_pidOutput s)
                  /\ exists u terms',
                       s = set_pidOutput u
                             (set_pidCurrent terms' (startHeavyTick now this))).
    { destruct (PIDMODE_val (_pidMode this) <=? AUTO_LAST).
      - split.
        + pose proof (calcPidOutput_keeps_output (startHeavyTick now this))
            as Hk.
          rewrite Hs in Hk. apply Hk.
          destruct (startHeavyTick_fields now this)
            as (? & ? & ? & ? & -> & _).
          revert Hout. fields this. run. auto.
        + now apply calcPidOutput_fields in Hs.
      - subst s. split.
        + destruct (startHeavyTick_fields now this)
            as (? & ? & ? & ? & -> & _).
          revert Hout. fields this. run. auto.
        + exists (_pidOutput (startHeavyTick now this)),
            (_pidCurrent (startHeavyTick now this)).
          destruct (startHeavyTick now this). reflexivity. }
    destruct Hs' as (Hout' & u & terms' & Es).
    destruct (lidTransition_fields now s) as (? & ? & ? & E).
    destruct (startHeavyTick_fields now this) as (? & ? & ? & ? & E3 & _).
    apply (fanCommitted_isSpeed _ floor).
    + rewrite E. revert Hout'. fields s. run. auto.
    + rewrite E, Es, E3, <- Hfloor. fields this. reflexivity.
    + assumption.
    + rewrite E, Es, E3. revert Hmax. fields this. run. auto.
    + rewrite E, Es, E3. revert Hstart. fields this. run. auto.
    + rewrite E, Es, E3. revert Hmin. fields this. run. auto.
Qed.
Lemma doWork_fan_events_are_speeds_witness :
  Forall isSpeed (fanValues (emitted_by (doWork (t0 + 1000) pit_at_200))).
Proof.
  apply (doWork_fan_events_are_speeds (t0 + 1000) pit_at_200 250
           pit_after_tick _ 50).
  - vm_compute. reflexivity.
  - right. exists 0%Q. split; [reflexivity|]. split; vm_compute; discriminate.
  - reflexivity.
  - split; vm_compute; discriminate.
  - exists 80%Q. split; [reflexivity|]. split; vm_compute; discriminate.
  - exists 100%Q. split; [reflexivity|]. split; vm_compute; discriminate.
  - exists 50%Q. split; [reflexivity|]. split; vm_compute; discriminate.
Defined.

(** ** The timer *)

Lemma afterSubTick_keeps now this :
  let this' := afterSubTick now this in
  _lastWorkMillis this' = _lastWorkMillis this
  /\ _fanMaxSpeed this' = _fanMaxSpeed this
  /\ _pidOutput this' = _pidOutput this
  /\ _pidCurrent this' = _pidCurrent this
  /\ _pidMode this' = _pidMode this
  /\ (quotaExhausted now this = true -> _longPwmRemaining this' = Fin 0)
  /\ (quotaExhausted now this = false ->
      _longPwmRemaining this' = _longPwmRemaining this).
Proof.
  cbv zeta. unfold afterSubTick.
  destruct (quotaExhausted now this);
    match goal with |- context [if ?b then _ else _] => destruct b end;
    fields this; repeat split; try reflexivity; discriminate.
Qed.

Lemma quotaExhausted_nothing_left now this :
  _longPwmRemaining this = Fin 0 -> quotaExhausted now this = false.
Proof. unfold quotaExhausted. now intros ->. Qed.

Lemma heavy_tick_lastWorkMillis now this delay this' evs :
  TEMP_MEASURE_PERIOD <= now - _lastWorkMillis this ->
  doWork now this = Return delay this' evs ->
  _lastWorkMillis this' = now /\ delay = DO_WORK_PERIOD.
Proof.
  intros Hheavy H.
  destruct (doWork_heavy_tick now this delay this' evs Hheavy H)
    as (s & evs' & _ & Hcommit & _ & Hd).
  split; [|assumption].
  destruct (heavy_tick_commits now this delay this' evs Hheavy H)
    as (s' & evs'' & Hcommit' & _ & Hs & _).
  destruct Hs as (u & terms' & avg' & cnt' & rem' & blw' & ->).
  apply commitPidOutput_fields in Hcommit'.
  destruct Hcommit' as (? & ? & ? & ? & ? & ? & ? & ->).
  match goal with |- context [lidTransition now ?s] =>
    destruct (lidTransition_fields now s) as (? & ? & ? & ->)
  end.
  fields this. reflexivity.
Qed.

(** X14.  One heavy tick in four calls.  After a heavy tick at the time
    [now], the three calls that the timer makes next, 250, 500 and 750 ms
    later, are sub-ticks: they leave the output, the three terms and the
    mode of the PID as the heavy tick left them, and emit nothing but, at
    most once, the [fan] event that ends a pulse of the long PWM.  The call
    after them comes TEMP_MEASURE_PERIOD after the heavy tick and is the
    next heavy tick. *)
Theorem heavy_tick_every_fourth_call now this delay this1 evs :
  TEMP_MEASURE_PERIOD <= now - _lastWorkMillis this ->
  doWork now this = Return delay this1 evs ->
  exists o1 o2 o3 this4,
    schedule 3 (now + delay) this1 = ([o1; o2; o3], this4)
    /\ (o1 ++ o2 ++ o3 = []
        \/ o1 ++ o2 ++ o3 = [output fan (_fanMaxSpeed this1)])
    /\ _pidOutput this4 = _pidOutput this1
    /\ _pidCurrent this4 = _pidCurrent this1
    /\ _pidMode this4 = _pidMode this1
    /\ now + delay + 3 * DO_WORK_PERIOD - _lastWorkMillis this4
       = TEMP_MEASURE_PERIOD.
Proof.
  intros Hheavy H.
  destruct (heavy_tick_lastWorkMillis now this delay this1 evs Hheavy H)
    as [Hlast ->].
  clear H Hheavy this evs.
  set (t1 := now + DO_WORK_PERIOD).
  set (s2 := afterSubTick t1 this1).
  set (s3 := afterSubTick (t1 + DO_WORK_PERIOD) s2).
  set (s4 := afterSubTick (t1 + DO_WORK_PERIOD + DO_WORK_PERIOD) s3).
  destruct (afterSubTick_keeps t1 this1)
    as (L2 & F2 & U2 & C2 & M2 & Q2 & Q2').
  destruct (afterSubTick_keeps (t1 + DO_WORK_PERIOD) s2)
    as (L3 & F3 & U3 & C3 & M3 & Q3 & Q3').
  destruct (afterSubTick_keeps (t1 + DO_WORK_PERIOD + DO_WORK_PERIOD) s3)
    as (L4 & F4 & U4 & C4 & M4 & Q4 & Q4').
  fold s2 in L2, F2, U2, C2, M2, Q2, Q2'.
  fold s3 in L3, F3, U3, C3, M3, Q3, Q3'.
  fold s4 in L4, F4, U4, C4, M4, Q4, Q4'.
  assert (E1 : doWork t1 this1
               = Return DO_WORK_PERIOD s2
                   (if quotaExhausted t1 this1
                    then [output fan (_fanMaxSpeed this1)] else [])).
  { apply doWork_sub_tick. rewrite Hlast. unfold t1.
    change DO_WORK_PERIOD with 250. change TEMP_MEASURE_PERIOD with 1000.
    lia. }
  assert (E2 : doWork (t1 + DO_WORK_PERIOD) s2
               = Return DO_WORK_PERIOD s3
                   (if quotaExhausted (t1 + DO_WORK_PERIOD) s2
                    then [output fan (_fanMaxSpeed s2)] else [])).
  { apply doWork_sub_tick. rewrite L2, Hlast. unfold t1.
    change DO_WORK_PERIOD with 250. change TEMP_MEASURE_PERIOD with 1000.
    lia. }
  assert (E3 : doWork (t1 + DO_WORK_PERIOD + DO_WORK_PERIOD) s3
               = Return DO_WORK_PERIOD s4
                   (if quotaExhausted (t1 + DO_WORK_PERIOD + DO_WORK_PERIOD)
                         s3
                    then [output fan (_fanMaxSpeed s3)] else [])).
  { apply doWork_sub_tick. rewrite L3, L2, Hlast. unfold t1.
    change DO_WORK_PERIOD with 250. change TEMP_MEASURE_PERIOD with 1000.
    lia. }
  do 3 eexists. exists s4.
  split; [cbn [schedule]; fold t1; rewrite E1, E2, E3; reflexivity|].
  split; [|split; [congruence|split; [congruence|split; [congruence|]]]].
  - rewrite F3, F2.
    destruct (quotaExhausted t1 this1) eqn:q1.
    + rewrite (quotaExhausted_nothing_left _ s2 (Q2 eq_refl)).
      rewrite (quotaExhausted_nothing_left _ s3)
        by (rewrite Q3'; [apply Q2; reflexivity|];
            apply quotaExhausted_nothing_left, Q2; reflexivity).
      right. reflexivity.
    + destruct (quotaExhausted (t1 + DO_WORK_PERIOD) s2) eqn:q2.
      * rewrite (quotaExhausted_nothing_left _ s3 (Q3 eq_refl)).
        right. reflexivity.
      * destruct (quotaExhausted _ s3); [right|left]; reflexivity.
  - rewrite L4, L3, L2, Hlast.
    unfold t1. change DO_WORK_PERIOD with 250.
    change TEMP_MEASURE_PERIOD with 1000. lia.
Qed.

Lemma heavy_tick_every_fourth_call_witness :
  exists o1 o2 o3 this4,
    schedule 3 (t0 + 1000 + 250) pit_after_tick = ([o1; o2; o3], this4)
    /\ (o1 ++ o2 ++ o3 = []
        \/ o1 ++ o2 ++ o3 = [output fan (_fanMaxSpeed pit_after_tick)])
    /\ _pidOutput this4 = _pidOutput pit_after_tick
    /\ _pidCurrent this4 = _pidCurrent pit_after_tick
    /\ _pidMode this4 = _pidMode pit_after_tick
    /\ t0 + 1000 + 250 + 3 * DO_WORK_PERIOD - _lastWorkMillis this4
       = TEMP_MEASURE_PERIOD.
Proof.
  apply (heavy_tick_every_fourth_call (t0 + 1000) pit_at_200 250
           pit_after_tick (emitted_by (doWork (t0 + 1000) pit_at_200))).
  - vm_compute. discriminate.
  - vm_compute. reflexivity.
Defined.

(** ** The lid *)

Section KeepsCommit.

Variable R : PitPID -> PitPID -> Prop.
Hypothesis R_refl : forall s, R s s.
Hypothesis R_trans : forall a b c, R a b -> R b c -> R a c.
Hypothesis R_pidCurrent : forall v s, R s (set_pidCurrent v s).
Hypothesis R_pidOutput : forall v s, R s (set_pidOutput v s).
Hypothesis R_pidOutputAvg : forall v s, R s (set_pidOutputAvg v s).
Hypothesis R_longPwmTmr : forall v s, R s (set_longPwmTmr v s).
Hypothesis R_longPwmRemaining : forall v s, R s (set_longPwmRemaining v s).
Hypothesis R_fanPct : forall v s, R s (set_fanPct v s).
Hypothesis R_lastBlowerOutput : forall v s, R s (set_lastBlowerOutput v s).
Hypothesis R_servoPct : forall v s, R s (set_servoPct v s).
Hypothesis R_servoHoldoff : forall v s, R s (set_servoHoldoff v s).



End KeepsCommit.




























(** ** The probes of the controller *)

Section Maps.

Context {V : Type}.
Implicit Types (obj : list (string * V)) (key : string) (value : V).

Lemma lookup_put key value obj : lookup key (put key value obj) = Some value.
Proof.
  induction obj as [|[k v] rest IH]; cbn.
  - now rewrite String.eqb_refl.
  - destruct (String.eqb k key) eqn:E; cbn; rewrite E; auto.
Qed.

Lemma lookup_put_other key key' value obj :
  key' <> key -> lookup key' (put key value obj) = lookup key' obj.
Proof.
  intro Hne. induction obj as [|[k v] rest IH]; cbn.
  - destruct (String.eqb_spec key key'); congruence.
  - destruct (String.eqb_spec k key) as [->|Hk]; cbn.
    + destruct (String.eqb_spec key key'); congruence.
    + now rewrite IH.
Qed.

Lemma keys_put key value obj :
  keys (put key value obj)
  = match lookup key obj with
    | Some _ => keys obj
    | None => keys obj ++ [key]
    end.
Proof.
  induction obj as [|[k v] rest IH]; cbn; [reflexivity|].
  destruct (String.eqb_spec k key) as [->|Hk]; cbn; [reflexivity|].
  unfold keys in IH. rewrite IH. destruct (lookup key rest); reflexivity.
Qed.

Lemma lookup_None_keys key obj : lookup key obj = None <-> ~ In key (keys obj).
Proof.
  induction obj as [|[k v] rest IH]; cbn; [tauto|].
  destruct (String.eqb_spec k key) as [->|Hk].
  - split; [discriminate|]. intro H. exfalso. auto.
  - rewrite IH. tauto.
Qed.

Lemma NoDup_keys_put key value obj :
  NoDup (keys obj) -> NoDup (keys (put key value obj)).
Proof.
  intro H. rewrite keys_put. destruct (lookup key obj) eqn:E; [assumption|].
  apply lookup_None_keys in E.
  apply NoDup_rev in H.
  rewrite <- (rev_involutive (keys obj ++ [key])), rev_unit.
  apply NoDup_rev. constructor; [|assumption].
  now rewrite <- in_rev.
Qed.

Lemma lookup_delete key obj : lookup key (delete key obj) = None.
Proof.
  unfold delete. induction obj as [|[k v] rest IH]; cbn; [reflexivity|].
  destruct (String.eqb_spec k key) as [->|Hk]; cbn; [assumption|].
  destruct (String.eqb_spec k key); [contradiction|assumption].
Qed.

Lemma lookup_delete_other key key' obj :
  key' <> key -> lookup key' (delete key obj) = lookup key' obj.
Proof.
  intro Hne. unfold delete.
  induction obj as [|[k v] rest IH]; cbn; [reflexivity|].
  destruct (String.eqb_spec k key) as [->|Hk]; cbn.
  - destruct (String.eqb_spec key key'); [congruence|assumption].
  - now rewrite IH.
Qed.

Lemma delete_absent key obj : lookup key obj = None -> delete key obj = obj.
Proof.
  unfold delete. induction obj as [|[k v] rest IH]; cbn; [reflexivity|].
  destruct (String.eqb_spec k key) as [->|Hk]; [discriminate|].
  intro H. cbn. now rewrite IH.
Qed.

End Maps.

Lemma delete_all {V} key (obj : list (string * V)) :
  (forall key', In key' (keys obj) -> key' = key) -> delete key obj = [].
Proof.
  unfold delete, keys. induction obj as [|[k v] rest IH]; intro Hall; cbn;
    [reflexivity|].
  rewrite (Hall k) by (now left). rewrite String.eqb_refl. cbn.
  apply IH. intros a Ha. apply Hall. now right.
Qed.

Lemma Units_eqb_eq a b : Units_eqb a b = true <-> a = b.
Proof. destruct a, b; cbn; split; congruence. Qed.

(** X15.  [updateProbe] records the reading of a probe of the manufacturer,
    whose address starts with the OUI B8:1F:5E as that of every probe that
    the daemon connects, under that address: the entry of the address holds
    the time and the ambient temperature of the reading, the entries of the
    other addresses are as before, a new address goes last and no address
    comes to be listed twice.  The units of the controller become those of
    the reading, and the average of the temperature is cleared exactly when
    they change.  (Such an address is neither an array index, which an
    object lists first, nor a name that every object inherits, which the
    test [in] finds.) *)
Theorem updateProbe_records_reading sort data this :
  String.prefix APPTION_LABS (Update.address data) = true ->
  let this' := updateProbe sort data this in
  let probes := _connectedProbes this in
  lookup (Update.address data) (_connectedProbes this')
  = Some (mkConnectedProbe (Update.timestamp data) (Update.ambient data))
  /\ (forall address,
        address <> Update.address data ->
        lookup address (_connectedProbes this') = lookup address probes)
  /\ keys (_connectedProbes this')
     = match lookup (Update.address data) probes with
       | Some _ => keys probes
       | None => keys probes ++ [Update.address data]
       end
  /\ (NoDup (keys probes) -> NoDup (keys (_connectedProbes this')))
  /\ _units this' = Some (Update.units data)
  /\ _temperatureAvg this'
     = match _units this with
       | Some units =>
           if Units_eqb (Update.units data) units then _temperatureAvg this
           else None
       | None => None
       end.
Proof.
  intros _. cbv zeta.
  assert (E : _connectedProbes (updateProbe sort data this)
              = put (Update.address data)
                  (mkConnectedProbe (Update.timestamp data)
                     (Update.ambient data))
                  (_connectedProbes this)).
  { unfold updateProbe, _setUnits. fields this. run.
    destruct (negb _); reflexivity. }
  rewrite E. split; [apply lookup_put|].
  split; [intros; now apply lookup_put_other|].
  split; [apply keys_put|]. split; [apply NoDup_keys_put|].
  unfold updateProbe, _setUnits, option_eqb. fields this. run.
  destruct un as [units|]; cbn [negb].
  - destruct (Units_eqb (Update.units data) units) eqn:Eu; cbn [negb]; run.
    + apply Units_eqb_eq in Eu. subst units. split; reflexivity.
    + split; reflexivity.
  - run. split; reflexivity.
Qed.

Lemma updateProbe_records_reading_witness :
  let data := reading (Fin 200) (t0 + 500) in
  let this' := updateProbe sort1 data pit_without_probe in
  let probes := _connectedProbes pit_without_probe in
  lookup (Update.address data) (_connectedProbes this')
  = Some (mkConnectedProbe (Update.timestamp data) (Update.ambient data))
  /\ (forall address,
        address <> Update.address data ->
        lookup address (_connectedProbes this') = lookup address probes)
  /\ keys (_connectedProbes this')
     = match lookup (Update.address data) probes with
       | Some _ => keys probes
       | None => keys probes ++ [Update.address data]
       end
  /\ (NoDup (keys probes) -> NoDup (keys (_connectedProbes this')))
  /\ _units this' = Some (Update.units data)
  /\ _temperatureAvg this'
     = match _units pit_without_probe with
       | Some units =>
           if Units_eqb (Update.units data) units
           then _temperatureAvg pit_without_probe
           else None
       | None => None
       end.
Proof.
  apply (updateProbe_records_reading sort1 (reading (Fin 200) (t0 + 500))
           pit_without_probe).
  reflexivity.
Defined.

(** X16.  [removeProbe] deletes the entry of the address and nothing else: the
    other entries are as before, and an address that is not connected leaves
    the controller as it is.  It does not fuse the temperature again:
    [_currentTemp] stays the one that was fused with the removed probe, and
    only when no probe is left does [hasTemperature] turn false. *)
Theorem removeProbe_forgets_probe address this :
  let this' := removeProbe address this in
  let probes := _connectedProbes this in
  lookup address (_connectedProbes this') = None
  /\ (forall address',
        address' <> address ->
        lookup address' (_connectedProbes this') = lookup address' probes)
  /\ (lookup address probes = None -> this' = this)
  /\ _currentTemp this' = _currentTemp this
  /\ ((forall address', In address' (keys probes) -> address' = address) ->
      hasTemperature this' = false).
Proof.
  cbv zeta.
  assert (E : _connectedProbes (removeProbe address this)
              = delete address (_connectedProbes this))
    by (unfold removeProbe; fields this; reflexivity).
  rewrite E. split; [apply lookup_delete|].
  split; [intros; now apply lookup_delete_other|].
  split; [|split].
  - intro H. unfold removeProbe. rewrite (delete_absent _ _ H).
    fields this. reflexivity.
  - unfold removeProbe. fields this. reflexivity.
  - intro Hall. unfold hasTemperature, get_numProbes. rewrite E.
    rewrite (delete_all _ _ Hall). reflexivity.
Qed.

Lemma calcLowerTrimmedMean_single sort (x : Q) :
  (forall arr, Permutation (sort arr) arr) ->
  calcLowerTrimmedMean sort [Fin x] TEMP_DEV_THRESHOLD = Fin (Qred x).
Proof.
  intro Hsort.
  assert (Hk : (0 <= 1 # 2)%Q) by discriminate.
  change [Fin x] with (map Fin [x]). unfold TEMP_DEV_THRESHOLD.
  rewrite (calcLowerTrimmedMean_retained sort Hsort (1 # 2) x [] Hk).
  f_equal. apply Qred_complete.
  unfold retained. cbn [filter].
  rewrite (retains_above_mean (1 # 2) [x] x Hk).
  - unfold Qmean, Qsum. simpl. field.
  - unfold Qmean, Qsum. simpl. field_simplify. apply Qle_refl.
Qed.

(** X17.  With one probe connected, the probe of the reading, [updateProbe]
    takes the ambient temperature of the reading as the temperature of the
    pit: the fusion of a single reading is the reading. *)
Theorem updateProbe_single_probe sort data this (a : Q) :
  (forall arr, Permutation (sort arr) arr) ->
  get_numProbes (updateProbe sort data this) = 1%nat ->
  Update.ambient data = Fin a ->
  _currentTemp (updateProbe sort data this) = Some (Fin (Qred a)).
Proof.
  intros Hsort Hone Ha.
  destruct (updateProbe_fuses sort data this) as [_ ->].
  assert (E : _connectedProbes (updateProbe sort data this)
              = put (Update.address data)
                  (mkConnectedProbe (Update.timestamp data)
                     (Update.ambient data))
                  (_connectedProbes this)).
  { unfold updateProbe, _setUnits. fields this. run.
    destruct (negb _); reflexivity. }
  pose proof (lookup_put (Update.address data)
                (mkConnectedProbe (Update.timestamp data)
                   (Update.ambient data)) (_connectedProbes this)) as Hl.
  unfold get_numProbes in Hone. unfold allAmbientTemps.
  rewrite E in *.
  destruct (put _ _ _) as [|[k v] [|? ?]]; try discriminate Hone.
  cbn in Hl. destruct (String.eqb k (Update.address data)); [|discriminate].
  injection Hl as ->. cbn. rewrite Ha.
  f_equal. now apply calcLowerTrimmedMean_single.
Qed.

Lemma updateProbe_single_probe_witness :
  _currentTemp pit_at_200 = Some (Fin (Qred 200)).
Proof.
  apply (updateProbe_single_probe sort1 (reading (Fin 200) (t0 + 500))
           (setPoint_setter (Some (Fin 250)) (this_after (new_PitPID t0)))
           200).
  - intro arr. apply Permutation_refl.
  - vm_compute. reflexivity.
  - reflexivity.
Defined.

(** *** The derivative after a change of units *)

Lemma heavy_tick_D_term now this delay this' evs :
  TEMP_MEASURE_PERIOD <= now - _lastWorkMillis this ->
  PIDMODE_val (_pidMode this) <= AUTO_LAST ->
  hasTemperature (_tempProbeProcessPeriod this) = true ->
  (Fin 0 <=? Pid.P (_Pid this))%num = true ->
  doWork now this = Return delay this' evs ->
  Pid.D (_pidCurrent this') = dTerm (_tempProbeProcessPeriod this).
Proof.
  intros Hheavy Hauto Htemp HP H.
  destruct (doWork_heavy_tick now this delay this' evs Hheavy H)
    as (s & evs' & Hs & Hcommit & _ & _).
  apply Z.leb_le in Hauto. rewrite Hauto in Hs.
  destruct (startHeavyTick_fields now this)
    as (avg' & cnt' & rem' & blw' & E & Eavg).
  rewrite calcPidOutput_in_control in Hs.
  - injection Hs as <-.
    apply commitPidOutput_fields in Hcommit.
    destruct Hcommit as (? & ? & ? & ? & ? & ? & ? & ->).
    match goal with |- context [lidTransition now ?s] =>
      destruct (lidTransition_fields now s) as (terms' & mode' & to' & E');
      assert (ED : Pid.D (_pidCurrent (lidTransition now s))
                   = Pid.D (_pidCurrent s))
    end.
    { unfold lidTransition.
      destruct (setPointReached now _);
        [destruct (PIDMODE_eqb _ STARTUP)|destruct (neqb _ _)];
        rewrite E; fields this; reflexivity. }
    match goal with |- Pid.D (_pidCurrent ?x) = _ =>
      transitivity (Pid.D (_pidCurrent (lidTransition now
         (set_pidOutput (pidControl (startHeavyTick now this))
            (set_pidCurrent
               {| Pid.P := pTermOnError (startHeavyTick now this);
                  Pid.I := iTerm (startHeavyTick now this);
                  Pid.D := dTerm (startHeavyTick now this) |}
               (startHeavyTick now this))))))
    end.
    { destruct (lidTransition now _). reflexivity. }
    rewrite ED, E, Eavg. unfold dTerm, _tempProbeProcessPeriod.
    fields this. destruct temp; reflexivity.
  - now rewrite hasTemperature_startHeavyTick.
  - rewrite E. revert HP. fields this. run. auto.
Qed.

(** X18.  No derivative kick after a change of units.  When a reading
    changes the units of the controller, [updateProbe] clears the average
    of the temperature, and the next heavy tick takes the fused temperature
    as the new average: its D term is 0, whatever the average was in the
    old units. *)
Theorem unit_change_clears_derivative sort data this0 now delay this' evs
  (t d : Q) :
  let this := updateProbe sort data this0 in
  _units this0 <> Some (Update.units data) ->
  _currentTemp this = Some (Fin t) ->
  Pid.D (_Pid this0) = Fin d ->
  TEMP_MEASURE_PERIOD <= now - _lastWorkMillis this ->
  PIDMODE_val (_pidMode this) <= AUTO_LAST ->
  (Fin 0 <=? Pid.P (_Pid this))%num = true ->
  doWork now this = Return delay this' evs ->
  _temperatureAvg this = None /\ Pid.D (_pidCurrent this') = Fin 0.
Proof.
  cbv zeta. intros Hunits Htemp HD Hheavy Hauto HP H.
  set (this := updateProbe sort data this0) in *.
  assert (Havg : _temperatureAvg this = None).
  { unfold this, updateProbe, _setUnits, option_eqb.
    revert Hunits. fields this0. run. intro Hunits.
    destruct un as [units|]; cbn [negb]; run; [|reflexivity].
    destruct (Units_eqb (Update.units data) units) eqn:Eu; cbn [negb]; run;
      [|reflexivity].
    apply Units_eqb_eq in Eu. congruence. }
  split; [assumption|].
  assert (Hprobes : _connectedProbes this <> [])
    by apply (updateProbe_fuses sort data this0).
  assert (HD' : Pid.D (_Pid this) = Fin d).
  { rewrite <- HD. unfold this, updateProbe, _setUnits.
    fields this0. run. destruct (negb _); reflexivity. }
  rewrite (heavy_tick_D_term now this delay this' evs); try assumption.
  - unfold dTerm, _tempProbeProcessPeriod.
    revert Htemp Havg HD'. generalize this. intro s. fields s. run.
    intros -> -> HD'. run. rewrite HD'. cbn [ToNumber calcExpMovingAverage].
    rewrite sub_Qeq by reflexivity.
    unfold mul. f_equal. apply (Qred_complete (d * 0) 0). ring.
  - unfold hasTemperature, get_numProbes, _tempProbeProcessPeriod.
    revert Htemp Havg Hprobes. generalize this. intro s. fields s. run.
    intros -> -> Hprobes. run. destruct probes; [congruence|reflexivity].
Qed.

Lemma unit_change_clears_derivative_witness :
  _temperatureAvg pit_at_200 = None
  /\ Pid.D (_pidCurrent pit_after_tick) = Fin 0.
Proof.
  apply (unit_change_clears_derivative sort1 (reading (Fin 200) (t0 + 500))
           pit_without_probe (t0 + 1000) 250 pit_after_tick
           (emitted_by (doWork (t0 + 1000) pit_at_200)) 200 6).
  - vm_compute. discriminate.
  - vm_compute. reflexivity.
  - reflexivity.
  - vm_compute. discriminate.
  - vm_compute. discriminate.
  - vm_compute. reflexivity.
  - vm_compute. reflexivity.
Defined.

(** ** Readings that are not numbers *)

Lemma add_NaN_r a : (a + NaN)%num = NaN.
Proof. destruct a; reflexivity. Qed.

Lemma fold_left_NaN {A} (f : A -> num) l :
  fold_left (fun sum value => sum + f value)%num l NaN = NaN.
Proof. induction l as [|x l IH]; cbn [fold_left]; auto. Qed.

Lemma fold_left_In_NaN l a :
  In NaN l -> fold_left (fun sum value => sum + value)%num l a = NaN.
Proof.
  revert a. induction l as [|x l IH]; intros a Hin; [contradiction|].
  destruct Hin as [->|Hin]; cbn [fold_left].
  - rewrite add_NaN_r. apply (fold_left_NaN (fun v => v)).
  - now apply IH.
Qed.

Lemma fold_left_all_NaN (f : num -> num) l a :
  l <> [] -> (forall x, f x = NaN) ->
  fold_left (fun sum value => sum + f value)%num l a = NaN.
Proof.
  intros Hne Hf. destruct l as [|x l]; [congruence|]. cbn [fold_left].
  rewrite Hf, add_NaN_r. apply fold_left_NaN.
Qed.

Lemma filter_none {A} (f : A -> bool) l :
  (forall x, f x = false) -> filter f l = [].
Proof.
  intro H. induction l as [|x l IH]; cbn; [reflexivity|]. now rewrite H.
Qed.

Lemma calcLowerTrimmedMean_NaN sort arr k :
  (forall arr, Permutation (sort arr) arr) ->
  In NaN arr -> calcLowerTrimmedMean sort arr k = NaN.
Proof.
  intros Hsort Hin. unfold calcLowerTrimmedMean.
  assert (Hin' : In NaN (sort arr))
    by (eapply Permutation_in; [symmetry; apply Hsort|assumption]).
  assert (Hne : sort arr <> []) by (intro E; rewrite E in Hin'; contradiction).
  rewrite (fold_left_In_NaN (sort arr) (Fin 0) Hin').
  cbn [div].
  rewrite (fold_left_all_NaN (fun value => (value - NaN) * (value - NaN))%num)
    by (try assumption; intros [x| | |]; reflexivity).
  cbn [div]. rewrite filter_none by (intros x; reflexivity).
  reflexivity.
Qed.

(** X19.  One reading that is not a number spoils the fusion.  When the
    ambient temperature of a connected probe is NaN, [updateProbe] fuses
    the temperatures to NaN, and the controller has no temperature. *)
Theorem updateProbe_with_NaN_reading sort data this :
  (forall arr, Permutation (sort arr) arr) ->
  In NaN (allAmbientTemps (updateProbe sort data this)) ->
  _currentTemp (updateProbe sort data this) = Some NaN
  /\ hasTemperature (updateProbe sort data this) = false.
Proof.
  intros Hsort Hin.
  destruct (updateProbe_fuses sort data this) as [_ E].
  rewrite (calcLowerTrimmedMean_NaN sort _ _ Hsort Hin) in E.
  split; [assumption|].
  unfold hasTemperature. rewrite E. cbn [isNaN negb].
  now rewrite andb_false_r.
Qed.

Lemma updateProbe_with_NaN_reading_witness :
  _currentTemp (updateProbe sort1 (reading NaN (t0 + 1500)) pit_at_200)
  = Some NaN
  /\ hasTemperature (updateProbe sort1 (reading NaN (t0 + 1500)) pit_at_200)
     = false.
Proof.
  apply (updateProbe_with_NaN_reading sort1 (reading NaN (t0 + 1500))
           pit_at_200).
  - intro arr. apply Permutation_refl.
  - vm_compute. left. reflexivity.
Defined.

(** ** The probes, continued *)

Section ProbeUpdate.

Import MeaterProbe.

Lemma of_Z_inj a b : of_Z a = of_Z b -> a = b.
Proof.
  unfold of_Z, inject_Z. intro H. injection H. auto.
Qed.

(** X20.  [bytesToInt] decodes the little-endian u16: its value lies
    between 0 and 65535, and it is [v] exactly for the two bytes
    [v mod 256] and [v / 256]. *)
Theorem bytesToInt_round_trip b0 b1 :
  exists v,
    bytesToInt (Some b0) (Some b1) = of_Z v
    /\ 0 <= v <= 65535
    /\ byte_value b0 = v mod 256
    /\ byte_value b1 = v / 256
    /\ forall c0 c1,
         bytesToInt (Some c0) (Some c1) = of_Z v -> c0 = b0 /\ c1 = b1.
Proof.
  pose proof (byte_value_range b0) as R0.
  pose proof (byte_value_range b1) as R1.
  exists (byte_value b0 + 256 * byte_value b1).
  split; [apply bytesToInt_u16_le|]. split; [lia|].
  split; [|split].
  - apply (Z.mod_unique _ 256 (byte_value b1)); lia.
  - apply (Z.div_unique _ 256 _ (byte_value b0)); lia.
  - intros c0 c1 H. rewrite bytesToInt_u16_le in H. apply of_Z_inj in H.
    pose proof (byte_value_range c0) as S0.
    pose proof (byte_value_range c1) as S1.
    assert (E0 : byte_value c0 = byte_value b0) by lia.
    assert (E1 : byte_value c1 = byte_value b1) by lia.
    unfold byte_value in E0, E1.
    apply N2Z.inj in E0. apply N2Z.inj in E1.
    apply (f_equal Byte.of_N) in E0. apply (f_equal Byte.of_N) in E1.
    rewrite !Byte.of_to_N in E0, E1. split; congruence.
Qed.

End ProbeUpdate.

Section ProbePoll.

Import MeaterProbe.

Lemma isFin_bytesToInt b0 b1 :
  isFin (bytesToInt (Some b0) (Some b1))
    (inject_Z (byte_value b0 + 256 * byte_value b1)).
Proof. rewrite bytesToInt_u16_le. apply isFin_of_Z. Qed.

Lemma isFin_toCelsius v q :
  isFin v q -> isFin (fst (toCelsius v)) ((q + 8) / 16).
Proof.
  intro H. unfold toCelsius. cbn [fst].
  apply isFin_div; [apply isFin_add; [assumption|apply isFin_Fin]
                   |apply isFin_Fin|discriminate].
Qed.

Lemma isFin_toFahrenheit v q :
  isFin v q -> isFin (fst (toFahrenheit v)) ((q + 8) / 16 * 9 / 5 + 32).
Proof.
  intro H. unfold toFahrenheit. cbn [fst].
  apply isFin_add; [|apply isFin_Fin].
  apply isFin_div; [|apply isFin_Fin|discriminate].
  apply isFin_mul; [|apply isFin_Fin]. now apply isFin_toCelsius.
Qed.

(** The temperature of a raw value, in the units of the probe. *)
Lemma isFin_convertTemperature this v q :
  isFin v q ->
  isFin (fst (_convertTemperature this v))
    (match _units this with
     | CELSIUS => (q + 8) / 16
     | FAHRENHEIT => (q + 8) / 16 * 9 / 5 + 32
     end)%Q
  /\ snd (_convertTemperature this v) = _units this.
Proof.
  intro H. unfold _convertTemperature. destruct (_units this).
  - split; [now apply isFin_toFahrenheit|reflexivity].
  - split; [now apply isFin_toCelsius|reflexivity].
Qed.

(** X21.  A poll cycle that reads six bytes of temperature emits one reading
    and goes on polling.  The tip temperature of the reading is
    [(u16 + 8) / 16] degrees Celsius for the little-endian [u16] of the
    first two bytes, or the same in degrees Fahrenheit, in the units of the
    probe; the ambient temperature is never below the tip temperature; and
    the probe keeps what the reading carries. *)
Theorem update_reads_temperature now this b0 b1 b2 b3 b4 b5 rest battBuffer :
  exists data this' tip ambient,
    update now (Resolved true)
      (Resolved (b0 :: b1 :: b2 :: b3 :: b4 :: b5 :: rest))
      (Resolved battBuffer) this
    = (this', [ev_update data], true)
    /\ Update.tip data = Fin tip
    /\ Update.ambient data = Fin ambient
    /\ (tip == match _units this with
               | CELSIUS =>
                   (inject_Z (byte_value b0 + 256 * byte_value b1) + 8) / 16
               | FAHRENHEIT =>
                   (inject_Z (byte_value b0 + 256 * byte_value b1) + 8) / 16
                   * 9 / 5 + 32
               end)%Q
    /\ (tip <= ambient)%Q
    /\ Update.units data = _units this
    /\ Update.timestamp data = now
    /\ _tip this' = Some (Update.tip data)
    /\ _ambient this' = Some (Update.ambient data)
    /\ _timestamp this' = Some now.
Proof.
  unfold update. cbn [nth_error].
  set (T := inject_Z (byte_value b0 + 256 * byte_value b1)).
  set (RA := inject_Z (byte_value b2 + 256 * byte_value b3)).
  set (OA := inject_Z (byte_value b4 + 256 * byte_value b5)).
  pose proof (isFin_bytesToInt b0 b1) as Htip. fold T in Htip.
  pose proof (isFin_bytesToInt b2 b3) as Hra. fold RA in Hra.
  pose proof (isFin_bytesToInt b4 b5) as Hoa. fold OA in Hoa.
  set (A := (T + Qmax 0 ((RA - Qmin 48 OA) * 16 * 589 / 1487))%Q).
  assert (Hamb : isFin
            (bytesToInt (Some b0) (Some b1)
             + Num.max (Fin 0)
                 ((bytesToInt (Some b2) (Some b3)
                   - Num.min (Fin 48) (bytesToInt (Some b4) (Some b5)))
                  * Fin 16 * Fin 589 / Fin 1487))%num A).
  { apply isFin_add; [assumption|].
    apply isFin_max; [apply isFin_Fin|].
    apply isFin_div; [|apply isFin_Fin|discriminate].
    repeat apply isFin_mul; try apply isFin_Fin.
    apply isFin_sub; [assumption|].
    apply isFin_min; [apply isFin_Fin|assumption]. }
  assert (HTA : (T <= A)%Q).
  { unfold A. pose proof (Q.le_max_l 0 ((RA - Qmin 48 OA) * 16 * 589 / 1487)).
    lra. }
  set (this1 := set_isConnected true this).
  assert (Hu : _units this1 = _units this) by reflexivity.
  destruct (isFin_convertTemperature this1 _ T Htip) as [Ht Hut].
  destruct (isFin_convertTemperature this1 _ A Hamb) as [Ha Hua].
  destruct (_convertTemperature this1 (bytesToInt (Some b0) (Some b1)))
    as [tip' u0].
  destruct (_convertTemperature this1 _) as [ambient' u1].
  cbn [fst snd] in *. subst u0 u1.
  destruct Ht as (tip & -> & Etip). destruct Ha as (ambient & -> & Eamb).
  do 2 eexists. exists tip, ambient.
  split; [reflexivity|]. cbn. rewrite Hu in *.
  repeat split; try reflexivity; try assumption.
  rewrite Etip, Eamb. clear Etip Eamb.
  destruct (_units this); unfold Qdiv; change (/ 16)%Q with (1 # 16)%Q;
    change (/ 5)%Q with (1 # 5)%Q; lra.
Qed.

(** X22.  The outcomes of a poll cycle.  The cycle goes on polling exactly
    when it leaves the probe connected, which is when it has emitted a
    reading.  It emits [disconnect], with the address of the probe, exactly
    when one of the calls that it awaits is rejected; when the device
    answers that it is not connected the cycle ends the polling without any
    event.  The address of the probe never changes. *)
Theorem update_outcomes now isConnected tempRead battRead this :
  let '(this', evs, again) :=
    update now isConnected tempRead battRead this in
  again = _isConnected this'
  /\ (again = true <-> exists data, evs = [ev_update data])
  /\ (evs = [ev_disconnect (_deviceAddress this)]
      <-> ((exists name, isConnected = Rejected name)
           \/ (isConnected = Resolved true
               /\ ((exists name, tempRead = Rejected name)
                   \/ (exists name, battRead = Rejected name)))))
  /\ (isConnected = Resolved false -> evs = [] /\ again = false)
  /\ _deviceAddress this' = _deviceAddress this.
Proof.
  unfold update.
  destruct isConnected as [[|]|name];
    [destruct tempRead as [tempBuffer|name], battRead as [battBuffer|name'];
     [destruct (_convertTemperature _ _) as [tip' u0];
      destruct (_convertTemperature _ _) as [ambient' u1]|..]|..].
  all: cbn; repeat split; intros; try discriminate; eauto.
  all: repeat match goal with
       | H : exists _, _ |- _ => destruct H
       | H : _ \/ _ |- _ => destruct H
       | H : _ /\ _ |- _ => destruct H
       end; try discriminate.
  all: right; split; eauto.
Qed.

End ProbePoll.

(** ** Connecting *)

Lemma split_word sep (word rest : string) :
  (forall n, String.get n word <> Some sep) ->
  split sep (word ++ String sep rest)%string = word :: split sep rest.
Proof.
  induction word as [|c word IH]; intro H; cbn.
  - now rewrite Ascii.eqb_refl.
  - destruct (Ascii.eqb_spec c sep) as [->|Hc].
    + exfalso. apply (H 0%nat). reflexivity.
    + rewrite IH; [reflexivity|]. intro n. apply (H (S n)).
Qed.

Lemma split_last sep (word : string) :
  (forall n, String.get n word <> Some sep) -> split sep word = [word].
Proof.
  induction word as [|c word IH]; intro H; cbn; [reflexivity|].
  destruct (Ascii.eqb_spec c sep) as [->|Hc].
  - exfalso. apply (H 0%nat). reflexivity.
  - rewrite IH; [reflexivity|]. intro n. apply (H (S n)).
Qed.

Section Connecting.

Import MeaterProbe Connection.

Lemma update_keeps_identity now c t b this :
  let '(this', evs, again) := update now c t b this in
  _deviceAddress this' = _deviceAddress this
  /\ _firmware this' = _firmware this
  /\ _probeIndex this' = _probeIndex this
  /\ again = _isConnected this'.
Proof.
  unfold update.
  destruct c as [[|]|name];
    [destruct t as [tempBuffer|name], b as [battBuffer|name'];
     [destruct (_convertTemperature _ _) as [tip' u0];
      destruct (_convertTemperature _ _) as [ambient' u1]|..]|..].
  all: cbn; repeat split.
Qed.

(** X23.  A connection that succeeds.  When the calls that [connect] awaits
    all resolve and the firmware characteristic reads
    [firmware_index], [connect] takes the text before the underscore as the
    firmware and the text after it as the index of the probe, runs one poll
    cycle, and emits [connect] last, after the events of the cycle, with
    the probe as the cycle has left it; it does not throw. *)
Theorem connect_reads_firmware_and_index device (firmware index : string)
  now isConnected tempRead battRead this :
  (forall n, String.get n firmware <> Some "_"%char) ->
  (forall n, String.get n index <> Some "_"%char) ->
  exists this' evs again,
    connect device (Resolved tt) (Resolved tt) (Resolved tt)
      (Resolved (firmware ++ String "_" index)%string)
      (update now isConnected tempRead battRead) this
    = (this', map ev_poll evs ++ [ev_connect this'], again, None)
    /\ _firmware this' = Some firmware
    /\ _probeIndex this' = Some index
    /\ _deviceAddress this' = _deviceAddress this
    /\ again = _isConnected this'.
Proof.
  intros Hf Hi. unfold connect, _initialize.
  rewrite (split_word "_" firmware index Hf), (split_last "_" index Hi).
  cbn [nth_error].
  match goal with |- context [update now isConnected tempRead battRead ?p] =>
    pose proof (update_keeps_identity now isConnected tempRead battRead p)
      as Hid;
    destruct (update now isConnected tempRead battRead p)
      as [[this' evs] again]
  end.
  destruct Hid as (Ha & Hfw & Hix & Hagain).
  exists this', evs, again. split; [reflexivity|].
  cbn in Ha, Hfw, Hix. auto.
Qed.

Lemma connect_reads_firmware_and_index_witness :
  exists this' evs again,
    Connection.connect None (Resolved tt) (Resolved tt) (Resolved tt)
      (Resolved ("v1.0.4" ++ String "_" "1")%string)
      (MeaterProbe.update t0 (Resolved true)
         (Resolved [x40; x06; x20; x03; x28; x00]) (Resolved [x0b; x00]))
      (Connection.new_MeaterProbe "B8:1F:5E:00:00:03" FAHRENHEIT)
    = (this', map Connection.ev_poll evs ++ [Connection.ev_connect this'],
       again, None)
    /\ MeaterProbe._firmware this' = Some "v1.0.4"%string
    /\ MeaterProbe._probeIndex this' = Some "1"%string
    /\ MeaterProbe._deviceAddress this'
       = MeaterProbe._deviceAddress
           (Connection.new_MeaterProbe "B8:1F:5E:00:00:03" FAHRENHEIT)
    /\ again = MeaterProbe._isConnected this'.
Proof.
  apply (connect_reads_firmware_and_index None "v1.0.4" "1").
  - intro n. do 6 (destruct n as [|n]; [discriminate|]). discriminate.
  - intro n. destruct n as [|n]; discriminate.
Defined.

End Connecting.

(** ** Discovery *)

Section DiscoveryPass.

Import Discovery.

(** The loop over the devices: what it attempts and what it leaves. *)
Lemma attemptAll_spec devices this :
  let '(this', attempted) := attemptAll devices this in
  daemon this' = daemon this
  /\ _knownDevices this' = _knownDevices this
  /\ NoDup attempted
  /\ (forall id,
        In id attempted
        <-> In id devices
            /\ String.prefix APPTION_LABS id = true
            /\ lookup id (_meaters this) = None
            /\ MeaterDaemon.isBlacklisted id (daemon this) = false)
  /\ (forall id,
        lookup id (_meaters this')
        = if existsb (String.eqb id) attempted
          then Some (Connection.new_MeaterProbe id (_units this))
          else lookup id (_meaters this)).
Proof.
  revert this. induction devices as [|d rest IH]; intro this.
  - cbn. repeat split; try constructor; try tauto.
  - cbn [attemptAll].
    set (go := String.prefix APPTION_LABS d
               && match lookup d (_meaters this) with
                  | Some _ => false
                  | None => true
                  end).
    destruct go eqn:Ego.
    + (* tried *)
      unfold go in Ego. apply andb_true_iff in Ego. destruct Ego as [Hp Hl].
      destruct (lookup d (_meaters this)) eqn:El; [discriminate|].
      unfold _attemptConnection.
      destruct (MeaterDaemon.isBlacklisted d (daemon this)) eqn:Eb.
      * specialize (IH this). destruct (attemptAll rest this) as [s att].
        destruct IH as (Hd & Hk & Hn & Hin & Hlk).
        cbn [app]. split; [assumption|]. split; [assumption|].
        split; [assumption|]. split; [|assumption].
        intro id. split.
        -- intro H. apply Hin in H. cbn. tauto.
        -- intros (H1 & H2 & H3 & H4). apply Hin. repeat split; auto.
           destruct H1 as [->|H1]; [congruence|assumption].
      * set (this1 := set_meaters
                        (put d (Connection.new_MeaterProbe d (_units this))
                           (_meaters this)) this).
        specialize (IH this1). destruct (attemptAll rest this1) as [s att].
        destruct IH as (Hd & Hk & Hn & Hin & Hlk).
        assert (Hnot : ~ In d att).
        { intro H. apply Hin in H. destruct H as (_ & _ & H & _).
          unfold this1 in H. cbn in H. rewrite lookup_put in H.
          discriminate. }
        cbn [app]. split; [assumption|]. split; [assumption|].
        split; [constructor; assumption|]. split.
        -- intro id. cbn [In]. rewrite Hin. unfold this1. cbn.
           destruct (String.eqb_spec d id) as [->|Hne].
           ++ split; [intros _; tauto|]. intros _. now left.
           ++ rewrite lookup_put_other by congruence. tauto.
        -- intro id. rewrite Hlk. cbn [existsb]. unfold this1. cbn.
           destruct (String.eqb_spec id d) as [->|Hne]; cbn.
           ++ rewrite lookup_put.
              destruct (existsb _ att); reflexivity.
           ++ rewrite lookup_put_other by assumption. reflexivity.
    + specialize (IH this). destruct (attemptAll rest this) as [s att].
      destruct IH as (Hd & Hk & Hn & Hin & Hlk).
      cbn [app]. split; [assumption|]. split; [assumption|].
      split; [assumption|]. split; [|assumption].
      intro id. split.
      * intro H. apply Hin in H. cbn. tauto.
      * intros (H1 & H2 & H3 & H4). apply Hin. repeat split; auto.
        destruct H1 as [->|H1]; [|assumption].
        unfold go in Ego. rewrite H2, H3 in Ego. discriminate.
Qed.

End DiscoveryPass.

Section DiscoveryTheorems.

Import Discovery.

(** X24.  A discovery pass of a daemon that is active and has not passed
    the limit of failed connections attempts a connection to exactly the
    devices that carry the OUI of the manufacturer, have no probe in
    [_meaters] and are not on the blacklist, each of them once; it puts a
    new probe with the units of the daemon in [_meaters] for each, leaves
    the other probes and the daemon as they are, and sets the timer of the
    next pass. *)
Theorem update_attempts_new_probes devices this :
  _active this = true ->
  _errCount this <= MAX_CONNECTION_FAILURES ->
  exists this' attempted,
    _update (Resolved devices) this = (this', attempted, [timer_update])
    /\ daemon this' = daemon this
    /\ _knownDevices this' = _knownDevices this
    /\ NoDup attempted
    /\ (forall id,
          In id attempted
          <-> In id devices
              /\ String.prefix APPTION_LABS id = true
              /\ lookup id (_meaters this) = None
              /\ MeaterDaemon.isBlacklisted id (daemon this) = false)
    /\ (forall id,
          lookup id (_meaters this')
          = if existsb (String.eqb id) attempted
            then Some (Connection.new_MeaterProbe id (_units this))
            else lookup id (_meaters this)).
Proof.
  intros Hactive Herr. unfold _update. rewrite Hactive.
  assert (E : (_errCount this >? MAX_CONNECTION_FAILURES) = false).
  { rewrite Z.gtb_ltb. apply Z.ltb_ge. assumption. }
  rewrite E. pose proof (attemptAll_spec devices this) as H.
  destruct (attemptAll devices this) as [this' attempted].
  exists this', attempted. split; [reflexivity|]. exact H.
Qed.

Lemma update_attempts_new_probes_witness :
  exists this' attempted,
    _update (Resolved some_devices) a_discovery
    = (this', attempted, [timer_update])
    /\ daemon this' = daemon a_discovery
    /\ _knownDevices this' = _knownDevices a_discovery
    /\ NoDup attempted
    /\ (forall id,
          In id attempted
          <-> In id some_devices
              /\ String.prefix APPTION_LABS id = true
              /\ lookup id (_meaters a_discovery) = None
              /\ MeaterDaemon.isBlacklisted id (daemon a_discovery) = false)
    /\ (forall id,
          lookup id (_meaters this')
          = if existsb (String.eqb id) attempted
            then Some (Connection.new_MeaterProbe id (_units a_discovery))
            else lookup id (_meaters a_discovery)).
Proof.
  apply (update_attempts_new_probes some_devices a_discovery).
  - reflexivity.
  - vm_compute. discriminate.
Defined.

Lemma errCount_after_failures ids this :
  let this' := fold_left (fun d id => fst (on_connectFailed id d)) ids this in
  _errCount this' = _errCount this + Z.of_nat (List.length ids)
  /\ _active this' = _active this
  /\ _restartCount this' = _restartCount this
  /\ _knownDevices this' = _knownDevices this.
Proof.
  cbv zeta. revert this. induction ids as [|id ids IH]; intro this.
  - cbn. repeat split. lia.
  - cbn [fold_left List.length]. destruct (IH (fst (on_connectFailed id this)))
      as (-> & -> & -> & ->).
    destruct this as [[rc act bl ec un] ms kd]. cbn.
    repeat split. lia.
Qed.

(** X25.  Every failed connection counts, and the eleventh stops the
    discovery.  After [start], which clears the count, more than
    MAX_CONNECTION_FAILURES (10) [connectFailed] events make the next pass
    attempt nothing and set the timer of a restart instead of its own; up
    to ten failures the passes go on.  The restart, [restart] and the
    [start] that its timer calls, leaves the daemon active with the count
    cleared and one restart more, and with the probes that it had. *)
Theorem connection_failures_trigger_restart ids devices this0 :
  let this := fst (start (Resolved tt) (Resolved tt) this0) in
  let this' := fold_left (fun d id => fst (on_connectFailed id d)) ids this in
  _errCount this' = Z.of_nat (List.length ids)
  /\ ((List.length ids <= 10)%nat ->
      exists this'' attempted,
        _update devices this' = (this'', attempted, [timer_update]))
  /\ ((10 < List.length ids)%nat ->
      _update devices this' = (this', [], [timer_restart])
      /\ let '(stopped, timers) := restart (Resolved tt) this' in
         let '(this2, timers2) := start (Resolved tt) (Resolved tt) stopped in
         timers = [timer_start]
         /\ timers2 = [timer_update]
         /\ _active stopped = false
         /\ _active this2 = true
         /\ _errCount this2 = 0
         /\ _restartCount this2 = _restartCount this + 1
         /\ _meaters this2 = _meaters this').
Proof.
  cbv zeta.
  set (this := fst (start (Resolved tt) (Resolved tt) this0)).
  assert (Hactive : _active this = true)
    by (destruct this0 as [[rc act bl ec un] ms kd]; reflexivity).
  assert (Hzero : _errCount this = 0)
    by (destruct this0 as [[rc act bl ec un] ms kd]; reflexivity).
  destruct (errCount_after_failures ids this) as (Herr & Hact & Hrc & _).
  cbv zeta in Herr, Hact, Hrc. rewrite Hzero, Z.add_0_l in Herr.
  rewrite Hactive in Hact.
  split; [assumption|]. unfold _update. rewrite Hact, Herr.
  unfold MAX_CONNECTION_FAILURES. split; intro Hn.
  - replace (Z.of_nat (List.length ids) >? 10) with false.
    + destruct devices as [devices|name]; [|eauto].
      destruct (attemptAll devices _) as [this'' attempted]. eauto.
    + symmetry. rewrite Z.gtb_ltb. apply Z.ltb_ge. lia.
  - replace (Z.of_nat (List.length ids) >? 10) with true
      by (symmetry; rewrite Z.gtb_ltb; apply Z.ltb_lt; lia).
    split; [reflexivity|].
    rewrite <- Hrc.
    destruct (fold_left _ ids this) as [[rc act bl ec un] ms kd].
    cbn. repeat split.
Qed.

End DiscoveryTheorems.

Section LostProbe.

Import Discovery.

(** X26.  A device that [waitDevice] does not find is never tried again.
    When [waitDevice] is rejected, [connect] finds [_device] null in its
    handler of the error and throws a TypeError: it emits no
    [connectFailed].  The probe that [_attemptConnection] has put in
    [_meaters] before then stays there, no failure is counted, and no later
    discovery pass attempts a connection to its address; only the listeners
    of [connectFailed] and of [disconnect] take a probe out of
    [_meaters]. *)
Theorem connect_timeout_is_never_retried id name deviceConnect gattServer gatt
  poll devices this :
  MeaterDaemon.isBlacklisted id (daemon this) = false ->
  let probe := Connection.new_MeaterProbe id (_units this) in
  let this1 := fst (_attemptConnection id this) in
  Connection.connect None (Rejected name) deviceConnect gattServer gatt poll
    probe
  = (probe, [], false,
     Some (TypeError "Cannot read properties of null (reading 'disconnect')"))
  /\ lookup id (_meaters this1) = Some probe
  /\ _errCount this1 = _errCount this
  /\ ~ In id (snd (fst (_update devices this1)))
  /\ lookup id (_meaters (fst (on_connectFailed id this1))) = None
  /\ lookup id (_meaters (fst (on_disconnect id this1))) = None.
Proof.
  intro Hb. cbv zeta. split; [reflexivity|].
  unfold _attemptConnection. rewrite Hb. cbn [fst].
  assert (Hl : lookup id
                 (_meaters
                    (set_meaters
                       (put id (Connection.new_MeaterProbe id (_units this))
                          (_meaters this)) this))
               = Some (Connection.new_MeaterProbe id (_units this)))
    by (cbn; apply lookup_put).
  split; [assumption|]. split; [reflexivity|].
  split; [|split; cbn; apply lookup_delete].
  unfold _update.
  destruct (_active _); [|cbn; tauto].
  destruct (_errCount _ >? MAX_CONNECTION_FAILURES); [cbn; tauto|].
  destruct devices as [devices|name']; [|cbn; tauto].
  match goal with |- context [attemptAll devices ?s] =>
    pose proof (attemptAll_spec devices s) as H;
    destruct (attemptAll devices s) as [this' attempted]
  end.
  destruct H as (_ & _ & _ & Hin & _). cbn [fst snd].
  intro H. apply Hin in H. destruct H as (_ & _ & H & _).
  rewrite Hl in H. discriminate.
Qed.

Lemma connect_timeout_is_never_retried_witness :
  let id := "B8:1F:5E:00:00:03"%string in
  let probe := Connection.new_MeaterProbe id (Discovery._units a_discovery) in
  let this1 := fst (Discovery._attemptConnection id a_discovery) in
  Connection.connect None (Rejected "Error") (Resolved tt) (Resolved tt)
    (Resolved "v1.0.4_1"%string)
    (MeaterProbe.update t0 (Resolved true) (Resolved []) (Resolved []))
    probe
  = (probe, [], false,
     Some (TypeError "Cannot read properties of null (reading 'disconnect')"))
  /\ lookup id (Discovery._meaters this1) = Some probe
  /\ Discovery._errCount this1 = Discovery._errCount a_discovery
  /\ ~ In id (snd (fst (Discovery._update (Resolved some_devices) this1)))
  /\ lookup id
       (Discovery._meaters (fst (Discovery.on_connectFailed id this1)))
     = None
  /\ lookup id (Discovery._meaters (fst (Discovery.on_disconnect id this1)))
     = None.
Proof.
  apply (connect_timeout_is_never_retried "B8:1F:5E:00:00:03" "Error"
           (Resolved tt) (Resolved tt) (Resolved "v1.0.4_1"%string)
           (MeaterProbe.update t0 (Resolved true) (Resolved []) (Resolved []))
           (Resolved some_devices) a_discovery).
  reflexivity.
Defined.

End LostProbe.

(** ** The driver of the motors *)

Section Driver.

Import PCA9685.

Lemma Qfloor_quot q :
  (0 <= q)%Q -> Z.quot (Qnum q) (Z.pos (Qden q)) = Qfloor q.
Proof.
  intro H. destruct q as [n d]. unfold Qfloor. cbn.
  apply Z.quot_div_nonneg; [|lia].
  unfold Qle in H. cbn in H. lia.
Qed.

Lemma Qfloor_range q (lo hi : Z) :
  (inject_Z lo <= q <= inject_Z hi)%Q -> lo <= Qfloor q <= hi.
Proof.
  intros [H1 H2]. split.
  - rewrite <- (Qfloor_Z lo). now apply Qfloor_resp_le.
  - rewrite <- (Qfloor_Z hi). now apply Qfloor_resp_le.
Qed.

(** The clamp of [setDutyCycle], and the integer that the bit operators
    see. *)
Lemma clamp_dutyOf speed :
  ToInt32 (Num.min DUTY_CYCLE_MAX (Num.max DUTY_CYCLE_MIN speed))
  = dutyOf speed
  /\ 0 <= dutyOf speed <= 4095.
Proof.
  assert (Hr : forall q, 0 <= Qfloor (Qmin 4095 (Qmax 0 q)) <= 4095).
  { intro q. apply Qfloor_range. split.
    - apply Q.min_glb; [discriminate|apply Q.le_max_l].
    - apply Q.le_min_l. }
  destruct speed as [q| | |]; cbn [dutyOf]; [|split; [reflexivity|lia]..].
  split; [|apply Hr].
  assert (Hc : isFin (Num.min DUTY_CYCLE_MAX (Num.max DUTY_CYCLE_MIN (Fin q)))
                 (Qmin 4095 (Qmax 0 q))).
  { apply isFin_min; [apply isFin_Fin|].
    apply isFin_max; apply isFin_Fin. }
  destruct Hc as (c & -> & Hc). unfold ToInt32.
  assert (H0 : (0 <= c)%Q).
  { rewrite Hc. apply Q.min_glb; [discriminate|apply Q.le_max_l]. }
  rewrite (Qfloor_quot c H0).
  assert (E : Qfloor c = Qfloor (Qmin 4095 (Qmax 0 q))) by now rewrite Hc.
  rewrite E. specialize (Hr q).
  rewrite Z.mod_small by lia. lia.
Qed.

Lemma setDutyCycle_initialized channel dutyCycle this :
  initialized this = true ->
  setDutyCycle channel dutyCycle this
  = Returned (mk true (written this
                         ++ pwmWrites channel (dutyOf dutyCycle))).
Proof.
  intro Hi. unfold setDutyCycle, sendPWMCommand, writeReg, pwmWrites.
  rewrite Hi. cbn [negb initialized written].
  destruct (clamp_dutyOf dutyCycle) as [-> Hr].
  change (ToInt32 (Fin 0)) with 0. cbn [Z.land Z.shiftr].
  change 255 with (Z.ones 8). rewrite Z.land_ones by lia.
  rewrite !Z.shiftr_div_pow2 by lia.
  change (2 ^ 8) with 256. change (0 / 256) with 0.
  unfold LED0_ON_L, LED0_ON_H, LED0_OFF_L, LED0_OFF_H.
  rewrite <- !app_assoc. reflexivity.
Qed.

Lemma setDutyCycle_uninitialized channel dutyCycle this :
  initialized this = false ->
  setDutyCycle channel dutyCycle this
  = Thrown "PCA9685 not initialized. Call sendPWMCommandFreq() first." this.
Proof.
  intro Hi. unfold setDutyCycle, sendPWMCommand. now rewrite Hi.
Qed.

Lemma dutyOf_clamped speed :
  dutyOf (Num.min DUTY_CYCLE_MAX (Num.max DUTY_CYCLE_MIN speed))
  = dutyOf speed.
Proof.
  destruct speed as [q| | |]; try reflexivity.
  assert (Hc : isFin (Num.min DUTY_CYCLE_MAX (Num.max DUTY_CYCLE_MIN (Fin q)))
                 (Qmin 4095 (Qmax 0 q))).
  { apply isFin_min; [apply isFin_Fin|].
    apply isFin_max; apply isFin_Fin. }
  destruct Hc as (c & -> & Hc). cbn [dutyOf]. apply Qfloor_comp.
  rewrite Hc.
  assert (H1 : (0 <= Qmin 4095 (Qmax 0 q))%Q)
    by (apply Q.min_glb; [discriminate|apply Q.le_max_l]).
  assert (H2 : (Qmin 4095 (Qmax 0 q) <= 4095)%Q) by apply Q.le_min_l.
  rewrite (Q.max_r 0 _ H1). rewrite (Q.min_r 4095 _ H2). reflexivity.
Qed.

End Driver.

Section DriverTheorems.

Import PCA9685.

(** X27.  [setMotorSpeed] writes all of a command or nothing.  It returns
    exactly when the driver is initialized and the index is 1 or 2; it has
    then written the twelve bytes of the motor: the duty cycle of the PWM
    channel, which is the whole part of the speed kept between 0 and 4095
    (0 for NaN), low byte and high byte, and the two direction inputs, 0 and
    4095, exchanged when the motor is reversed.  When it throws, the driver
    has written nothing. *)
Theorem setMotorSpeed_all_or_nothing motorIndex speed reverse this :
  0 <= dutyOf speed <= 4095
  /\ match setMotorSpeed motorIndex speed reverse this with
     | Returned this' =>
         initialized this = true
         /\ exists motor,
              (motor = 1 \/ motor = 2)
              /\ Num.eqb motorIndex (of_Z motor) = true
              /\ this'
                 = mk true
                     (written this
                        ++ motorWrites motor (dutyOf speed) reverse)
     | Thrown _ this' =>
         this' = this
         /\ (initialized this = false
             \/ (Num.eqb motorIndex (Fin 1) = false
                 /\ Num.eqb motorIndex (Fin 2) = false))
     end.
Proof.
  split; [apply clamp_dutyOf|].
  unfold setMotorSpeed.
  assert (Hin : forall b : bool,
            dutyOf (if b then DUTY_CYCLE_MAX else DUTY_CYCLE_MIN)
            = if b then 4095 else 0)
    by (intros []; reflexivity).
  assert (Hin' : forall b : bool,
            dutyOf (if b then DUTY_CYCLE_MIN else DUTY_CYCLE_MAX)
            = if b then 0 else 4095)
    by (intros []; reflexivity).
  destruct (initialized this) eqn:Hi.
  - destruct (Num.eqb motorIndex (Fin 1)) eqn:E1;
      [|destruct (Num.eqb motorIndex (Fin 2)) eqn:E2].
    + rewrite setDutyCycle_initialized by assumption. cbn [andThen].
      rewrite setDutyCycle_initialized by reflexivity. cbn [andThen].
      rewrite setDutyCycle_initialized by reflexivity.
      split; [reflexivity|]. exists 1. split; [now left|].
      split; [assumption|]. cbn [written].
      rewrite dutyOf_clamped, Hin, Hin'. unfold motorWrites.
      cbn [Z.eqb Pos.eqb]. now rewrite <- !app_assoc.
    + rewrite setDutyCycle_initialized by assumption. cbn [andThen].
      rewrite setDutyCycle_initialized by reflexivity. cbn [andThen].
      rewrite setDutyCycle_initialized by reflexivity.
      split; [reflexivity|]. exists 2. split; [now right|].
      split; [assumption|]. cbn [written].
      rewrite dutyOf_clamped, Hin, Hin'. unfold motorWrites.
      cbn [Z.eqb Pos.eqb]. now rewrite <- !app_assoc.
    + split; [reflexivity|]. right. split; reflexivity.
  - destruct (Num.eqb motorIndex (Fin 1));
      [|destruct (Num.eqb motorIndex (Fin 2))];
      rewrite ?setDutyCycle_uninitialized by assumption; cbn [andThen];
      split; auto.
Qed.

End DriverTheorems.

Section Airflow.

Import PitAirflow.

Lemma setMotorSpeed_initialized motor speed reverse driver :
  PCA9685.initialized driver = true ->
  motor = 1 \/ motor = 2 ->
  PCA9685.setMotorSpeed (of_Z motor) speed reverse driver
  = PCA9685.Returned
      (PCA9685.mk true
         (PCA9685.written driver ++ motorWrites motor (dutyOf speed) reverse)).
Proof.
  intros Hi Hm. unfold PCA9685.setMotorSpeed.
  destruct Hm as [-> | ->]; cbn [Num.eqb cmp of_Z];
    rewrite !setDutyCycle_initialized by assumption; cbn [PCA9685.andThen];
    rewrite !setDutyCycle_initialized by reflexivity; cbn [PCA9685.andThen];
    rewrite !setDutyCycle_initialized by reflexivity;
    cbn [PCA9685.written]; rewrite dutyOf_clamped; unfold motorWrites;
    destruct reverse; cbn [Z.eqb Pos.eqb]; now rewrite <- !app_assoc.
Qed.

(** [setFanSpeed] on an initialized driver, in the exact arithmetic of the
    embedding. *)
Lemma setFanSpeed_scaled (v fmin fmax : Q) motor this :
  _initialized this = true ->
  PCA9685.initialized (_driver this) = true ->
  _fanMotor this = of_Z motor ->
  motor = 1 \/ motor = 2 ->
  _fanMin this = Fin fmin ->
  _fanMax this = Fin fmax ->
  (0 <= fmin <= 100)%Q ->
  (0 <= fmax <= 100)%Q ->
  exists this' duty speed,
    setFanSpeed (Fin v) this = Returned false this'
    /\ PCA9685.written (_driver this')
       = PCA9685.written (_driver this)
         ++ motorWrites motor duty (_fanReverse this)
    /\ 0 <= duty <= 4095
    /\ ((v == 0)%Q -> duty = 0)
    /\ (~ (v == 0)%Q ->
        duty
        = Qfloor (4095 * (fmin + (fmax - fmin) * Qmin (Qmax v 0) 100 / 100)
                  / 100))
    /\ _fanSpeed this' = Some (Fin speed)
    /\ (speed == Qmin (Qmax v 0) 100)%Q
    /\ _fanRetries this' = 0.
Proof.
  intros Hinit Hdrv Hmotor Hm Hmin Hmax Rmin Rmax.
  unfold setFanSpeed. rewrite Hinit. cbn [negb].
  cbn [_fanMotor _fanReverse _driver _fanMin _fanMax set_fanRetries].
  rewrite Hmotor, Hmin, Hmax.
  assert (Hz : Num.eqb (Fin v) MOTOR_OFF = true <-> (v == 0)%Q)
    by (apply isFin_eqb; apply isFin_Fin).
  destruct (Num.eqb (Fin v) MOTOR_OFF) eqn:Ez.
  - rewrite (setMotorSpeed_initialized motor _ _ _ Hdrv Hm). cbn [driven].
    assert (Ev : (v == 0)%Q) by now apply Hz.
    do 2 eexists. exists 0%Q. split; [reflexivity|]. cbn.
    split; [reflexivity|]. split; [lia|]. split; [reflexivity|].
    split; [tauto|]. split; [reflexivity|]. split; [|reflexivity].
    rewrite Ev. reflexivity.
  - assert (Ev : ~ (v == 0)%Q) by (intro H; apply Hz in H; discriminate).
    rewrite (setMotorSpeed_initialized motor _ _ _ Hdrv Hm). cbn [driven].
    destruct (isFin_constrain_cases v 0 100) as (c & Hc & Rc & _);
      [lra|].
    assert (Hcv : isFin (constrain (Fin v) MOTOR_MIN MOTOR_MAX)
                    (Qmin (Qmax v 0) 100))
      by (apply isFin_constrain; apply isFin_Fin).
    destruct (mapRange_Fin v 0 100 fmin fmax) as (p & Ep & Rp & _ & _ & _);
      [lra|].
    assert (Hp : isFin (mapRange (Fin v) MOTOR_MIN MOTOR_MAX (Fin fmin)
                          (Fin fmax))
                   (fmin + (fmax - fmin) * Qmin (Qmax v 0) 100 / 100)%Q).
    { unfold mapRange. eapply isFin_Qeq.
      - repeat first [ apply isFin_add | apply isFin_mul | apply isFin_div
                     | apply isFin_sub | exact Hcv | apply isFin_Fin ].
        discriminate.
      - field. }
    unfold MOTOR_MIN, MOTOR_MAX in *. rewrite Ep in *.
    destruct Hp as (p' & Ep' & Hp). injection Ep' as <-.
    assert (Rp' : (0 <= p <= 100)%Q).
    { destruct Rp as [R1 R2]. split.
      - apply Qle_trans with (Qmin fmin fmax); [|assumption].
        apply Q.min_glb; tauto.
      - apply Qle_trans with (Qmax fmin fmax); [assumption|].
        apply Q.max_lub; tauto. }
    destruct (mapRange_Fin p 0 100 0 4095) as (d & Ed & _ & _ & _ & Hd);
      [lra|].
    unfold DUTY_CYCLE_MIN, DUTY_CYCLE_MAX. rewrite Ed.
    specialize (Hd Rp').
    assert (Hd' : (d == 4095 * p / 100)%Q) by (rewrite Hd; field).
    assert (Rd : (0 <= d <= 4095)%Q).
    { rewrite Hd'. split.
      - apply Qle_shift_div_l; lra.
      - apply Qle_shift_div_r; lra. }
    destruct Hcv as (speed & Es & Hs).
    exists (set_fanSpeed (Some (Fin speed))
              (set_driver
                 (PCA9685.mk true
                    (PCA9685.written (_driver this)
                       ++ motorWrites motor (dutyOf (Fin d))
                            (_fanReverse this)))
                 (set_fanRetries 0 this))),
      (dutyOf (Fin d)), speed.
    split; [unfold MOTOR_MIN, MOTOR_MAX in Es; rewrite Es; reflexivity|].
    cbn [dutyOf]. rewrite (Q.max_r 0 d) by tauto.
    rewrite (Q.min_r 4095 d) by tauto.
    split; [reflexivity|].
    split; [apply (Qfloor_range d 0 4095); assumption|].
    split; [tauto|].
    split; [intros _; apply Qfloor_comp; rewrite Hd', Hp; reflexivity|].
    split; [reflexivity|]. split; [assumption|reflexivity].
Qed.

(** X28.  [setFanSpeed] on an initialized driver, with [fanMin] and [fanMax]
    from 0 to 100, returns without a retry, clears the retry counter,
    records the speed, kept between 0 and 100, and writes the twelve bytes
    of the motor with a duty cycle from 0 to 4095.  The speed 0 is not
    scaled: it stops the motor, with the duty cycle 0, whatever [fanMin] is.
    When [fanMin] is at most [fanMax], a larger speed never gets a smaller
    duty cycle than a smaller speed above 0. *)
Theorem setFanSpeed_duty (v fmin fmax : Q) motor this :
  _initialized this = true ->
  PCA9685.initialized (_driver this) = true ->
  _fanMotor this = of_Z motor ->
  motor = 1 \/ motor = 2 ->
  _fanMin this = Fin fmin ->
  _fanMax this = Fin fmax ->
  (0 <= fmin <= 100)%Q ->
  (0 <= fmax <= 100)%Q ->
  exists this' duty speed,
    setFanSpeed (Fin v) this = Returned false this'
    /\ PCA9685.written (_driver this')
       = PCA9685.written (_driver this)
         ++ motorWrites motor duty (_fanReverse this)
    /\ 0 <= duty <= 4095
    /\ ((v == 0)%Q -> duty = 0)
    /\ _fanSpeed this' = Some (Fin speed)
    /\ (speed == Qmin (Qmax v 0) 100)%Q
    /\ _fanRetries this' = 0
    /\ forall w,
         (0 < v <= w)%Q ->
         (fmin <= fmax)%Q ->
         exists this'' duty',
           setFanSpeed (Fin w) this = Returned false this''
           /\ PCA9685.written (_driver this'')
              = PCA9685.written (_driver this)
                ++ motorWrites motor duty' (_fanReverse this)
           /\ duty <= duty'.
Proof.
  intros Hinit Hdrv Hmotor Hm Hmin Hmax Rmin Rmax.
  destruct (setFanSpeed_scaled v fmin fmax motor this)
    as (this' & duty & speed & E & Hw & Rd & Hz & Hd & Hs & Es & Hr);
    try assumption.
  exists this', duty, speed.
  repeat (split; [assumption|]).
  intros w Rw Hle.
  destruct (setFanSpeed_scaled w fmin fmax motor this)
    as (this'' & duty' & speed' & E' & Hw' & _ & _ & Hd' & _);
    try assumption.
  exists this'', duty'. split; [assumption|]. split; [assumption|].
  rewrite Hd, Hd' by lra. apply Qfloor_resp_le.
  assert (Hc : (Qmin (Qmax v 0) 100 <= Qmin (Qmax w 0) 100)%Q).
  { apply Q.min_le_compat_r, Q.max_le_compat_r. tauto. }
  assert (Hp : ((fmax - fmin) * Qmin (Qmax v 0) 100
                <= (fmax - fmin) * Qmin (Qmax w 0) 100)%Q).
  { rewrite !(Qmult_comm (fmax - fmin)).
    apply Qmult_le_compat_r; [assumption|lra]. }
  revert Hp.
  generalize ((fmax - fmin) * Qmin (Qmax v 0) 100)%Q,
    ((fmax - fmin) * Qmin (Qmax w 0) 100)%Q.
  intros a b Hab. unfold Qdiv. change (/ 100)%Q with (1 # 100)%Q. lra.
Qed.

Lemma setFanSpeed_duty_witness :
  exists this' duty speed,
    PitAirflow.setFanSpeed (Fin 50) an_airflow
    = PitAirflow.Returned false this'
    /\ PCA9685.written (PitAirflow._driver this')
       = PCA9685.written (PitAirflow._driver an_airflow)
         ++ motorWrites 1 duty (PitAirflow._fanReverse an_airflow)
    /\ 0 <= duty <= 4095
    /\ ((50 == 0)%Q -> duty = 0)
    /\ PitAirflow._fanSpeed this' = Some (Fin speed)
    /\ (speed == Qmin (Qmax 50 0) 100)%Q
    /\ PitAirflow._fanRetries this' = 0
    /\ forall w,
         (0 < 50 <= w)%Q ->
         (0 <= 100)%Q ->
         exists this'' duty',
           PitAirflow.setFanSpeed (Fin w) an_airflow
           = PitAirflow.Returned false this''
           /\ PCA9685.written (PitAirflow._driver this'')
              = PCA9685.written (PitAirflow._driver an_airflow)
                ++ motorWrites 1 duty' (PitAirflow._fanReverse an_airflow)
           /\ duty <= duty'.
Proof.
  apply (setFanSpeed_duty 50 0 100 1 an_airflow); try reflexivity.
  - left. reflexivity.
  - split; vm_compute; discriminate.
  - split; vm_compute; discriminate.
Defined.

(** X29.  Before the driver is initialized [setFanSpeed] writes nothing and
    asks for a retry; it gives up when the retry counter has passed
    DRIVER_NUM_RETRIES (5): from a counter at 0 the call and the five
    retries that follow it each count one and set the timer of the next,
    and the sixth retry throws. *)
Theorem setFanSpeed_gives_up value this :
  _initialized this = false ->
  _fanRetries this = 0 ->
  (forall n,
     (n <= 6)%nat ->
     Nat.iter n (retryFanSpeed value) (Returned true this)
     = Returned true (set_fanRetries (Z.of_nat n) this))
  /\ Nat.iter 7 (retryFanSpeed value) (Returned true this)
     = Thrown "PCA9685 driver initialization timeout."
         (set_fanRetries 6 this).
Proof.
  intros Hinit Hzero. destruct this; cbn in Hinit, Hzero. subst.
  split.
  - intros n Hn.
    do 7 (destruct n as [|n]; [reflexivity|]). lia.
  - reflexivity.
Qed.

Lemma setFanSpeed_gives_up_witness :
  (forall n,
     (n <= 6)%nat ->
     Nat.iter n (retryFanSpeed (Fin 50))
       (PitAirflow.Returned true an_airflow_waiting)
     = PitAirflow.Returned true
         (PitAirflow.set_fanRetries (Z.of_nat n) an_airflow_waiting))
  /\ Nat.iter 7 (retryFanSpeed (Fin 50))
       (PitAirflow.Returned true an_airflow_waiting)
     = PitAirflow.Thrown "PCA9685 driver initialization timeout."
         (PitAirflow.set_fanRetries 6 an_airflow_waiting).
Proof.
  apply (setFanSpeed_gives_up (Fin 50) an_airflow_waiting); reflexivity.
Defined.

End Airflow.

Section Damper.

Import PitAirflow.

Lemma setServoPosition_initialized servo pulseWidth driver :
  PCA9685.initialized driver = true ->
  3 <= servo <= 8 ->
  PCA9685.setServoPosition (of_Z servo) pulseWidth driver
  = PCA9685.Returned
      (PCA9685.mk true
         (PCA9685.written driver
            ++ pwmWrites (servo + 3)
                 (dutyOf (floor (pulseWidth * Fin 4096 / Fin 20000)%num)))).
Proof.
  intros Hi Hs. unfold PCA9685.setServoPosition.
  assert (E : servo = 3 \/ servo = 4 \/ servo = 5 \/ servo = 6 \/ servo = 7
              \/ servo = 8) by lia.
  destruct E as [-> |[-> |[-> |[-> |[-> | ->]]]]];
    repeat match goal with
      | |- context [Num.eqb ?a ?b] =>
          let v := eval vm_compute in (Num.eqb a b) in
          change (Num.eqb a b) with v
      end;
    cbv iota; now rewrite setDutyCycle_initialized.
Qed.

(** X30.  [setDamperPosition] on an initialized driver always sends the
    servo a pulse between SERVO_MIN and SERVO_MAX, 500 and 2500
    microseconds, whatever the position asked for and whatever the limits of
    the damper: the duty cycle that it writes to the channel of the servo is
    the whole part of [pulse * 4096 / 20000], between 102 and 512, for the
    pulse [500 + 20 * p] of the percentage [p] that the position, mirrored
    when the damper is reversed, is scaled and clamped to.  It records the
    position asked for, kept between 0 and 100, and clears the retry
    counter. *)
Theorem setDamperPosition_pulse (v dmin dmax : Q) servo this :
  _initialized this = true ->
  PCA9685.initialized (_driver this) = true ->
  _damperServo this = of_Z servo ->
  3 <= servo <= 8 ->
  _damperMin this = Fin dmin ->
  _damperMax this = Fin dmax ->
  exists this' duty position p,
    setDamperPosition (Fin v) this = Returned false this'
    /\ PCA9685.written (_driver this')
       = PCA9685.written (_driver this) ++ pwmWrites (servo + 3) duty
    /\ (p == Qmin (Qmax (dmin
                         + (dmax - dmin)
                           * Qmin (Qmax (if _damperReverse this
                                         then 100 - v else v) 0) 100
                           / 100) 0) 100)%Q
    /\ duty = Qfloor ((500 + 20 * p) * 4096 / 20000)
    /\ 102 <= duty <= 512
    /\ _damperPosition this' = Some (Fin position)
    /\ (position == Qmin (Qmax v 0) 100)%Q
    /\ _damperRetries this' = 0.
Proof.
  intros Hinit Hdrv Hservo Rservo Hmin Hmax.
  unfold setDamperPosition. rewrite Hinit. cbn [negb].
  cbn [_damperServo _damperReverse _driver _damperMin _damperMax
       set_damperRetries].
  rewrite Hservo, Hmin, Hmax.
  rewrite (setServoPosition_initialized servo _ _ Hdrv Rservo).
  cbn [driven].
  set (w := if _damperReverse this then (100 - v)%Q else v).
  assert (Hw : isFin (if _damperReverse this then (MOTOR_MAX - Fin v)%num
                      else Fin v) w).
  { unfold w. destruct (_damperReverse this); [|apply isFin_Fin].
    apply isFin_sub; apply isFin_Fin. }
  destruct Hw as (w' & -> & Hw).
  assert (H1 : isFin (mapRange (Fin w') MOTOR_MIN MOTOR_MAX (Fin dmin)
                        (Fin dmax))
                 (dmin + (dmax - dmin) * Qmin (Qmax w 0) 100 / 100)%Q).
  { unfold mapRange. eapply isFin_Qeq.
    - repeat first [ apply isFin_add | apply isFin_mul | apply isFin_div
                   | apply isFin_sub | apply isFin_constrain
                   | apply isFin_Fin ].
      discriminate.
    - rewrite Hw. field. }
  destruct H1 as (s & -> & Hs).
  set (p := Qmin (Qmax s 0) 100).
  assert (Rp : (0 <= p <= 100)%Q).
  { unfold p. split; [|apply Q.le_min_r].
    apply Q.min_glb; [apply Q.le_max_r|discriminate]. }
  assert (H2 : isFin (mapRange (Fin s) MOTOR_MIN MOTOR_MAX SERVO_MIN
                        SERVO_MAX)
                 (500 + 20 * p)%Q).
  { unfold mapRange. eapply isFin_Qeq.
    - repeat first [ apply isFin_add | apply isFin_mul | apply isFin_div
                   | apply isFin_sub | apply isFin_constrain
                   | apply isFin_Fin ].
      discriminate.
    - fold p. field. }
  destruct H2 as (pulse & -> & Hpulse).
  assert (H3 : isFin (Fin pulse * Fin 4096 / Fin 20000)%num
                 ((500 + 20 * p) * 4096 / 20000)%Q).
  { eapply isFin_Qeq.
    - apply isFin_div; [apply isFin_mul; apply isFin_Fin|apply isFin_Fin|].
      discriminate.
    - rewrite Hpulse. reflexivity. }
  destruct H3 as (x & -> & Hx).
  assert (Rx : (inject_Z 102 <= x <= inject_Z 512)%Q).
  { rewrite Hx. change (inject_Z 102) with 102%Q.
    change (inject_Z 512) with 512%Q. split.
    - apply Qle_shift_div_l; lra.
    - apply Qle_shift_div_r; lra. }
  pose proof (Qfloor_range x 102 512 Rx) as Rd.
  assert (Hd : dutyOf (floor (Fin x)) = Qfloor x).
  { cbn [floor dutyOf of_Z].
    rewrite (Q.max_r 0 (inject_Z (Qfloor x)))
      by (change 0%Q with (inject_Z 0); rewrite <- Zle_Qle; lia).
    rewrite (Q.min_r 4095 (inject_Z (Qfloor x)))
      by (change 4095%Q with (inject_Z 4095); rewrite <- Zle_Qle; lia).
    apply Qfloor_Z. }
  rewrite Hd.
  assert (Hc : isFin (constrain (Fin v) MOTOR_MIN MOTOR_MAX)
                 (Qmin (Qmax v 0) 100))
    by (apply isFin_constrain; apply isFin_Fin).
  destruct Hc as (position & -> & Hposition).
  do 2 eexists. exists position, p.
  split; [reflexivity|].
  split; [reflexivity|].
  split; [unfold p; now rewrite Hs|].
  split; [apply Qfloor_comp; assumption|].
  split; [assumption|]. split; [reflexivity|].
  split; [assumption|reflexivity].
Qed.

Lemma setDamperPosition_pulse_witness :
  exists this' duty position p,
    setDamperPosition (Fin 50) an_airflow = Returned false this'
    /\ PCA9685.written (_driver this')
       = PCA9685.written (_driver an_airflow) ++ pwmWrites (3 + 3) duty
    /\ (p == Qmin (Qmax (0
                         + (100 - 0)
                           * Qmin (Qmax (if _damperReverse an_airflow
                                         then 100 - 50 else 50) 0) 100
                           / 100) 0) 100)%Q
    /\ duty = Qfloor ((500 + 20 * p) * 4096 / 20000)
    /\ 102 <= duty <= 512
    /\ _damperPosition this' = Some (Fin position)
    /\ (position == Qmin (Qmax 50 0) 100)%Q
    /\ _damperRetries this' = 0.
Proof.
  apply (setDamperPosition_pulse 50 0 100 3 an_airflow); try reflexivity.
  split; vm_compute; discriminate.
Defined.

End Damper.
